(** * Workflow canvas editor: geometry, viewport and persisted-state repair

  A shallow embedding of the TypeScript sources of the editor:
  - [CanvaworkComponent] and [CanvaspaceComponent], the two generic
    pan/zoom canvases (wheel zoom, zoom buttons, hit testing);
  - [WorkstatusComponent], the workflow canvas (arrow routing, group
    drag, toolbar drop), in its two revisions;
  - [WorkflowserviceService], the persistence service that repairs a
    stored canvas state, in its two revisions.

  JavaScript numbers are modelled as real numbers, the reading the
  data model gives them ("finite real numbers"): arithmetic is exact,
  there is no NaN and no rounding.  Node ids and sequence numbers are
  integers.  Object identity is modelled by the index of an object in
  the array that owns it. *)

From Stdlib Require Import Reals Lra Lia ZArith List String Bool.
From Stdlib Require Import Permutation Sorted.
Import ListNotations.

Open Scope R_scope.

(** ** JavaScript arithmetic on exact reals *)

Module Js.

Definition ltb (a b : R) : bool := if Rlt_dec a b then true else false.
Definition leb (a b : R) : bool := if Rle_dec a b then true else false.
Definition gtb (a b : R) : bool := ltb b a.
Definition geb (a b : R) : bool := leb b a.
Definition eqb (a b : R) : bool := if Req_dec_T a b then true else false.

(** [Math.max], [Math.min], [Math.abs], [Math.sqrt].  The sources take
    the square root of sums of squares only, where [sqrt] is the real
    square root. *)
Definition Math_max (a b : R) : R := Rmax a b.
Definition Math_min (a b : R) : R := Rmin a b.
Definition Math_abs (a : R) : R := Rabs a.
Definition Math_sqrt (a : R) : R := sqrt a.

(** [Math.round]: the nearest integer, ties towards plus infinity,
    that is the floor of [a + 1/2]. *)
Definition Math_round (a : R) : R := IZR (Int_part (a + / 2)).

(** [v || d] on a number: [d] replaces a zero. *)
Definition or_default (v d : R) : R := if Req_dec_T v 0 then d else v.

(** The loop [for (let i = l.length - 1; i >= 0; i--)] that returns at
    the first element passing a test: [scanDown test l n] has the
    indices below [n] still to visit. *)
Fixpoint scanDown {A : Type} (test : A -> bool) (l : list A) (n : nat)
  : option nat :=
  match n with
  | O => None
  | S i =>
      match nth_error l i with
      | Some a => if test a then Some i else scanDown test l i
      | None => scanDown test l i
      end
  end.

End Js.

(** ** Browser values the handlers read *)

Module Dom.

(** The part of [getBoundingClientRect()] the handlers use. *)
Record DOMRect := { left : R; top : R; right : R; bottom : R }.

(** A canvas element: its bounding rectangle and its pixel size. *)
Record Canvas := { rect : DOMRect; width : R; height : R }.

Record WheelEvent := { wheelClientX : R; wheelClientY : R; deltaY : R }.

Record MouseEvent := { clientX : R; clientY : R }.

(** The scroll container of the workflow canvas: its bounding
    rectangle, its scroll position and the bounding rectangle of its
    [.canvas] child, when there is one. *)
Record ScrollContainer := {
  scrollRect : DOMRect;
  scrollLeft : R;
  scrollTop : R;
  canvasRect : option DOMRect
}.

End Dom.

(** ** CanvaworkComponent (canvawork.component.ts) *)

Module Canvawork.
Inductive ShapeType := rectangle | circle | triangle.

Record CanvasObject := {
  id : Z;
  type : ShapeType;
  x : R;
  y : R;
  width : option R;
  height : option R;
  radius : option R;
  color : string
}.

(** The fields of the component that zooming and hit testing touch. *)
Record State := {
  offsetX : R;
  offsetY : R;
  scale : R;
  objects : list CanvasObject
}.

Definition minScale : R := 0.1.
Definition maxScale : R := 10.
Definition zoomIntensity : R := 0.1.

Definition initial (objs : list CanvasObject) : State :=
  {| offsetX := 0; offsetY := 0; scale := 1; objects := objs |}.

Definition onWheel (canvas : Dom.Canvas) (event : Dom.WheelEvent) (st : State)
  : State :=
  let mouseX := Dom.wheelClientX event - Dom.left (Dom.rect canvas) in
  let mouseY := Dom.wheelClientY event - Dom.top (Dom.rect canvas) in
  let worldX := (mouseX - offsetX st) / scale st in
  let worldY := (mouseY - offsetY st) / scale st in
  let delta := - Dom.deltaY event in
  let zoomFactor :=
    if Js.gtb delta 0 then 1 + zoomIntensity else 1 - zoomIntensity in
  let newScale := scale st * zoomFactor in
  let scale' := Js.Math_max minScale (Js.Math_min maxScale newScale) in
  {| offsetX := mouseX - worldX * scale';
     offsetY := mouseY - worldY * scale';
     scale := scale';
     objects := objects st |}.

Definition zoomIn (canvas : Dom.Canvas) (st : State) : State :=
  let centerX := Dom.width canvas / 2 in
  let centerY := Dom.height canvas / 2 in
  let worldX := (centerX - offsetX st) / scale st in
  let worldY := (centerY - offsetY st) / scale st in
  let scale' := Js.Math_min maxScale (scale st * 1.2) in
  {| offsetX := centerX - worldX * scale';
     offsetY := centerY - worldY * scale';
     scale := scale';
     objects := objects st |}.

Definition zoomOut (canvas : Dom.Canvas) (st : State) : State :=
  let centerX := Dom.width canvas / 2 in
  let centerY := Dom.height canvas / 2 in
  let worldX := (centerX - offsetX st) / scale st in
  let worldY := (centerY - offsetY st) / scale st in
  let scale' := Js.Math_max minScale (scale st / 1.2) in
  {| offsetX := centerX - worldX * scale';
     offsetY := centerY - worldY * scale';
     scale := scale';
     objects := objects st |}.

Definition resetView (st : State) : State :=
  {| offsetX := 0; offsetY := 0; scale := 1; objects := objects st |}.

(** Screen to world, as [onMouseDown] and [onWheel] compute it, and
    world to screen, the transform [draw] installs. *)
Definition toWorld (p : R * R) (st : State) : R * R :=
  ((fst p - offsetX st) / scale st, (snd p - offsetY st) / scale st).

Definition toScreen (w : R * R) (st : State) : R * R :=
  (fst w * scale st + offsetX st, snd w * scale st + offsetY st).

(** [a <= b + c] where [c] may be [undefined]: the sum is then NaN and
    the comparison false. *)
Definition leb_plus_undef (a b : R) (c : option R) : bool :=
  match c with Some c => Js.leb a (b + c) | None => false end.

(** [v || 100] on an optional number. *)
Definition or_100 (v : option R) : R :=
  match v with Some v => Js.or_default v 100 | None => 100 end.

(** The test [getObjectAtPosition] makes on one object. *)
Definition contains (px py : R) (obj : CanvasObject) : bool :=
  match type obj with
  | rectangle =>
      Js.geb px (x obj) && leb_plus_undef px (x obj) (width obj) &&
      Js.geb py (y obj) && leb_plus_undef py (y obj) (height obj)
  | circle =>
      let dx := px - x obj in
      let dy := py - y obj in
      let distance := Js.Math_sqrt (dx * dx + dy * dy) in
      match radius obj with
      | Some r => Js.leb distance r
      | None => false
      end
  | triangle =>
      let width := or_100 (width obj) in
      let height := or_100 (height obj) in
      Js.geb px (x obj - width / 2) && Js.leb px (x obj + width / 2) &&
      Js.geb py (y obj) && Js.leb py (y obj + height)
  end.

(** The result is the index of the object returned, the model of the
    reference. *)
Definition getObjectAtPosition (px py : R) (st : State) : option nat :=
  Js.scanDown (contains px py) (objects st) (List.length (objects st)).

Definition addObject (obj : CanvasObject) (st : State) : State :=
  {| offsetX := offsetX st; offsetY := offsetY st; scale := scale st;
     objects := objects st ++ [obj] |}.

(** The zoom operations a user can perform. *)
Inductive ZoomOp :=
| Wheel (canvas : Dom.Canvas) (event : Dom.WheelEvent)
| ZoomIn (canvas : Dom.Canvas)
| ZoomOut (canvas : Dom.Canvas).

Definition apply (st : State) (op : ZoomOp) : State :=
  match op with
  | Wheel canvas event => onWheel canvas event st
  | ZoomIn canvas => zoomIn canvas st
  | ZoomOut canvas => zoomOut canvas st
  end.

Definition run (ops : list ZoomOp) (st : State) : State :=
  fold_left apply ops st.

End Canvawork.

(** ** CanvaspaceComponent (canvaspace.component.ts) *)

Module Canvaspace.

Inductive ShapeType := rectangle | circle | text.

Record CanvasObject := {
  id : string;
  x : R;
  y : R;
  width : R;
  height : R;
  type : ShapeType;
  color : string;
  label : option string
}.

Record State := {
  scale : R;
  offsetX : R;
  offsetY : R;
  objects : list CanvasObject
}.

(** The bounds are literals in this component. *)
Definition minScale : R := 0.1.
Definition maxScale : R := 5.

Definition initial (objs : list CanvasObject) : State :=
  {| scale := 1; offsetX := 0; offsetY := 0; objects := objs |}.

Definition onMouseWheel (canvas : Dom.Canvas) (event : Dom.WheelEvent)
  (st : State) : State :=
  let mouseX := Dom.wheelClientX event - Dom.left (Dom.rect canvas) in
  let mouseY := Dom.wheelClientY event - Dom.top (Dom.rect canvas) in
  let worldX := (mouseX - offsetX st) / scale st in
  let worldY := (mouseY - offsetY st) / scale st in
  let zoomFactor := if Js.gtb (Dom.deltaY event) 0 then 0.9 else 1.1 in
  let newScale :=
    Js.Math_max 0.1 (Js.Math_min 5 (scale st * zoomFactor)) in
  {| scale := newScale;
     offsetX := mouseX - worldX * newScale;
     offsetY := mouseY - worldY * newScale;
     objects := objects st |}.

(** The zoom buttons change the scale only. *)
Definition zoomIn (st : State) : State :=
  {| scale := Js.Math_min 5 (scale st * 1.2);
     offsetX := offsetX st; offsetY := offsetY st;
     objects := objects st |}.

Definition zoomOut (st : State) : State :=
  {| scale := Js.Math_max 0.1 (scale st / 1.2);
     offsetX := offsetX st; offsetY := offsetY st;
     objects := objects st |}.

Definition resetZoom (st : State) : State :=
  {| scale := 1; offsetX := 0; offsetY := 0; objects := objects st |}.

Definition toWorld (p : R * R) (st : State) : R * R :=
  ((fst p - offsetX st) / scale st, (snd p - offsetY st) / scale st).

Definition toScreen (w : R * R) (st : State) : R * R :=
  (fst w * scale st + offsetX st, snd w * scale st + offsetY st).

Definition contains (px py : R) (obj : CanvasObject) : bool :=
  match type obj with
  | rectangle =>
      Js.geb px (x obj) && Js.leb px (x obj + width obj) &&
      Js.geb py (y obj) && Js.leb py (y obj + height obj)
  | circle =>
      let centerX := x obj + width obj / 2 in
      let centerY := y obj + height obj / 2 in
      let radius := width obj / 2 in
      let distance :=
        Js.Math_sqrt ((px - centerX) ^ 2 + (py - centerY) ^ 2) in
      Js.leb distance radius
  | text =>
      Js.geb px (x obj) && Js.leb px (x obj + width obj) &&
      Js.geb py (y obj) && Js.leb py (y obj + height obj)
  end.

Definition getObjectAtPosition (px py : R) (st : State) : option nat :=
  Js.scanDown (contains px py) (objects st) (List.length (objects st)).

Definition addObject (obj : CanvasObject) (st : State) : State :=
  {| scale := scale st; offsetX := offsetX st; offsetY := offsetY st;
     objects := objects st ++ [obj] |}.

Inductive ZoomOp :=
| Wheel (canvas : Dom.Canvas) (event : Dom.WheelEvent)
| ZoomIn
| ZoomOut.

Definition apply (st : State) (op : ZoomOp) : State :=
  match op with
  | Wheel canvas event => onMouseWheel canvas event st
  | ZoomIn => zoomIn st
  | ZoomOut => zoomOut st
  end.

Definition run (ops : list ZoomOp) (st : State) : State :=
  fold_left apply ops st.

End Canvaspace.

(** ** WorkflowserviceService (workflowservice.service.ts)

  The state handed to [autoFixCanvasState] comes out of [JSON.parse],
  so a field typed [Position] may be absent or hold something that is
  no number: a coordinate is [None] when [typeof] is not ['number'] or
  the value is NaN, a position is [None] when it is falsy. *)

Module Service.

Record Position := { x : R; y : R }.

Record RawPosition := { rawX : option R; rawY : option R }.

Definition raw (p : Position) : RawPosition :=
  {| rawX := Some (x p); rawY := Some (y p) |}.

Inductive ItemType := action1 | action2 | continue | reject.

(** The open property bag: the keys the service reads or writes, and
    the remaining keys. *)
Record WorkflowProperties := {
  sequence : option Z;
  name : option string;
  propPosition : option RawPosition;
  extra : list (string * string)
}.

Record DraggableItem := {
  id : Z;
  label : string;
  position : option RawPosition;
  type : ItemType;
  properties : option WorkflowProperties;
  workflowId : option string
}.

Record ArrowRef := { fromId : Z; toId : Z }.

Record SavedState := {
  stateId : option string;
  items : option (list DraggableItem);
  arrows : option (list ArrowRef);
  nextId : Z
}.

Definition DEFAULT_START_X : R := 120.
Definition DEFAULT_START_Y : R := 120.
Definition SPACE_INCREASE : R := 300.

(** [localStorage]: the two keys the service uses.  [available] is
    false when there is no [window.localStorage] or it refuses the
    operation; the helpers then report failure and change nothing.
    Values are kept as parsed: the JSON round trip is the identity on
    these records. *)
Record LocalStorage := {
  available : bool;
  positions : option (list (string * Position));
  canvasState : option SavedState
}.

Fixpoint assign (k : string) (v : Position)
  (m : list (string * Position)) : list (string * Position) :=
  match m with
  | [] => [(k, v)]
  | (k', v') :: m' =>
      if String.eqb k k' then (k, v) :: m' else (k', v') :: assign k v m'
  end.

Definition savePosition (workflowId : string) (position : Position)
  (ls : LocalStorage) : LocalStorage * bool :=
  let positions := match (if available ls then positions ls else None) with
                   | Some m => m
                   | None => []
                   end in
  let positions := assign workflowId position positions in
  if available ls
  then ({| available := true; positions := Some positions;
           canvasState := canvasState ls |}, true)
  else (ls, false).

Definition saveCanvasState (state : SavedState) (ls : LocalStorage)
  : LocalStorage * option SavedState :=
  if available ls
  then ({| available := true; positions := positions ls;
           canvasState := Some state |}, Some state)
  else (ls, None).

Definition is_number (v : option R) : bool :=
  match v with Some _ => true | None => false end.

Definition isValidPosition (position : option RawPosition) : bool :=
  match position with
  | Some p => is_number (rawX p) && is_number (rawY p)
  | None => false
  end.

(** [v === 0] on a coordinate. *)
Definition is_zero (v : option R) : bool :=
  match v with Some r => Js.eqb r 0 | None => false end.

(** [item.position.x === 0 && item.position.y === 0], evaluated only
    on a valid position. *)
Definition atOrigin (position : option RawPosition) : bool :=
  match position with
  | Some p => is_zero (rawX p) && is_zero (rawY p)
  | None => false
  end.

Definition truthy (s : option string) : option string :=
  match s with
  | Some EmptyString => None
  | other => other
  end.

(** One turn of the [forEach] over [state.items].  The copy
    [{...item}] shares [properties] with [item], so the assignment to
    [fixedItem.properties.position] also reaches the item of the input
    state; the input is not read again afterwards.  [spacing] and the
    write [storePosition] made for a repaired item differ between the
    revisions of the service. *)
Section FixItems.
Context {Store : Type}.
Variable spacing : R.
Variable storePosition : DraggableItem -> Position -> Store -> Store.

Definition fixItem (index : nat) (item : DraggableItem) (st : Store)
  : DraggableItem * bool * Store :=
  if negb (isValidPosition (position item)) || atOrigin (position item)
  then
    let defaultPosition :=
      {| x := DEFAULT_START_X + INR index * spacing;
         y := DEFAULT_START_Y |} in
    let props :=
      match properties item with
      | Some p => Some {| sequence := sequence p; name := name p;
                          propPosition := Some (raw defaultPosition);
                          extra := extra p |}
      | None => None
      end in
    let fixedItem :=
      {| id := id item; label := label item;
         position := Some (raw defaultPosition);
         type := type item; properties := props;
         workflowId := workflowId item |} in
    (fixedItem, true, storePosition fixedItem defaultPosition st)
  else (item, false, st).

Fixpoint fixItems (index : nat) (l : list DraggableItem) (st : Store)
  : list DraggableItem * bool * Store :=
  match l with
  | [] => ([], false, st)
  | item :: rest =>
      let '(fixedItem, fixed, st1) := fixItem index item st in
      let '(fixedRest, fixedLater, st2) := fixItems (S index) rest st1 in
      (fixedItem :: fixedRest, fixed || fixedLater, st2)
  end.
End FixItems.

(** [a.properties?.sequence || a.id] *)
Definition sequenceKey (a : DraggableItem) : Z :=
  match properties a with
  | Some p =>
      match sequence p with
      | Some s => if Z.eqb s 0 then id a else s
      | None => id a
      end
  | None => id a
  end.

(** [Array.prototype.sort] with the comparator [seqA - seqB]: a stable
    sort by [sequenceKey]. *)
Fixpoint insertBySequence (a : DraggableItem) (l : list DraggableItem)
  : list DraggableItem :=
  match l with
  | [] => [a]
  | b :: l' =>
      if Z.leb (sequenceKey a) (sequenceKey b)
      then a :: b :: l'
      else b :: insertBySequence a l'
  end.

Fixpoint sortBySequenceKey (l : list DraggableItem) : list DraggableItem :=
  match l with
  | [] => []
  | a :: l' => insertBySequence a (sortBySequenceKey l')
  end.

(** The loop [for (i = 0; i < sortedItems.length - 1; i++)]. *)
Fixpoint chain (sortedItems : list DraggableItem) : list ArrowRef :=
  match sortedItems with
  | a :: (b :: _) as rest =>
      {| fromId := id a; toId := id b |} :: chain rest
  | _ => []
  end.

Definition generateSequentialArrows (items : list DraggableItem)
  : list ArrowRef :=
  chain (sortBySequenceKey items).

Definition existsId (fixedItems : list DraggableItem) (i : Z) : bool :=
  existsb (fun item => Z.eqb (id item) i) fixedItems.

Definition arrowValid (fixedItems : list DraggableItem) (arrow : ArrowRef)
  : bool :=
  existsId fixedItems (fromId arrow) && existsId fixedItems (toId arrow).

Definition isEmpty {A} (l : list A) : bool :=
  match l with [] => true | _ => false end.

(** [autoFixCanvasState], with the repair of the items and the final
    write as the revision has them. *)
Section AutoFix.
Context {Store : Type}.
Variable fixAll :
  list DraggableItem -> Store -> list DraggableItem * bool * Store.
Variable save : SavedState -> Store -> Store.

Definition autoFixWith (state : SavedState) (st : Store)
  : SavedState * Store :=
  match items state with
  | None => (state, st)
  | Some [] => (state, st)
  | Some stateItems =>
      let '(fixedItems, needsAutoFix, st1) := fixAll stateItems st in
      let fixedArrows :=
        match arrows state with Some a => a | None => [] end in
      let '(fixedArrows, needsAutoFix) :=
        if isEmpty fixedArrows
        then (generateSequentialArrows fixedItems, true)
        else
          let validArrows := filter (arrowValid fixedItems) fixedArrows in
          if negb (Nat.eqb (List.length validArrows)
                           (List.length fixedArrows))
          then (validArrows, true)
          else (fixedArrows, needsAutoFix) in
      let fixedState :=
        {| stateId := stateId state;
           items := Some fixedItems;
           arrows := Some fixedArrows;
           nextId := nextId state |} in
      if needsAutoFix
      then (fixedState, save fixedState st1)
      else (fixedState, st1)
  end.
End AutoFix.

(** The write the loop makes for a repaired item that has a
    [workflowId]. *)
Definition storePosition (fixedItem : DraggableItem)
  (defaultPosition : Position) (ls : LocalStorage) : LocalStorage :=
  match truthy (workflowId fixedItem) with
  | Some w => fst (savePosition w defaultPosition ls)
  | None => ls
  end.

Definition autoFixCanvasState (state : SavedState) (ls : LocalStorage)
  : SavedState * LocalStorage :=
  autoFixWith (fixItems SPACE_INCREASE storePosition 0)
              (fun s ls => fst (saveCanvasState s ls)) state ls.

(** [getCanvasState]: nothing stored gives [null]. *)
Definition getCanvasState (ls : LocalStorage)
  : option SavedState * LocalStorage :=
  match (if available ls then canvasState ls else None) with
  | None => (None, ls)
  | Some state =>
      let '(fixedState, ls') := autoFixCanvasState state ls in
      (Some fixedState, ls')
  end.

End Service.

(** ** WorkflowserviceService, the revision that keeps the canvas state
  on the JSON server

  The requests are asynchronous; the model gives the server after the
  requests a call issues have completed.  [reachable] is false when a
  request fails, which the service turns into [null]. *)

Module ServiceJsonServer.
Import Service.

Definition CANVAS_STATE_ID : string := "1".
Definition DEFAULT_HORIZONTAL_SPACING : R := 200.

(** The resource [/workflowState/1]. *)
Record Server := {
  reachable : bool;
  workflowState : option SavedState
}.

Definition getCanvasStateRaw (srv : Server) : option SavedState :=
  if reachable srv then workflowState srv else None.

(** [PUT /workflowState/1] and [POST /workflowState]. *)
Definition updateCanvasState (state : SavedState) (srv : Server)
  : Server * option SavedState :=
  if reachable srv
  then ({| reachable := true; workflowState := Some state |}, Some state)
  else (srv, None).

Definition createCanvasState (state : SavedState) (srv : Server)
  : Server * option SavedState :=
  if reachable srv
  then ({| reachable := true; workflowState := Some state |}, Some state)
  else (srv, None).

Definition saveCanvasState (state : SavedState) (srv : Server)
  : Server * option SavedState :=
  let stateWithId :=
    {| stateId := Some CANVAS_STATE_ID; items := items state;
       arrows := arrows state; nextId := nextId state |} in
  match getCanvasStateRaw srv with
  | Some _ => updateCanvasState stateWithId srv
  | None => createCanvasState stateWithId srv
  end.

Definition autoFixCanvasState (state : SavedState) (srv : Server)
  : SavedState * Server :=
  autoFixWith
    (fixItems DEFAULT_HORIZONTAL_SPACING (fun _ _ srv => srv) 0)
    (fun s srv => fst (saveCanvasState s srv)) state srv.

Definition getCanvasState (srv : Server) : option SavedState * Server :=
  match getCanvasStateRaw srv with
  | None => (None, srv)
  | Some state =>
      let '(fixedState, srv') := autoFixCanvasState state srv in
      (Some fixedState, srv')
  end.

End ServiceJsonServer.

(** ** The workflow canvas: nodes, arrows and arrow routing

  The declarations of workflowservice.service.ts as the component
  uses them, and the routing functions, which are the same in both
  revisions of workstatus.component.ts. *)

Module Workflow.

Record Position := { x : R; y : R }.

Inductive ItemType := action1 | action2 | continue | reject.

(** A value of a key of the property bag the canvas does not read. *)
Inductive Json := JNull | JNumber (n : Z) | JString (s : string).

Record WorkflowProperties := {
  sequence : option Z;
  name : option string;
  propPosition : Position;
  extra : list (string * Json)
}.

Record DraggableItem := {
  id : Z;
  label : string;
  position : Position;
  type : ItemType;
  properties : option WorkflowProperties;
  workflowId : option string
}.

(** [from] and [to] are references to elements of [items]: indices. *)
Record Arrow := {
  from : nat;
  to : nat;
  path : string;
  strokeDasharray : option string
}.

Inductive Direction := Right | Left | Up | Down.

Definition boxW : R := 140.
Definition boxH : R := 64.
Definition arrowOffset : R := 3.

(** The start point, the end point and the two directions
    [calculateArrowPath] chooses. *)
Record Endpoints := {
  startX : R; startY : R; startDirection : Direction;
  endX : R; endY : R; endDirection : Direction
}.

Definition centerDelta (from to : DraggableItem) : R * R :=
  let fromCenterX := x (position from) + boxW / 2 in
  let fromCenterY := y (position from) + boxH / 2 in
  let toCenterX := x (position to) + boxW / 2 in
  let toCenterY := y (position to) + boxH / 2 in
  (toCenterX - fromCenterX, toCenterY - fromCenterY).

Definition centerDistance (from to : DraggableItem) : R :=
  let '(dx, dy) := centerDelta from to in
  Js.Math_sqrt (dx * dx + dy * dy).

Definition arrowEndpoints (from to : DraggableItem) : Endpoints :=
  let fromCenterX := x (position from) + boxW / 2 in
  let fromCenterY := y (position from) + boxH / 2 in
  let toCenterX := x (position to) + boxW / 2 in
  let toCenterY := y (position to) + boxH / 2 in
  let dx := toCenterX - fromCenterX in
  let dy := toCenterY - fromCenterY in
  let horizontalGap := Js.Math_abs dx in
  let verticalGap := Js.Math_abs dy in
  if Js.gtb dx 0 && Js.gtb horizontalGap (verticalGap * 0.5) then
    {| startX := x (position from) + boxW; startY := fromCenterY;
       startDirection := Right;
       endX := x (position to) - arrowOffset; endY := toCenterY;
       endDirection := Left |}
  else if Js.gtb dy 0 && Js.gtb verticalGap (horizontalGap * 0.3) then
    {| startX := fromCenterX; startY := y (position from) + boxH;
       startDirection := Down;
       endX := toCenterX; endY := y (position to) - arrowOffset;
       endDirection := Up |}
  else if Js.ltb dy 0 && Js.gtb verticalGap (horizontalGap * 0.3) then
    {| startX := fromCenterX; startY := y (position from);
       startDirection := Up;
       endX := toCenterX; endY := y (position to) + boxH + arrowOffset;
       endDirection := Down |}
  else if Js.ltb dx 0 then
    if Js.gtb (Js.Math_abs dy) 30
       || Js.gtb (y (position to)) (y (position from)) then
      {| startX := fromCenterX; startY := y (position from) + boxH;
         startDirection := Down;
         endX := x (position to) + boxW + arrowOffset; endY := toCenterY;
         endDirection := Right |}
    else
      {| startX := fromCenterX; startY := y (position from);
         startDirection := Up;
         endX := x (position to) + boxW + arrowOffset; endY := toCenterY;
         endDirection := Right |}
  else
    {| startX := x (position from) + boxW; startY := fromCenterY;
       startDirection := Right;
       endX := x (position to) - arrowOffset; endY := toCenterY;
       endDirection := Left |}.

(** The two [switch] statements of [createSmoothBezierPath]. *)
Definition controlPoint (pX pY : R) (direction : Direction)
  (actualControlDistance : R) : R * R :=
  match direction with
  | Right => (pX + actualControlDistance, pY)
  | Left => (pX - actualControlDistance, pY)
  | Down => (pX, pY + actualControlDistance)
  | Up => (pX, pY - actualControlDistance)
  end.

Definition actualControlDistance (distance : R) : R :=
  let controlDistance := Js.Math_min (distance * 0.4) 150 in
  let minControlDist := 40 in
  Js.Math_max controlDistance minControlDist.

(** The eight numbers of the path. *)
Record Bezier := {
  moveX : R; moveY : R;
  cp1X : R; cp1Y : R;
  cp2X : R; cp2Y : R;
  curveX : R; curveY : R
}.

Definition smoothBezier (startX startY : R) (startDirection : Direction)
  (endX endY : R) (endDirection : Direction) (distance : R) : Bezier :=
  let acd := actualControlDistance distance in
  let '(cp1X, cp1Y) := controlPoint startX startY startDirection acd in
  let '(cp2X, cp2Y) := controlPoint endX endY endDirection acd in
  {| moveX := startX; moveY := startY;
     cp1X := cp1X; cp1Y := cp1Y; cp2X := cp2X; cp2Y := cp2Y;
     curveX := endX; curveY := endY |}.

Definition arrowBezier (from to : DraggableItem) : Bezier :=
  let e := arrowEndpoints from to in
  smoothBezier (startX e) (startY e) (startDirection e)
               (endX e) (endY e) (endDirection e)
               (centerDistance from to).

(** The conversion of a number to a string inside a template literal
    belongs to the language, not to the repository: it is a parameter
    of everything that builds a path. *)
Section Paths.
Variable numberToString : R -> string.

Local Open Scope string_scope.

(** The template literal
    [M${startX},${startY} C${cp1X},${cp1Y} ${cp2X},${cp2Y} ${endX},${endY}]. *)
Definition template (b : Bezier) : string :=
  "M" ++ numberToString (moveX b) ++ "," ++ numberToString (moveY b)
  ++ " C" ++ numberToString (cp1X b) ++ "," ++ numberToString (cp1Y b)
  ++ " " ++ numberToString (cp2X b) ++ "," ++ numberToString (cp2Y b)
  ++ " " ++ numberToString (curveX b) ++ "," ++ numberToString (curveY b).

Definition createSmoothBezierPath (startX startY : R)
  (startDirection : Direction) (endX endY : R)
  (endDirection : Direction) (distance : R) : string :=
  template (smoothBezier startX startY startDirection
                         endX endY endDirection distance).

Definition calculateArrowPath (from to : DraggableItem) : string :=
  let e := arrowEndpoints from to in
  createSmoothBezierPath (startX e) (startY e) (startDirection e)
                         (endX e) (endY e) (endDirection e)
                         (centerDistance from to).

(** [updateAllArrows]: every arrow gets the path between the two
    items it refers to. *)
Definition updateArrow (items : list DraggableItem) (arrow : Arrow)
  : Arrow :=
  match nth_error items (from arrow), nth_error items (to arrow) with
  | Some f, Some t =>
      {| from := from arrow; to := to arrow;
         path := calculateArrowPath f t;
         strokeDasharray := strokeDasharray arrow |}
  | _, _ => arrow
  end.

Definition updateAllArrows (items : list DraggableItem)
  (arrows : list Arrow) : list Arrow :=
  map (updateArrow items) arrows.
End Paths.

(** [createArrow], on the references of two items of [items]. *)
Definition isDottedLine (from to : DraggableItem) : bool :=
  match type from, type to with
  | action2, continue | action2, reject => true
  | _, _ => false
  end.

Definition createArrow (items : list DraggableItem) (from to : nat)
  (arrows : list Arrow) : list Arrow :=
  let dotted :=
    match nth_error items from, nth_error items to with
    | Some f, Some t => isDottedLine f t
    | _, _ => false
    end in
  arrows ++ [{| from := from; to := to; path := EmptyString;
                strokeDasharray :=
                  if dotted then Some "4,8"%string else None |}].

(** Writing a field of the object a reference points to. *)
Fixpoint update (i : nat) (f : DraggableItem -> DraggableItem)
  (items : list DraggableItem) : list DraggableItem :=
  match items, i with
  | [], _ => []
  | item :: rest, O => f item :: rest
  | item :: rest, S j => item :: update j f rest
  end.

Definition setPosition (p : Position) (item : DraggableItem)
  : DraggableItem :=
  {| id := id item; label := label item; position := p;
     type := type item; properties := properties item;
     workflowId := workflowId item |}.

(** [if (item.properties) item.properties.position = p] *)
Definition setPropertiesPosition (p : Position) (item : DraggableItem)
  : DraggableItem :=
  {| id := id item; label := label item; position := position item;
     type := type item;
     properties :=
       match properties item with
       | Some q => Some {| sequence := sequence q; name := name q;
                           propPosition := p; extra := extra q |}
       | None => None
       end;
     workflowId := workflowId item |}.

(** [this.arrows.some(a => a.from.id === item.id && a.to.id === i.id)] *)
Definition idAt (items : list DraggableItem) (i : nat) : option Z :=
  option_map id (nth_error items i).

Definition hasArrow (items : list DraggableItem) (arrows : list Arrow)
  (item i : DraggableItem) : bool :=
  existsb (fun a =>
             match idAt items (from a), idAt items (to a) with
             | Some f, Some t => Z.eqb f (id item) && Z.eqb t (id i)
             | _, _ => false
             end) arrows.

(** A record of the item source. *)
Record WorkflowProcessItem := {
  wfId : string;
  project_id : Z;
  logical_module_id : Z;
  page_id : Z;
  wfSequence : Z;
  wfName : string;
  wfPosition : option Position;
  wfExtra : list (string * Json)
}.

(** [createPropertiesFromWorkflow]: the record without its four ids,
    with a copy of the position. *)
Definition createPropertiesFromWorkflow (workflowItem : WorkflowProcessItem)
  (position : Position) : WorkflowProperties :=
  {| sequence := Some (wfSequence workflowItem);
     name := Some (wfName workflowItem);
     propPosition := {| x := x position; y := y position |};
     extra := wfExtra workflowItem |}.

(** [generateDefaultProperties]; [now] is the timestamp the clock
    gives. *)
Definition generateDefaultProperties (now : string) (label : string)
  (position : Position) (sequence : Z) : WorkflowProperties :=
  {| sequence := Some sequence;
     name := Some label;
     propPosition := {| x := x position; y := y position |};
     extra :=
       [ ("input_property_name_id", JNumber 0);
         ("input_property_value", JString EmptyString);
         ("return_input_property_value", JNull);
         ("work_flow_action_id", JNumber 0);
         ("reject_action_id", JNull);
         ("output_property_name_id", JNumber 0);
         ("output_property_value", JString EmptyString);
         ("output_property_query_by", JNull);
         ("output_property_reject_value", JNull);
         ("output_property_reject_query_by", JNull);
         ("output_property_onwards_query_by", JNull);
         ("execute", JString EmptyString);
         ("work_flow_access_level_id", JNumber 0);
         ("createdby", JNumber 1);
         ("createddate", JString now);
         ("lastmodifiedby", JNull);
         ("lastmodifieddate", JNull) ]%string |}.

End Workflow.

(** ** The state of WorkstatusComponent

  The fields are the same in both revisions of the component. *)

Module WorkstatusState.
Import Workflow.

(** What [saveCanvasState] hands to the service. *)
Record Snapshot := {
  snapItems : list DraggableItem;
  snapArrows : list (Z * Z);
  snapNextId : Z
}.

Record State := {
  items : list DraggableItem;
  arrows : list Arrow;
  workflowData : list WorkflowProcessItem;
  draggedItem : option nat;
  offset : Position;
  isDragging : bool;
  nextId : Z;
  lastCreatedItem : option nat;
  linkedButtons : list nat;
  clickTimeout : option (Dom.MouseEvent * nat);
  sequenceCounter : Z;
  isBrowser : bool;
  selectedItem : option nat;
  propertyPanelOpen : bool;
  toolbarDragActive : bool;
  toolbarDragLabel : string;
  toolbarDragType : option ItemType;
  canvasOffset : option (R * R);
  scrollAtDragStart : option (R * R);
  saved : option Snapshot
}.

Definition initial (browser : bool) : State :=
  {| items := []; arrows := []; workflowData := [];
     draggedItem := None; offset := {| x := 0; y := 0 |};
     isDragging := false; nextId := 1; lastCreatedItem := None;
     linkedButtons := []; clickTimeout := None; sequenceCounter := 1;
     isBrowser := browser; selectedItem := None;
     propertyPanelOpen := false; toolbarDragActive := false;
     toolbarDragLabel := EmptyString; toolbarDragType := None;
     canvasOffset := None; scrollAtDragStart := None; saved := None |}.

(** Assignments to groups of fields. *)
Definition setGraph (items' : list DraggableItem) (arrows' : list Arrow)
  (st : State) : State :=
  {| items := items'; arrows := arrows';
     workflowData := workflowData st;
     draggedItem := draggedItem st; offset := offset st;
     isDragging := isDragging st; nextId := nextId st;
     lastCreatedItem := lastCreatedItem st;
     linkedButtons := linkedButtons st; clickTimeout := clickTimeout st;
     sequenceCounter := sequenceCounter st; isBrowser := isBrowser st;
     selectedItem := selectedItem st;
     propertyPanelOpen := propertyPanelOpen st;
     toolbarDragActive := toolbarDragActive st;
     toolbarDragLabel := toolbarDragLabel st;
     toolbarDragType := toolbarDragType st;
     canvasOffset := canvasOffset st;
     scrollAtDragStart := scrollAtDragStart st; saved := saved st |}.

Definition setCounters (nextId' : Z) (lastCreatedItem' : option nat)
  (sequenceCounter' : Z) (st : State) : State :=
  {| items := items st; arrows := arrows st;
     workflowData := workflowData st;
     draggedItem := draggedItem st; offset := offset st;
     isDragging := isDragging st; nextId := nextId';
     lastCreatedItem := lastCreatedItem';
     linkedButtons := linkedButtons st; clickTimeout := clickTimeout st;
     sequenceCounter := sequenceCounter'; isBrowser := isBrowser st;
     selectedItem := selectedItem st;
     propertyPanelOpen := propertyPanelOpen st;
     toolbarDragActive := toolbarDragActive st;
     toolbarDragLabel := toolbarDragLabel st;
     toolbarDragType := toolbarDragType st;
     canvasOffset := canvasOffset st;
     scrollAtDragStart := scrollAtDragStart st; saved := saved st |}.

Definition setDrag (draggedItem' : option nat) (offset' : Position)
  (isDragging' : bool) (linkedButtons' : list nat)
  (canvasOffset' scrollAtDragStart' : option (R * R)) (st : State)
  : State :=
  {| items := items st; arrows := arrows st;
     workflowData := workflowData st;
     draggedItem := draggedItem'; offset := offset';
     isDragging := isDragging'; nextId := nextId st;
     lastCreatedItem := lastCreatedItem st;
     linkedButtons := linkedButtons'; clickTimeout := clickTimeout st;
     sequenceCounter := sequenceCounter st; isBrowser := isBrowser st;
     selectedItem := selectedItem st;
     propertyPanelOpen := propertyPanelOpen st;
     toolbarDragActive := toolbarDragActive st;
     toolbarDragLabel := toolbarDragLabel st;
     toolbarDragType := toolbarDragType st;
     canvasOffset := canvasOffset';
     scrollAtDragStart := scrollAtDragStart'; saved := saved st |}.

Definition setClick (clickTimeout' : option (Dom.MouseEvent * nat))
  (selectedItem' : option nat) (propertyPanelOpen' : bool) (st : State)
  : State :=
  {| items := items st; arrows := arrows st;
     workflowData := workflowData st;
     draggedItem := draggedItem st; offset := offset st;
     isDragging := isDragging st; nextId := nextId st;
     lastCreatedItem := lastCreatedItem st;
     linkedButtons := linkedButtons st; clickTimeout := clickTimeout';
     sequenceCounter := sequenceCounter st; isBrowser := isBrowser st;
     selectedItem := selectedItem';
     propertyPanelOpen := propertyPanelOpen';
     toolbarDragActive := toolbarDragActive st;
     toolbarDragLabel := toolbarDragLabel st;
     toolbarDragType := toolbarDragType st;
     canvasOffset := canvasOffset st;
     scrollAtDragStart := scrollAtDragStart st; saved := saved st |}.

Definition setToolbar (active : bool) (label : string)
  (type : option ItemType) (st : State) : State :=
  {| items := items st; arrows := arrows st;
     workflowData := workflowData st;
     draggedItem := draggedItem st; offset := offset st;
     isDragging := isDragging st; nextId := nextId st;
     lastCreatedItem := lastCreatedItem st;
     linkedButtons := linkedButtons st; clickTimeout := clickTimeout st;
     sequenceCounter := sequenceCounter st; isBrowser := isBrowser st;
     selectedItem := selectedItem st;
     propertyPanelOpen := propertyPanelOpen st;
     toolbarDragActive := active;
     toolbarDragLabel := label;
     toolbarDragType := type;
     canvasOffset := canvasOffset st;
     scrollAtDragStart := scrollAtDragStart st; saved := saved st |}.

Definition setSaved (saved' : option Snapshot) (st : State) : State :=
  {| items := items st; arrows := arrows st;
     workflowData := workflowData st;
     draggedItem := draggedItem st; offset := offset st;
     isDragging := isDragging st; nextId := nextId st;
     lastCreatedItem := lastCreatedItem st;
     linkedButtons := linkedButtons st; clickTimeout := clickTimeout st;
     sequenceCounter := sequenceCounter st; isBrowser := isBrowser st;
     selectedItem := selectedItem st;
     propertyPanelOpen := propertyPanelOpen st;
     toolbarDragActive := toolbarDragActive st;
     toolbarDragLabel := toolbarDragLabel st;
     toolbarDragType := toolbarDragType st;
     canvasOffset := canvasOffset st;
     scrollAtDragStart := scrollAtDragStart st; saved := saved' |}.

Definition arrowIds (items : list DraggableItem) (a : Arrow)
  : list (Z * Z) :=
  match idAt items (from a), idAt items (to a) with
  | Some f, Some t => [(f, t)]
  | _, _ => []
  end.

(** [saveCanvasState] of the component. *)
Definition saveCanvasState (st : State) : State :=
  if isBrowser st then
    setSaved (Some {| snapItems := items st;
                      snapArrows := flat_map (arrowIds (items st))
                                             (arrows st);
                      snapNextId := nextId st |}) st
  else st.

(** The loop over [linkedButtons]: each button moves by the delta and
    its properties take a copy of its new position. *)
Definition moveLinked (deltaX deltaY : R) (item : DraggableItem)
  : DraggableItem :=
  let p := {| x := x (position item) + deltaX;
              y := y (position item) + deltaY |} in
  setPropertiesPosition {| x := x p; y := y p |} (setPosition p item).

Definition moveAllLinked (deltaX deltaY : R) (linked : list nat)
  (items : list DraggableItem) : list DraggableItem :=
  fold_left (fun acc b => update b (moveLinked deltaX deltaY) acc)
            linked items.

Definition isContinue (t : ItemType) : bool :=
  match t with continue => true | _ => false end.

Definition isReject (t : ItemType) : bool :=
  match t with reject => true | _ => false end.

Definition isAction2 (t : ItemType) : bool :=
  match t with action2 => true | _ => false end.

Definition optList {A} (o : option A) : list A :=
  match o with Some a => [a] | None => [] end.

(** The position of the item a reference points to. *)
Definition positionAt (st : State) (i : nat) : option Position :=
  option_map position (nth_error (items st) i).

End WorkstatusState.

(** ** WorkstatusComponent (workstatus.component.ts) *)

Module Workstatus.
Import Workflow WorkstatusState.

Section Component.
Variable numberToString : R -> string.

Definition refreshArrows (st : State) : State :=
  setGraph (items st)
           (updateAllArrows numberToString (items st) (arrows st)) st.

Definition onToolbarButtonMouseDown (label : string) (st : State)
  : State :=
  let buttonType :=
    if String.eqb label "Action 1" then action1 else action2 in
  setToolbar true label (Some buttonType) st.

(** [createNewItemFromToolbar]; the new item is the last element of
    [items]. *)
Definition createNewItemFromToolbar (now : string)
  (scrollContainer : option Dom.ScrollContainer)
  (event : Dom.MouseEvent) (label : string) (type : ItemType)
  (st : State) : State :=
  match scrollContainer with
  | None => st
  | Some sc =>
      let rect := Dom.scrollRect sc in
      let canvasX :=
        Dom.clientX event - Dom.left rect + Dom.scrollLeft sc in
      let canvasY :=
        Dom.clientY event - Dom.top rect + Dom.scrollTop sc in
      let snappedX := Js.Math_round (canvasX / 20) * 20 in
      let snappedY := Js.Math_round (canvasY / 20) * 20 in
      let position := {| x := snappedX; y := snappedY |} in
      let newProperties :=
        generateDefaultProperties now label position
                                  (sequenceCounter st) in
      let newItem :=
        {| id := nextId st; label := label; position := position;
           type := type; properties := Some newProperties;
           workflowId := None |} in
      let newRef := List.length (items st) in
      let items' := items st ++ [newItem] in
      let arrows' :=
        match lastCreatedItem st with
        | Some l => createArrow items' l newRef (arrows st)
        | None => arrows st
        end in
      saveCanvasState
        (refreshArrows
           (setCounters (nextId st + 1)%Z (Some newRef)
                        (sequenceCounter st + 1)%Z
                        (setGraph items' arrows' st)))
  end.

(** The [mouseup] listener [onToolbarButtonMouseDown] installs. *)
Definition onToolbarMouseUp (now : string)
  (scrollContainer : option Dom.ScrollContainer)
  (event : Dom.MouseEvent) (st : State) : State :=
  let st1 :=
    match toolbarDragActive st, toolbarDragType st with
    | true, Some type =>
        createNewItemFromToolbar now scrollContainer event
                                 (toolbarDragLabel st) type st
    | _, _ => st
    end in
  setToolbar false (toolbarDragLabel st1) None st1.

(** The reference [items.find] returns: the first item of the wanted
    type that an arrow links to [item]. *)
Fixpoint findLinked (all : list DraggableItem) (arrows : list Arrow)
  (item : DraggableItem) (wanted : ItemType -> bool)
  (l : list DraggableItem) (i : nat) : option nat :=
  match l with
  | [] => None
  | c :: rest =>
      if wanted (type c) && hasArrow all arrows item c
      then Some i
      else findLinked all arrows item wanted rest (S i)
  end.

(** [onMouseDown] outside the property panel: a second press while
    the timer runs opens the panel, a first press starts the timer. *)
Definition onMouseDown (event : Dom.MouseEvent) (ref : nat) (st : State)
  : State :=
  match clickTimeout st with
  | Some _ => setClick None (Some ref) true st
  | None =>
      setClick (Some (event, ref)) (selectedItem st)
               (propertyPanelOpen st) st
  end.

(** The [mouseup] listener [onMouseDown] installs: a release before the
    timer fires cancels it. *)
Definition onEarlyMouseUp (st : State) : State :=
  setClick None (selectedItem st) (propertyPanelOpen st) st.

(** The body of the timer: 200 ms after the press the drag begins. *)
Definition clickTimeoutFired
  (scrollContainer : option Dom.ScrollContainer) (st : State) : State :=
  match clickTimeout st with
  | None => st
  | Some (event, ref) =>
      match nth_error (items st) ref with
      | None => st
      | Some item =>
          let offset' :=
            {| x := Dom.clientX event - x (position item);
               y := Dom.clientY event - y (position item) |} in
          let canvasOffset' :=
            match scrollContainer with
            | Some sc =>
                match Dom.canvasRect sc with
                | Some canvasRect =>
                    Some (Dom.left canvasRect
                          - Dom.left (Dom.scrollRect sc),
                          Dom.top canvasRect
                          - Dom.top (Dom.scrollRect sc))
                | None => canvasOffset st
                end
            | None => canvasOffset st
            end in
          let scrollAtDragStart' :=
            match scrollContainer with
            | Some sc => Some (Dom.scrollLeft sc, Dom.scrollTop sc)
            | None => scrollAtDragStart st
            end in
          let linked :=
            if isAction2 (type item) then
              optList (findLinked (items st) (arrows st) item
                                  isContinue (items st) 0)
              ++ optList (findLinked (items st) (arrows st) item
                                     isReject (items st) 0)
            else [] in
          setDrag (Some ref) offset' true linked
                  canvasOffset' scrollAtDragStart'
                  (setClick None (Some ref) (propertyPanelOpen st) st)
      end
  end.

Definition onMouseMove (scrollContainer : option Dom.ScrollContainer)
  (event : Dom.MouseEvent) (st : State) : State :=
  match isDragging st, draggedItem st with
  | true, Some d =>
      match scrollContainer, nth_error (items st) d with
      | Some sc, Some dragged =>
          let '(adjustedClientX, adjustedClientY) :=
            match canvasOffset st, scrollAtDragStart st with
            | Some _, Some (startLeft, startTop) =>
                let scrollDeltaX := Dom.scrollLeft sc - startLeft in
                let scrollDeltaY := Dom.scrollTop sc - startTop in
                (Dom.clientX event + scrollDeltaX,
                 Dom.clientY event + scrollDeltaY)
            | _, _ => (Dom.clientX event, Dom.clientY event)
            end in
          let newX := adjustedClientX - x (offset st) in
          let newY := adjustedClientY - y (offset st) in
          let snappedX := Js.Math_round (newX / 20) * 20 in
          let snappedY := Js.Math_round (newY / 20) * 20 in
          let deltaX := snappedX - x (position dragged) in
          let deltaY := snappedY - y (position dragged) in
          let snapped := {| x := snappedX; y := snappedY |} in
          let items1 :=
            update d (fun item =>
                        setPropertiesPosition snapped
                          (setPosition snapped item)) (items st) in
          let items2 :=
            moveAllLinked deltaX deltaY (linkedButtons st) items1 in
          refreshArrows (setGraph items2 (arrows st) st)
      | _, _ => st
      end
  | _, _ => st
  end.

(** [onMouseUp]; the debounced write of the position it schedules is
    a timer of the service and leaves the component state alone. *)
Definition onMouseUp (st : State) : State :=
  setDrag None (offset st) false [] None None st.

End Component.

End Workstatus.

(** ** WorkstatusComponent, the revision that goes with the JSON-server
  service: items follow the pointer without snapping and a dropped
  "Action 2" brings its two children. *)

Module WorkstatusJsonServer.
Import Workflow WorkstatusState.

Section Component.
Variable numberToString : R -> string.

Definition refreshArrows (st : State) : State :=
  setGraph (items st)
           (updateAllArrows numberToString (items st) (arrows st)) st.

Definition onToolbarButtonMouseDown (label : string) (st : State)
  : State :=
  setToolbar true label
             (Some (if String.eqb label "Action 1"
                    then action1 else action2)) st.

Definition resetToolbarDrag (st : State) : State :=
  setToolbar false EmptyString None st.

(** [getDefaultProperties]: the properties and the advanced
    [sequenceCounter]. *)
Definition getDefaultProperties (now : string) (label : string)
  (position : Position) (st : State) : WorkflowProperties * State :=
  let matchingData :=
    find (fun w => Z.eqb (wfSequence w) (sequenceCounter st))
         (workflowData st) in
  let st' := setCounters (nextId st) (lastCreatedItem st)
                         (sequenceCounter st + 1)%Z st in
  match matchingData with
  | Some w => (createPropertiesFromWorkflow w position, st')
  | None =>
      (generateDefaultProperties now label position
                                 (sequenceCounter st), st')
  end.

Definition createItemAtPosition (now : string) (px py : R) (st : State)
  : State :=
  match toolbarDragType st with
  | None => st
  | Some dragType =>
      if String.eqb (toolbarDragLabel st) EmptyString then st else
      let position := {| x := px - 70; y := py - 32 |} in
      let '(props, st1) :=
        getDefaultProperties now (toolbarDragLabel st) position st in
      let newItem :=
        {| id := nextId st1; label := toolbarDragLabel st;
           position := {| x := x position; y := y position |};
           type := dragType; properties := Some props;
           workflowId := None |} in
      let newRef := List.length (items st1) in
      let items1 := items st1 ++ [newItem] in
      let arrows1 :=
        match lastCreatedItem st1 with
        | Some l => createArrow items1 l newRef (arrows st1)
        | None => arrows st1
        end in
      let st2 :=
        setCounters (nextId st1 + 1)%Z (lastCreatedItem st1)
                    (sequenceCounter st1) (setGraph items1 arrows1 st1) in
      let st3 :=
        if String.eqb (toolbarDragLabel st) "Action 2" then
          let continuePos :=
            {| x := x (position) + 240; y := y (position) - 70 |} in
          let rejectPos :=
            {| x := x (position) + 240; y := y (position) + 70 |} in
          let '(continueProps, st2a) :=
            getDefaultProperties now "Continue" continuePos st2 in
          let continueBtn :=
            {| id := nextId st2a; label := "Continue";
               position := {| x := x continuePos; y := y continuePos |};
               type := continue; properties := Some continueProps;
               workflowId := None |} in
          let rejectBtn :=
            {| id := (nextId st2a + 1)%Z; label := "Reject";
               position := {| x := x rejectPos; y := y rejectPos |};
               type := reject;
               properties :=
                 Some {| sequence := None; name := None;
                         propPosition :=
                           {| x := x rejectPos; y := y rejectPos |};
                         extra := [] |};
               workflowId := None |} in
          let continueRef := S newRef in
          let rejectRef := S (S newRef) in
          let items2 := items st2a ++ [continueBtn; rejectBtn] in
          let arrows2 :=
            createArrow items2 newRef rejectRef
              (createArrow items2 newRef continueRef (arrows st2a)) in
          setDrag (draggedItem st2a) (offset st2a) (isDragging st2a)
                  [continueRef; rejectRef]
                  (canvasOffset st2a) (scrollAtDragStart st2a)
            (setCounters (nextId st2a + 2)%Z (Some continueRef)
                         (sequenceCounter st2a)
                         (setGraph items2 arrows2 st2a))
        else
          setDrag (draggedItem st2) (offset st2) (isDragging st2) []
                  (canvasOffset st2) (scrollAtDragStart st2)
            (setCounters (nextId st2) (Some newRef)
                         (sequenceCounter st2) st2) in
      saveCanvasState (refreshArrows st3)
  end.

Definition onToolbarDragEnd (now : string)
  (scrollEl : option Dom.ScrollContainer) (event : Dom.MouseEvent)
  (st : State) : State :=
  if negb (toolbarDragActive st) then st else
  match scrollEl with
  | None => resetToolbarDrag st
  | Some sc =>
      match Dom.canvasRect sc with
      | None => resetToolbarDrag st
      | Some canvasRect =>
          let inside :=
            Js.geb (Dom.clientX event) (Dom.left canvasRect) &&
            Js.leb (Dom.clientX event) (Dom.right canvasRect) &&
            Js.geb (Dom.clientY event) (Dom.top canvasRect) &&
            Js.leb (Dom.clientY event) (Dom.bottom canvasRect) in
          let st1 :=
            if inside then
              let px := Dom.clientX event - Dom.left canvasRect
                        + Dom.scrollLeft sc in
              let py := Dom.clientY event - Dom.top canvasRect
                        + Dom.scrollTop sc in
              createItemAtPosition now px py st
            else st in
          resetToolbarDrag st1
      end
  end.

Definition isChild (t : ItemType) : bool :=
  isContinue t || isReject t.

(** The references [items.filter] keeps. *)
Fixpoint filterLinked (all : list DraggableItem) (arrows : list Arrow)
  (item : DraggableItem) (l : list DraggableItem) (i : nat) : list nat :=
  match l with
  | [] => []
  | c :: rest =>
      if isChild (type c) && hasArrow all arrows item c
      then i :: filterLinked all arrows item rest (S i)
      else filterLinked all arrows item rest (S i)
  end.

Definition startDragging (scrollEl : option Dom.ScrollContainer)
  (ref : nat) (event : Dom.MouseEvent) (st : State) : State :=
  match nth_error (items st) ref with
  | None => st
  | Some item =>
      let linked :=
        if isAction2 (type item)
        then filterLinked (items st) (arrows st) item (items st) 0
        else [] in
      let st1 :=
        setDrag (Some ref) (offset st) false linked
                (canvasOffset st) (scrollAtDragStart st) st in
      match scrollEl with
      | None => st1
      | Some sc =>
          match Dom.canvasRect sc with
          | None => st1
          | Some canvasRect =>
              let mouseXInCanvas :=
                Dom.clientX event - Dom.left canvasRect
                + Dom.scrollLeft sc in
              let mouseYInCanvas :=
                Dom.clientY event - Dom.top canvasRect
                + Dom.scrollTop sc in
              setDrag (Some ref)
                {| x := mouseXInCanvas - x (position item);
                   y := mouseYInCanvas - y (position item) |}
                false linked
                (Some (Dom.left canvasRect, Dom.top canvasRect))
                (Some (Dom.scrollLeft sc, Dom.scrollTop sc)) st
          end
      end
  end.

(** [onMouseDown]: the click timer is restarted and the drag is
    prepared at once. *)
Definition onMouseDown (scrollEl : option Dom.ScrollContainer)
  (event : Dom.MouseEvent) (ref : nat) (st : State) : State :=
  startDragging scrollEl ref event
    (setClick (Some (event, ref)) (selectedItem st)
              (propertyPanelOpen st) st).

Definition onMouseMove (scrollEl : option Dom.ScrollContainer)
  (event : Dom.MouseEvent) (st : State) : State :=
  match draggedItem st, canvasOffset st, scrollAtDragStart st with
  | Some d, Some (offLeft, offTop), Some (startLeft, startTop) =>
      let st1 :=
        if isDragging st then st
        else setClick None (selectedItem st) (propertyPanelOpen st)
               (setDrag (draggedItem st) (offset st) true
                        (linkedButtons st) (canvasOffset st)
                        (scrollAtDragStart st) st) in
      match scrollEl, nth_error (items st1) d with
      | Some sc, Some dragged =>
          let newX := Dom.clientX event - offLeft - x (offset st1)
                      + (Dom.scrollLeft sc - startLeft) in
          let newY := Dom.clientY event - offTop - y (offset st1)
                      + (Dom.scrollTop sc - startTop) in
          let deltaX := newX - x (position dragged) in
          let deltaY := newY - y (position dragged) in
          let items1 :=
            update d (fun item =>
                        setPropertiesPosition {| x := newX; y := newY |}
                          (setPosition {| x := newX; y := newY |} item))
                   (items st1) in
          let items2 :=
            moveAllLinked deltaX deltaY (linkedButtons st1) items1 in
          refreshArrows (setGraph items2 (arrows st1) st1)
      | _, _ => st1
      end
  | _, _, _ => st
  end.

Definition onMouseUp (st : State) : State :=
  setDrag None (offset st) false [] None None st.

End Component.

End WorkstatusJsonServer.

(** * Properties *)

(** ** Comparisons and rounding *)

Module JsFacts.
Import Js.

Lemma ltb_true a b : ltb a b = true <-> a < b.
Proof. unfold ltb; destruct (Rlt_dec a b); split; intros; try easy. Qed.

Lemma ltb_false a b : ltb a b = false <-> b <= a.
Proof.
  unfold ltb; destruct (Rlt_dec a b); split; intros; try easy; lra.
Qed.

Lemma leb_true a b : leb a b = true <-> a <= b.
Proof. unfold leb; destruct (Rle_dec a b); split; intros; try easy. Qed.

Lemma leb_false a b : leb a b = false <-> b < a.
Proof.
  unfold leb; destruct (Rle_dec a b); split; intros; try easy; lra.
Qed.

Lemma gtb_true a b : gtb a b = true <-> b < a.
Proof. apply ltb_true. Qed.

Lemma gtb_false a b : gtb a b = false <-> a <= b.
Proof. apply ltb_false. Qed.

Lemma geb_true a b : geb a b = true <-> b <= a.
Proof. apply leb_true. Qed.

Lemma geb_false a b : geb a b = false <-> a < b.
Proof. apply leb_false. Qed.

Lemma eqb_true a b : eqb a b = true <-> a = b.
Proof. unfold eqb; destruct (Req_dec_T a b); split; intros; try easy. Qed.

Lemma eqb_false a b : eqb a b = false <-> a <> b.
Proof. unfold eqb; destruct (Req_dec_T a b); split; intros; try easy. Qed.

(** A clamp written [max lo (min hi v)] or [max (min v hi) lo] lands
    in the interval. *)
Lemma clamp_range lo hi v :
  lo <= hi -> lo <= Math_max lo (Math_min hi v) <= hi.
Proof.
  intros Hlh; unfold Math_max, Math_min.
  split.
  - apply Rmax_l.
  - apply Rmax_lub; [exact Hlh | apply Rmin_l].
Qed.

Lemma clamp_id lo hi v :
  lo <= v <= hi -> Math_max lo (Math_min hi v) = v.
Proof.
  intros [Hl Hh]; unfold Math_max, Math_min.
  rewrite (Rmin_right hi v Hh).
  apply Rmax_right; exact Hl.
Qed.

(** [Math.round a] is an integer within one half of [a]. *)
Lemma round_is_integer a : exists k : Z, Math_round a = IZR k.
Proof. exists (Int_part (a + / 2)); reflexivity. Qed.

Lemma round_near a : a - / 2 < Math_round a <= a + / 2.
Proof.
  unfold Math_round.
  destruct (base_Int_part (a + / 2)) as [Hle Hgt].
  split; lra.
Qed.

Lemma round_of_integer (k : Z) : Math_round (IZR k) = IZR k.
Proof.
  unfold Math_round; f_equal.
  destruct (base_Int_part (IZR k + / 2)) as [Hle Hgt].
  assert (H1 : (Int_part (IZR k + / 2) < k + 1)%Z).
  { apply lt_IZR; rewrite plus_IZR; lra. }
  assert (H2 : (k - 1 < Int_part (IZR k + / 2))%Z).
  { apply lt_IZR; rewrite minus_IZR; lra. }
  lia.
Qed.

End JsFacts.

(** ** The viewport of the two generic canvases *)

Module ViewportFacts.
Import Js JsFacts.

Lemma canvawork_bounds : Canvawork.minScale <= Canvawork.maxScale.
Proof. unfold Canvawork.minScale, Canvawork.maxScale; lra. Qed.

Lemma canvaspace_bounds : Canvaspace.minScale <= Canvaspace.maxScale.
Proof. unfold Canvaspace.minScale, Canvaspace.maxScale; lra. Qed.

Definition canvaworkInRange (st : Canvawork.State) : Prop :=
  Canvawork.minScale <= Canvawork.scale st <= Canvawork.maxScale.

Definition canvaspaceInRange (st : Canvaspace.State) : Prop :=
  Canvaspace.minScale <= Canvaspace.scale st <= Canvaspace.maxScale.

(** The arithmetic of anchoring: the offset recomputed from the new
    scale sends the anchored world coordinate back to the same screen
    coordinate, and the screen coordinate back to it. *)
Lemma anchor_screen (m w s' : R) : w * s' + (m - w * s') = m.
Proof. ring. Qed.

Lemma anchor_world (m w s' : R) : s' <> 0 -> (m - (m - w * s')) / s' = w.
Proof. intros Hs; field; exact Hs. Qed.

Lemma onWheel_in_range canvas event st :
  canvaworkInRange (Canvawork.onWheel canvas event st).
Proof.
  unfold canvaworkInRange, Canvawork.onWheel; simpl.
  apply clamp_range, canvawork_bounds.
Qed.

Lemma zoomIn_in_range canvas st :
  canvaworkInRange st -> canvaworkInRange (Canvawork.zoomIn canvas st).
Proof.
  unfold canvaworkInRange, Canvawork.zoomIn, Canvawork.minScale,
    Canvawork.maxScale, Math_min; simpl.
  intros [Hl Hh]; split.
  - apply Rmin_glb; lra.
  - apply Rmin_l.
Qed.

Lemma zoomOut_in_range canvas st :
  canvaworkInRange st -> canvaworkInRange (Canvawork.zoomOut canvas st).
Proof.
  unfold canvaworkInRange, Canvawork.zoomOut, Canvawork.minScale,
    Canvawork.maxScale, Math_max; simpl.
  intros [Hl Hh]; split.
  - apply Rmax_l.
  - apply Rmax_lub; lra.
Qed.

Lemma canvawork_apply_in_range st op :
  canvaworkInRange st -> canvaworkInRange (Canvawork.apply st op).
Proof.
  intros H; destruct op; simpl.
  - apply onWheel_in_range.
  - apply zoomIn_in_range, H.
  - apply zoomOut_in_range, H.
Qed.

Lemma canvawork_run_in_range ops :
  forall st, canvaworkInRange st -> canvaworkInRange (Canvawork.run ops st).
Proof.
  unfold Canvawork.run.
  induction ops as [|op ops IH]; intros st H; simpl.
  - exact H.
  - apply IH, canvawork_apply_in_range, H.
Qed.

Lemma onMouseWheel_in_range canvas event st :
  canvaspaceInRange (Canvaspace.onMouseWheel canvas event st).
Proof.
  unfold canvaspaceInRange, Canvaspace.onMouseWheel; simpl.
  apply (clamp_range Canvaspace.minScale Canvaspace.maxScale),
    canvaspace_bounds.
Qed.

Lemma canvaspace_zoomIn_in_range st :
  canvaspaceInRange st -> canvaspaceInRange (Canvaspace.zoomIn st).
Proof.
  unfold canvaspaceInRange, Canvaspace.zoomIn, Canvaspace.minScale,
    Canvaspace.maxScale, Math_min; simpl.
  intros [Hl Hh]; split.
  - apply Rmin_glb; lra.
  - apply Rmin_l.
Qed.

Lemma canvaspace_zoomOut_in_range st :
  canvaspaceInRange st -> canvaspaceInRange (Canvaspace.zoomOut st).
Proof.
  unfold canvaspaceInRange, Canvaspace.zoomOut, Canvaspace.minScale,
    Canvaspace.maxScale, Math_max; simpl.
  intros [Hl Hh]; split.
  - apply Rmax_l.
  - apply Rmax_lub; lra.
Qed.

Lemma canvaspace_apply_in_range st op :
  canvaspaceInRange st -> canvaspaceInRange (Canvaspace.apply st op).
Proof.
  intros H; destruct op; simpl.
  - apply onMouseWheel_in_range.
  - apply canvaspace_zoomIn_in_range, H.
  - apply canvaspace_zoomOut_in_range, H.
Qed.

Lemma canvaspace_run_in_range ops :
  forall st,
    canvaspaceInRange st -> canvaspaceInRange (Canvaspace.run ops st).
Proof.
  unfold Canvaspace.run.
  induction ops as [|op ops IH]; intros st H; simpl.
  - exact H.
  - apply IH, canvaspace_apply_in_range, H.
Qed.

Lemma in_range_nonzero lo hi s : 0 < lo -> lo <= s <= hi -> s <> 0.
Proof. intros; lra. Qed.

End ViewportFacts.

(** ** Zooming: the claims *)

Section ZoomClaims.
Import ViewportFacts.

(** The screen point of a wheel event, relative to the canvas. *)
Definition wheelPoint (canvas : Dom.Canvas) (event : Dom.WheelEvent)
  : R * R :=
  (Dom.wheelClientX event - Dom.left (Dom.rect canvas),
   Dom.wheelClientY event - Dom.top (Dom.rect canvas)).

(** The centre of the canvas, in screen coordinates. *)
Definition canvasCenter (canvas : Dom.Canvas) : R * R :=
  (Dom.width canvas / 2, Dom.height canvas / 2).

(** Claim C2.  In both canvas components, for a viewport whose scale
    lies between the bounds, any offsets and any wheel event, the
    world point under the pointer is the same before and after the
    wheel step, and it is drawn at the pointer again; this includes
    the steps whose new scale is clamped, since the offsets are
    computed from the clamped scale. *)
Theorem C2_wheel_zoom_keeps_world_point :
  (forall canvas event st,
      canvaworkInRange st ->
      let P := wheelPoint canvas event in
      let st' := Canvawork.onWheel canvas event st in
      Canvawork.toWorld P st' = Canvawork.toWorld P st /\
      Canvawork.toScreen (Canvawork.toWorld P st) st' = P) /\
  (forall canvas event st,
      canvaspaceInRange st ->
      let P := wheelPoint canvas event in
      let st' := Canvaspace.onMouseWheel canvas event st in
      Canvaspace.toWorld P st' = Canvaspace.toWorld P st /\
      Canvaspace.toScreen (Canvaspace.toWorld P st) st' = P).
Proof.
  split; intros canvas event st Hin P st'.
  - assert (Hs : Canvawork.scale st' <> 0).
    { apply (in_range_nonzero Canvawork.minScale Canvawork.maxScale).
      - unfold Canvawork.minScale; lra.
      - apply onWheel_in_range. }
    subst P st'; unfold Canvawork.toWorld, Canvawork.toScreen, wheelPoint.
    revert Hs; unfold Canvawork.onWheel; cbn [Canvawork.scale
      Canvawork.offsetX Canvawork.offsetY fst snd]; intros Hs.
    split; f_equal;
      first [apply anchor_world; exact Hs | apply anchor_screen].
  - assert (Hs : Canvaspace.scale st' <> 0).
    { apply (in_range_nonzero Canvaspace.minScale Canvaspace.maxScale).
      - unfold Canvaspace.minScale; lra.
      - apply onMouseWheel_in_range. }
    subst P st'; unfold Canvaspace.toWorld, Canvaspace.toScreen, wheelPoint.
    revert Hs; unfold Canvaspace.onMouseWheel; cbn [Canvaspace.scale
      Canvaspace.offsetX Canvaspace.offsetY fst snd]; intros Hs.
    split; f_equal;
      first [apply anchor_world; exact Hs | apply anchor_screen].
Qed.

(** Claim C4.  From the initial scale 1, whatever sequence of wheel
    steps, zoom-in and zoom-out presses follows, the scale stays
    between 0.1 and 10 in CanvaworkComponent and between 0.1 and 5 in
    CanvaspaceComponent. *)
Theorem C4_scale_stays_in_range :
  (forall objs ops,
      let st := Canvawork.run ops (Canvawork.initial objs) in
      0.1 <= Canvawork.scale st <= 10) /\
  (forall objs ops,
      let st := Canvaspace.run ops (Canvaspace.initial objs) in
      0.1 <= Canvaspace.scale st <= 5).
Proof.
  split; intros objs ops st; subst st.
  - apply (canvawork_run_in_range ops).
    unfold canvaworkInRange, Canvawork.initial, Canvawork.minScale,
      Canvawork.maxScale; simpl; lra.
  - apply (canvaspace_run_in_range ops).
    unfold canvaspaceInRange, Canvaspace.initial, Canvaspace.minScale,
      Canvaspace.maxScale; simpl; lra.
Qed.

End ZoomClaims.

Section ZoomWitnesses.
Import ViewportFacts.

Definition sampleCanvas : Dom.Canvas :=
  {| Dom.rect := {| Dom.left := 10; Dom.top := 20;
                    Dom.right := 810; Dom.bottom := 620 |};
     Dom.width := 800; Dom.height := 600 |}.

Definition sampleWheel : Dom.WheelEvent :=
  {| Dom.wheelClientX := 110; Dom.wheelClientY := 70; Dom.deltaY := -100 |}.

Lemma canvawork_initial_in_range objs :
  canvaworkInRange (Canvawork.initial objs).
Proof.
  unfold canvaworkInRange, Canvawork.minScale, Canvawork.maxScale; simpl.
  lra.
Qed.

Lemma canvaspace_initial_in_range objs :
  canvaspaceInRange (Canvaspace.initial objs).
Proof.
  unfold canvaspaceInRange, Canvaspace.minScale, Canvaspace.maxScale; simpl.
  lra.
Qed.

Lemma C2_witness :
  (canvaworkInRange (Canvawork.initial []) /\
   Canvawork.toWorld (wheelPoint sampleCanvas sampleWheel)
     (Canvawork.onWheel sampleCanvas sampleWheel (Canvawork.initial []))
   = Canvawork.toWorld (wheelPoint sampleCanvas sampleWheel)
       (Canvawork.initial [])) /\
  (canvaspaceInRange (Canvaspace.initial []) /\
   Canvaspace.toWorld (wheelPoint sampleCanvas sampleWheel)
     (Canvaspace.onMouseWheel sampleCanvas sampleWheel
        (Canvaspace.initial []))
   = Canvaspace.toWorld (wheelPoint sampleCanvas sampleWheel)
       (Canvaspace.initial [])).
Proof.
  split; (split; [first [apply canvawork_initial_in_range
                        | apply canvaspace_initial_in_range] | ]).
  - apply (proj1 C2_wheel_zoom_keeps_world_point sampleCanvas sampleWheel
             (Canvawork.initial []) (canvawork_initial_in_range [])).
  - apply (proj2 C2_wheel_zoom_keeps_world_point sampleCanvas sampleWheel
             (Canvaspace.initial []) (canvaspace_initial_in_range [])).
Defined.

End ZoomWitnesses.

(** ** The zoom buttons *)

Section ZoomButtons.
Import Js JsFacts ViewportFacts.

(** The zoom-in button of CanvaspaceComponent does not keep the world
    point under the centre of an 800 by 600 canvas at the centre: from
    the initial viewport that point, (400, 300), is drawn at
    (480, 360) afterwards. *)
Lemma C5_counterexample :
  let st := Canvaspace.initial [] in
  let center := canvasCenter sampleCanvas in
  Canvaspace.toScreen (Canvaspace.toWorld center st) (Canvaspace.zoomIn st)
  <> center.
Proof.
  cbv zeta; unfold Canvaspace.toScreen, Canvaspace.toWorld, canvasCenter,
    Canvaspace.zoomIn, Canvaspace.initial, sampleCanvas, Math_min; simpl.
  rewrite Rmin_right by lra.
  intros H; injection H as H1 H2; lra.
Qed.

(** Claim C5, amended.  In CanvaworkComponent the zoom-in and zoom-out
    buttons multiply or divide the scale by 1.2, which for a scale
    inside the bounds is clamped to the bounds, and they anchor the
    zoom at the centre of the canvas.  In CanvaspaceComponent the
    buttons change the scale in the same way and leave both offsets
    as they are. *)
Theorem C5_zoom_buttons :
  (forall canvas st,
      canvaworkInRange st ->
      let c := canvasCenter canvas in
      let clamp v :=
        Math_max Canvawork.minScale (Math_min Canvawork.maxScale v) in
      let zin := Canvawork.zoomIn canvas st in
      let zout := Canvawork.zoomOut canvas st in
      Canvawork.scale zin = clamp (Canvawork.scale st * 1.2) /\
      Canvawork.scale zout = clamp (Canvawork.scale st / 1.2) /\
      Canvawork.toScreen (Canvawork.toWorld c st) zin = c /\
      Canvawork.toScreen (Canvawork.toWorld c st) zout = c /\
      Canvawork.toWorld c zin = Canvawork.toWorld c st /\
      Canvawork.toWorld c zout = Canvawork.toWorld c st) /\
  (forall st,
      canvaspaceInRange st ->
      let clamp v :=
        Math_max Canvaspace.minScale (Math_min Canvaspace.maxScale v) in
      let zin := Canvaspace.zoomIn st in
      let zout := Canvaspace.zoomOut st in
      Canvaspace.scale zin = clamp (Canvaspace.scale st * 1.2) /\
      Canvaspace.scale zout = clamp (Canvaspace.scale st / 1.2) /\
      Canvaspace.offsetX zin = Canvaspace.offsetX st /\
      Canvaspace.offsetY zin = Canvaspace.offsetY st /\
      Canvaspace.offsetX zout = Canvaspace.offsetX st /\
      Canvaspace.offsetY zout = Canvaspace.offsetY st).
Proof.
  split.
  - intros canvas st Hin c clamp zin zout.
    assert (Hzin : Canvawork.scale zin <> 0).
    { apply (in_range_nonzero Canvawork.minScale Canvawork.maxScale).
      - unfold Canvawork.minScale; lra.
      - apply zoomIn_in_range, Hin. }
    assert (Hzout : Canvawork.scale zout <> 0).
    { apply (in_range_nonzero Canvawork.minScale Canvawork.maxScale).
      - unfold Canvawork.minScale; lra.
      - apply zoomOut_in_range, Hin. }
    destruct Hin as [Hl Hh].
    unfold Canvawork.minScale, Canvawork.maxScale in Hl, Hh.
    subst c clamp zin zout.
    revert Hzin Hzout.
    unfold Canvawork.toWorld, Canvawork.toScreen, canvasCenter,
      Canvawork.zoomIn, Canvawork.zoomOut, Canvawork.minScale,
      Canvawork.maxScale, Math_max, Math_min.
    cbn [Canvawork.scale Canvawork.offsetX Canvawork.offsetY fst snd].
    intros Hzin Hzout.
    repeat split.
    + symmetry; apply Rmax_right, Rmin_glb; lra.
    + rewrite (Rmin_right 10 (Canvawork.scale st / 1.2)) by lra.
      reflexivity.
    + f_equal; apply anchor_screen.
    + f_equal; apply anchor_screen.
    + f_equal; apply anchor_world; exact Hzin.
    + f_equal; apply anchor_world; exact Hzout.
  - intros st [Hl Hh] clamp zin zout.
    unfold Canvaspace.minScale, Canvaspace.maxScale in Hl, Hh.
    subst clamp zin zout.
    unfold Canvaspace.zoomIn, Canvaspace.zoomOut, Canvaspace.minScale,
      Canvaspace.maxScale, Math_max, Math_min.
    cbn [Canvaspace.scale Canvaspace.offsetX Canvaspace.offsetY].
    repeat split.
    + symmetry; apply Rmax_right, Rmin_glb; lra.
    + rewrite (Rmin_right 5 (Canvaspace.scale st / 1.2)) by lra.
      reflexivity.
Qed.

Lemma C5_witness :
  canvaworkInRange (Canvawork.initial []) /\
  Canvawork.toScreen
    (Canvawork.toWorld (canvasCenter sampleCanvas) (Canvawork.initial []))
    (Canvawork.zoomIn sampleCanvas (Canvawork.initial []))
  = canvasCenter sampleCanvas /\
  canvaspaceInRange (Canvaspace.initial []) /\
  Canvaspace.offsetX (Canvaspace.zoomIn (Canvaspace.initial []))
  = Canvaspace.offsetX (Canvaspace.initial []).
Proof.
  split; [apply canvawork_initial_in_range | split; [ | split]].
  - apply (proj1 C5_zoom_buttons sampleCanvas (Canvawork.initial [])
             (canvawork_initial_in_range [])).
  - apply canvaspace_initial_in_range.
  - apply (proj2 C5_zoom_buttons (Canvaspace.initial [])
             (canvaspace_initial_in_range [])).
Defined.

End ZoomButtons.

(** ** Hit testing *)

Module HitTestFacts.
Import Js JsFacts.

(** What the backwards loop returns: the greatest index whose element
    passes the test, or nothing when no element passes. *)
Definition topmost {A : Type} (test : A -> bool) (l : list A)
  (r : option nat) : Prop :=
  match r with
  | Some i =>
      (exists a, nth_error l i = Some a /\ test a = true) /\
      (forall j a, (i < j)%nat -> nth_error l j = Some a -> test a = false)
  | None => forall a, In a l -> test a = false
  end.

Lemma scanDown_some {A} (test : A -> bool) l n i :
  scanDown test l n = Some i ->
  (i < n)%nat /\
  (exists a, nth_error l i = Some a /\ test a = true) /\
  (forall j a, (i < j < n)%nat -> nth_error l j = Some a -> test a = false).
Proof.
  induction n as [|n IH]; simpl; [discriminate|].
  destruct (nth_error l n) as [a|] eqn:Hn.
  - destruct (test a) eqn:Ht.
    + intros [= <-]; split; [lia|]; split; [eauto|].
      intros j b Hj; lia.
    + intros H; destruct (IH H) as (Hi & Hex & Hall).
      split; [lia|]; split; [exact Hex|].
      intros j b Hj Hb.
      destruct (Nat.eq_dec j n) as [->|Hne].
      * congruence.
      * apply (Hall j b); [lia | exact Hb].
  - intros H; destruct (IH H) as (Hi & Hex & Hall).
    split; [lia|]; split; [exact Hex|].
    intros j b Hj Hb.
    destruct (Nat.eq_dec j n) as [->|Hne].
    + congruence.
    + apply (Hall j b); [lia | exact Hb].
Qed.

Lemma scanDown_none {A} (test : A -> bool) l n :
  scanDown test l n = None ->
  forall j a, (j < n)%nat -> nth_error l j = Some a -> test a = false.
Proof.
  induction n as [|n IH]; simpl; intros H j a Hj Ha; [lia|].
  destruct (nth_error l n) as [b|] eqn:Hn.
  - destruct (test b) eqn:Ht; [discriminate|].
    destruct (Nat.eq_dec j n) as [->|Hne]; [congruence|].
    apply (IH H j a); [lia | exact Ha].
  - destruct (Nat.eq_dec j n) as [->|Hne]; [congruence|].
    apply (IH H j a); [lia | exact Ha].
Qed.

Lemma scanDown_topmost {A} (test : A -> bool) l :
  topmost test l (scanDown test l (List.length l)).
Proof.
  destruct (scanDown test l (List.length l)) as [i|] eqn:H; simpl.
  - destruct (scanDown_some _ _ _ _ H) as (Hi & Hex & Hall).
    split; [exact Hex|].
    intros j a Hj Ha; apply (Hall j a); [|exact Ha].
    split; [exact Hj|].
    apply nth_error_Some; congruence.
  - intros a Hin.
    destruct (In_nth_error _ _ Hin) as [j Hj].
    apply (scanDown_none _ _ _ H j a); [|exact Hj].
    apply nth_error_Some; congruence.
Qed.

(** [topmost] determines the result. *)
Lemma topmost_unique {A} (test : A -> bool) l r1 r2 :
  topmost test l r1 -> topmost test l r2 -> r1 = r2.
Proof.
  destruct r1 as [i|], r2 as [j|]; simpl.
  - intros [(a & Ha & Hta) Hi] [(b & Hb & Htb) Hj].
    destruct (Nat.lt_total i j) as [Hlt|[->|Hlt]]; [|reflexivity|].
    + specialize (Hi j b Hlt Hb); congruence.
    + specialize (Hj i a Hlt Ha); congruence.
  - intros [(a & Ha & Hta) _] Hnone.
    apply nth_error_In in Ha; specialize (Hnone a Ha); congruence.
  - intros Hnone [(a & Ha & Hta) _].
    apply nth_error_In in Ha; specialize (Hnone a Ha); congruence.
  - reflexivity.
Qed.

(** The object added last is tested first. *)
Lemma scanDown_snoc {A} (test : A -> bool) l a :
  scanDown test (l ++ [a]) (List.length (l ++ [a])) =
  if test a then Some (List.length l)
  else scanDown test l (List.length l).
Proof.
  apply (topmost_unique test (l ++ [a])); [apply scanDown_topmost|].
  destruct (test a) eqn:Ht; simpl.
  - split.
    + exists a; split; [|exact Ht].
      rewrite nth_error_app2, Nat.sub_diag by lia; reflexivity.
    + intros j b Hj Hb.
      assert (Hlen : (j < List.length (l ++ [a]))%nat)
        by (apply nth_error_Some; congruence).
      rewrite length_app in Hlen; simpl in Hlen; lia.
  - pose proof (scanDown_topmost test l) as Htop.
    destruct (scanDown test l (List.length l)) as [i|]; simpl in *.
    + destruct Htop as [(b & Hb & Htb) Hall]; split.
      * exists b; split; [|exact Htb].
        rewrite nth_error_app1; [exact Hb|].
        apply nth_error_Some; congruence.
      * intros j c Hj Hc.
        destruct (Nat.lt_ge_cases j (List.length l)) as [Hlt|Hge].
        -- rewrite nth_error_app1 in Hc by exact Hlt.
           apply (Hall j c Hj Hc).
        -- rewrite nth_error_app2 in Hc by exact Hge.
           destruct (j - List.length l)%nat as [|k]; simpl in Hc.
           ++ congruence.
           ++ destruct k; discriminate.
    + intros b Hin; apply in_app_or in Hin as [Hin|[<-|[]]].
      * apply Htop, Hin.
      * exact Ht.
Qed.

End HitTestFacts.

Section HitTestClaims.
Import Js JsFacts HitTestFacts.

(** The containment predicates in words, for comparison with the two
    [contains] functions.  A size that is absent makes a rectangle and
    a circle of CanvaworkComponent unhittable; a triangle counts an
    absent or zero width or height as 100. *)
Definition inBox (px py x0 y0 w h : R) : Prop :=
  x0 <= px <= x0 + w /\ y0 <= py <= y0 + h.

Definition euclid (px py cx cy : R) : R :=
  sqrt ((px - cx) * (px - cx) + (py - cy) * (py - cy)).

Definition canvaworkShape (px py : R) (obj : Canvawork.CanvasObject)
  : Prop :=
  match Canvawork.type obj with
  | Canvawork.rectangle =>
      exists w h,
        Canvawork.width obj = Some w /\ Canvawork.height obj = Some h /\
        inBox px py (Canvawork.x obj) (Canvawork.y obj) w h
  | Canvawork.circle =>
      exists r,
        Canvawork.radius obj = Some r /\
        euclid px py (Canvawork.x obj) (Canvawork.y obj) <= r
  | Canvawork.triangle =>
      let w := Canvawork.or_100 (Canvawork.width obj) in
      let h := Canvawork.or_100 (Canvawork.height obj) in
      inBox px py (Canvawork.x obj - w / 2) (Canvawork.y obj) w h
  end.

Definition canvaspaceShape (px py : R) (obj : Canvaspace.CanvasObject)
  : Prop :=
  match Canvaspace.type obj with
  | Canvaspace.rectangle | Canvaspace.text =>
      inBox px py (Canvaspace.x obj) (Canvaspace.y obj)
            (Canvaspace.width obj) (Canvaspace.height obj)
  | Canvaspace.circle =>
      euclid px py (Canvaspace.x obj + Canvaspace.width obj / 2)
                   (Canvaspace.y obj + Canvaspace.height obj / 2)
      <= Canvaspace.width obj / 2
  end.

Lemma or_100_present w : w <> 0 -> Canvawork.or_100 (Some w) = w.
Proof.
  intros Hw; unfold Canvawork.or_100, or_default.
  destruct (Req_dec_T w 0); [contradiction | reflexivity].
Qed.

Lemma andb4_true a b c d :
  a && b && c && d = true <-> (a = true /\ b = true) /\ c = true /\ d = true.
Proof. rewrite !andb_true_iff; tauto. Qed.

Lemma canvawork_contains_spec px py obj :
  Canvawork.contains px py obj = true <-> canvaworkShape px py obj.
Proof.
  unfold Canvawork.contains, canvaworkShape, inBox, euclid, Math_sqrt.
  destruct (Canvawork.type obj).
  - rewrite andb4_true, !geb_true.
    unfold Canvawork.leb_plus_undef.
    destruct (Canvawork.width obj) as [w|], (Canvawork.height obj) as [h|];
      try rewrite !leb_true; split.
    + intros [[H1 H2] [H3 H4]]; exists w, h; tauto.
    + intros (w' & h' & [= <-] & [= <-] & H); tauto.
    + intros [_ [_ H]]; discriminate.
    + intros (w' & h' & _ & H & _); discriminate.
    + intros [[_ H] _]; discriminate.
    + intros (w' & h' & H & _); discriminate.
    + intros [[_ H] _]; discriminate.
    + intros (w' & h' & H & _); discriminate.
  - destruct (Canvawork.radius obj) as [r|]; split.
    + rewrite leb_true; intros H; exists r; tauto.
    + intros (r' & [= <-] & H); apply leb_true, H.
    + discriminate.
    + intros (r' & H & _); discriminate.
  - cbv zeta; rewrite andb4_true, !geb_true, !leb_true.
    split; intros H; repeat split; try tauto; try lra.
Qed.

Lemma canvaspace_contains_spec px py obj :
  Canvaspace.contains px py obj = true <-> canvaspaceShape px py obj.
Proof.
  unfold Canvaspace.contains, canvaspaceShape, inBox, euclid, Math_sqrt.
  destruct (Canvaspace.type obj).
  - rewrite andb4_true, !geb_true, !leb_true; tauto.
  - cbv zeta; rewrite leb_true.
    replace ((px - (Canvaspace.x obj + Canvaspace.width obj / 2)) ^ 2
             + (py - (Canvaspace.y obj + Canvaspace.height obj / 2)) ^ 2)
      with ((px - (Canvaspace.x obj + Canvaspace.width obj / 2))
            * (px - (Canvaspace.x obj + Canvaspace.width obj / 2))
            + (py - (Canvaspace.y obj + Canvaspace.height obj / 2))
              * (py - (Canvaspace.y obj + Canvaspace.height obj / 2)))
      by ring.
    tauto.
  - rewrite andb4_true, !geb_true, !leb_true; tauto.
Qed.

(** The circle the component starts with, 80 wide at (300, 150). *)
Definition sampleCircle : Canvaspace.CanvasObject :=
  {| Canvaspace.id := "2"; Canvaspace.x := 300; Canvaspace.y := 150;
     Canvaspace.width := 80; Canvaspace.height := 80;
     Canvaspace.type := Canvaspace.circle;
     Canvaspace.color := "#e74c3c"; Canvaspace.label := None |}.

(** In CanvaspaceComponent the anchor (300, 150) of that circle is at
    distance 0 from (x, y), which is within the radius 40, and yet the
    hit test finds nothing there: the circle is centred at (340, 190). *)
Lemma C6_counterexample :
  euclid 300 150 (Canvaspace.x sampleCircle) (Canvaspace.y sampleCircle)
  <= Canvaspace.width sampleCircle / 2 /\
  Canvaspace.getObjectAtPosition 300 150 (Canvaspace.initial [sampleCircle])
  = None.
Proof.
  split.
  - unfold euclid; simpl.
    replace ((300 - 300) * (300 - 300) + (150 - 150) * (150 - 150)) with 0
      by ring.
    rewrite sqrt_0; lra.
  - unfold Canvaspace.getObjectAtPosition; simpl.
    unfold Canvaspace.contains; simpl.
    replace (Js.leb _ _) with false; [reflexivity|].
    symmetry; apply leb_false; unfold Math_sqrt.
    apply Rle_lt_trans with (sqrt (40 * 40)).
    + rewrite sqrt_square by lra; lra.
    + apply sqrt_lt_1_alt; lra.
Qed.

(** Claim C6, amended.  In both canvas components [getObjectAtPosition]
    walks the objects from the last added to the first and returns the
    first one that contains the point, so the greatest index among the
    objects containing it, and nothing when none does; of two objects
    that contain the point the one added later is returned.  A rectangle
    and a text contain the points of [x, x+width] x [y, y+height].  A
    triangle contains those of [x-width/2, x+width/2] x [y, y+height],
    an absent or zero width or height counting as 100.  In
    CanvaworkComponent a circle contains the points at distance at most
    [radius] from (x, y); in CanvaspaceComponent it contains those at
    distance at most [width/2] from (x + width/2, y + height/2). *)
Theorem C6_hit_test :
  (forall px py st,
      topmost (Canvawork.contains px py) (Canvawork.objects st)
              (Canvawork.getObjectAtPosition px py st)) /\
  (forall px py obj,
      Canvawork.contains px py obj = true <-> canvaworkShape px py obj) /\
  (forall px py st,
      topmost (Canvaspace.contains px py) (Canvaspace.objects st)
              (Canvaspace.getObjectAtPosition px py st)) /\
  (forall px py obj,
      Canvaspace.contains px py obj = true <-> canvaspaceShape px py obj) /\
  (forall px py st r1 r2,
      canvaworkShape px py r1 -> canvaworkShape px py r2 ->
      Canvawork.getObjectAtPosition px py
        (Canvawork.addObject r2 (Canvawork.addObject r1 st))
      = Some (S (List.length (Canvawork.objects st)))) /\
  (forall px py st r1 r2,
      canvaspaceShape px py r1 -> canvaspaceShape px py r2 ->
      Canvaspace.getObjectAtPosition px py
        (Canvaspace.addObject r2 (Canvaspace.addObject r1 st))
      = Some (S (List.length (Canvaspace.objects st)))).
Proof.
  split; [|split; [|split; [|split; [|split]]]].
  - intros px py st; apply scanDown_topmost.
  - apply canvawork_contains_spec.
  - intros px py st; apply scanDown_topmost.
  - apply canvaspace_contains_spec.
  - intros px py st r1 r2 _ H2.
    apply canvawork_contains_spec in H2.
    unfold Canvawork.getObjectAtPosition, Canvawork.addObject;
      cbn [Canvawork.objects].
    rewrite scanDown_snoc, H2, length_app; simpl.
    f_equal; lia.
  - intros px py st r1 r2 _ H2.
    apply canvaspace_contains_spec in H2.
    unfold Canvaspace.getObjectAtPosition, Canvaspace.addObject;
      cbn [Canvaspace.objects].
    rewrite scanDown_snoc, H2, length_app; simpl.
    f_equal; lia.
Qed.

Definition lowerRectangle : Canvawork.CanvasObject :=
  {| Canvawork.id := 1; Canvawork.type := Canvawork.rectangle;
     Canvawork.x := 100; Canvawork.y := 100;
     Canvawork.width := Some 100; Canvawork.height := Some 100;
     Canvawork.radius := None; Canvawork.color := "#4CAF50" |}.

Definition upperRectangle : Canvawork.CanvasObject :=
  {| Canvawork.id := 2; Canvawork.type := Canvawork.rectangle;
     Canvawork.x := 150; Canvawork.y := 150;
     Canvawork.width := Some 100; Canvawork.height := Some 100;
     Canvawork.radius := None; Canvawork.color := "#2196F3" |}.

Lemma lowerRectangle_contains : canvaworkShape 180 180 lowerRectangle.
Proof.
  exists 100, 100; unfold inBox; simpl; repeat split; try reflexivity; lra.
Qed.

Lemma upperRectangle_contains : canvaworkShape 180 180 upperRectangle.
Proof.
  exists 100, 100; unfold inBox; simpl; repeat split; try reflexivity; lra.
Qed.

Lemma C6_witness :
  canvaworkShape 180 180 lowerRectangle /\
  canvaworkShape 180 180 upperRectangle /\
  Canvawork.getObjectAtPosition 180 180
    (Canvawork.addObject upperRectangle
       (Canvawork.addObject lowerRectangle (Canvawork.initial [])))
  = Some 1%nat.
Proof.
  split; [apply lowerRectangle_contains|].
  split; [apply upperRectangle_contains|].
  destruct C6_hit_test as (_ & _ & _ & _ & Hlater & _).
  apply (Hlater 180 180 (Canvawork.initial []) lowerRectangle
           upperRectangle lowerRectangle_contains upperRectangle_contains).
Defined.

End HitTestClaims.

(** ** Arrow routing *)

Module RoutingFacts.
Import Js JsFacts Workflow.

(** The five shapes [calculateArrowPath] can give to an arrow. *)
Definition rightToLeft (from to : DraggableItem) : Endpoints :=
  {| startX := x (position from) + boxW;
     startY := y (position from) + boxH / 2;
     startDirection := Right;
     endX := x (position to) - arrowOffset;
     endY := y (position to) + boxH / 2;
     endDirection := Left |}.

Definition bottomToTop (from to : DraggableItem) : Endpoints :=
  {| startX := x (position from) + boxW / 2;
     startY := y (position from) + boxH;
     startDirection := Down;
     endX := x (position to) + boxW / 2;
     endY := y (position to) - arrowOffset;
     endDirection := Up |}.

Definition topToBottom (from to : DraggableItem) : Endpoints :=
  {| startX := x (position from) + boxW / 2;
     startY := y (position from);
     startDirection := Up;
     endX := x (position to) + boxW / 2;
     endY := y (position to) + boxH + arrowOffset;
     endDirection := Down |}.

Definition bottomToRight (from to : DraggableItem) : Endpoints :=
  {| startX := x (position from) + boxW / 2;
     startY := y (position from) + boxH;
     startDirection := Down;
     endX := x (position to) + boxW + arrowOffset;
     endY := y (position to) + boxH / 2;
     endDirection := Right |}.

Definition topToRight (from to : DraggableItem) : Endpoints :=
  {| startX := x (position from) + boxW / 2;
     startY := y (position from);
     startDirection := Up;
     endX := x (position to) + boxW + arrowOffset;
     endY := y (position to) + boxH / 2;
     endDirection := Right |}.

(** The centre-to-centre delta. *)
Definition dxOf (from to : DraggableItem) : R := fst (centerDelta from to).
Definition dyOf (from to : DraggableItem) : R := snd (centerDelta from to).

(** The conditions of the branches, in the order they are tried. *)
Definition rightward (dx dy : R) : Prop := dx > 0 /\ Rabs dx > 0.5 * Rabs dy.
Definition downward (dx dy : R) : Prop := dy > 0 /\ Rabs dy > 0.3 * Rabs dx.
Definition upward (dx dy : R) : Prop := dy < 0 /\ Rabs dy > 0.3 * Rabs dx.

Lemma delta_x from to : dxOf from to = x (position to) - x (position from).
Proof. unfold dxOf, centerDelta; simpl; lra. Qed.

Lemma delta_y from to : dyOf from to = y (position to) - y (position from).
Proof. unfold dyOf, centerDelta; simpl; lra. Qed.

(** Splitting on every comparison of the goal. *)
Ltac split_comparisons :=
  repeat match goal with
    | |- context [Js.gtb ?a ?b] =>
        let E := fresh "E" in
        destruct (Js.gtb a b) eqn:E;
        [apply gtb_true in E | apply gtb_false in E]
    | |- context [Js.ltb ?a ?b] =>
        let E := fresh "E" in
        destruct (Js.ltb a b) eqn:E;
        [apply ltb_true in E | apply ltb_false in E]
    end.

Ltac absurd_order :=
  exfalso; unfold Math_abs, Rabs in *;
  repeat match goal with
    | H : context [Rcase_abs ?a] |- _ => destruct (Rcase_abs a)
    end; lra.

Ltac branch :=
  unfold rightward, downward, upward, dxOf, dyOf, centerDelta,
    arrowEndpoints, boxW, boxH, arrowOffset in *;
  cbn [fst snd] in *;
  split_comparisons; cbn [andb orb];
  first [ unfold rightToLeft, bottomToTop, topToBottom, bottomToRight,
            topToRight, boxW, boxH, arrowOffset;
          f_equal; lra
        | absurd_order ].

Lemma route_rightward from to :
  rightward (dxOf from to) (dyOf from to) ->
  arrowEndpoints from to = rightToLeft from to.
Proof. intros [H1 H2]; branch. Qed.

Lemma route_downward from to :
  ~ rightward (dxOf from to) (dyOf from to) ->
  downward (dxOf from to) (dyOf from to) ->
  arrowEndpoints from to = bottomToTop from to.
Proof.
  intros Hn [H1 H2].
  assert (Hn' : dxOf from to <= 0 \/
                Rabs (dxOf from to) <= 0.5 * Rabs (dyOf from to))
    by (unfold rightward in Hn; lra).
  clear Hn; destruct Hn'; branch.
Qed.

Lemma route_upward from to :
  ~ rightward (dxOf from to) (dyOf from to) ->
  upward (dxOf from to) (dyOf from to) ->
  arrowEndpoints from to = topToBottom from to.
Proof.
  intros Hn [H1 H2].
  assert (Hn' : dxOf from to <= 0 \/
                Rabs (dxOf from to) <= 0.5 * Rabs (dyOf from to))
    by (unfold rightward in Hn; lra).
  clear Hn; destruct Hn'; branch.
Qed.

Lemma route_leftward_below from to :
  dxOf from to < 0 ->
  Rabs (dyOf from to) <= 0.3 * Rabs (dxOf from to) ->
  Rabs (dyOf from to) > 30 \/ y (position to) > y (position from) ->
  arrowEndpoints from to = bottomToRight from to.
Proof. intros H1 H2 [H3|H3]; branch. Qed.

Lemma route_leftward_above from to :
  dxOf from to < 0 ->
  Rabs (dyOf from to) <= 0.3 * Rabs (dxOf from to) ->
  Rabs (dyOf from to) <= 30 ->
  y (position to) <= y (position from) ->
  arrowEndpoints from to = topToRight from to.
Proof. intros H1 H2 H3 H4; branch. Qed.

Lemma route_fallback from to :
  0 <= dxOf from to ->
  ~ downward (dxOf from to) (dyOf from to) ->
  ~ upward (dxOf from to) (dyOf from to) ->
  arrowEndpoints from to = rightToLeft from to.
Proof.
  intros H1 Hd Hu.
  assert (Hd' : dyOf from to <= 0 \/
                Rabs (dyOf from to) <= 0.3 * Rabs (dxOf from to))
    by (unfold downward in Hd; lra).
  assert (Hu' : 0 <= dyOf from to \/
                Rabs (dyOf from to) <= 0.3 * Rabs (dxOf from to))
    by (unfold upward in Hu; lra).
  clear Hd Hu; destruct Hd', Hu'; branch.
Qed.

End RoutingFacts.

Section RoutingClaims.
Import Js JsFacts Workflow RoutingFacts.

(** A node at a given position. *)
Definition nodeAt (i : Z) (px py : R) : DraggableItem :=
  {| id := i; label := "Action 1";
     position := {| x := px; y := py |};
     type := action1; properties := None; workflowId := None |}.

(** With the source at (0, 0) and the target at (-300, 300) the target
    lies to the left, and the path ends at x = -230, on the top side of
    the target, not at x = -300 + 140 + 3 = -157 on its right. *)
Lemma C1_counterexample :
  dxOf (nodeAt 1 0 0) (nodeAt 2 (-300) 300) < 0 /\
  curveX (arrowBezier (nodeAt 1 0 0) (nodeAt 2 (-300) 300))
  <> x (position (nodeAt 2 (-300) 300)) + boxW + arrowOffset.
Proof.
  assert (Hdx : dxOf (nodeAt 1 0 0) (nodeAt 2 (-300) 300) = -300)
    by (rewrite delta_x; simpl; lra).
  assert (Hdy : dyOf (nodeAt 1 0 0) (nodeAt 2 (-300) 300) = 300)
    by (rewrite delta_y; simpl; lra).
  split; [lra|].
  unfold arrowBezier, smoothBezier.
  rewrite route_downward.
  - cbn [startX startY startDirection endX endY endDirection bottomToTop].
    destruct (controlPoint _ _ Down _), (controlPoint _ _ Up _).
    unfold boxW, arrowOffset; simpl; lra.
  - rewrite Hdx, Hdy; unfold rightward; lra.
  - rewrite Hdx, Hdy; unfold downward.
    rewrite Rabs_pos_eq, Rabs_left by lra; lra.
Qed.

(** Where the emitted path starts and ends. *)
Lemma bezier_endpoints from to :
  let b := arrowBezier from to in
  let e := arrowEndpoints from to in
  moveX b = startX e /\ moveY b = startY e /\
  curveX b = endX e /\ curveY b = endY e.
Proof.
  cbv zeta; unfold arrowBezier, smoothBezier.
  destruct (controlPoint _ _ (startDirection _) _),
           (controlPoint _ _ (endDirection _) _).
  simpl; auto.
Qed.

(** Claim C1, amended.  The path starts and ends at the two points the
    side selection gives, and the branches are tried in a fixed order,
    the first that matches deciding:
    - target to the right ([dx > 0]) with [|dx| > 0.5 |dy|]: from the
      right-centre of the source to the left side of the target;
    - otherwise, target below with [|dy| > 0.3 |dx|] (in particular
      [dx = 0] and [dy > 0]): from the bottom-centre of the source to
      the top side of the target;
    - otherwise, target above with [|dy| > 0.3 |dx|]: from the
      top-centre of the source to the bottom side of the target;
    - otherwise, target to the left ([dx < 0]): from the bottom-centre
      or the top-centre of the source to the right side of the target,
      at x = target.x + boxW + arrowOffset;
    - otherwise: as in the first case.
    So for a target to the left the path never ends on its left side:
    it ends on its top, its bottom or its right side. *)
Theorem C1_side_selection :
  forall from to,
    let dx := dxOf from to in
    let dy := dyOf from to in
    let e := arrowEndpoints from to in
    let b := arrowBezier from to in
    (moveX b = startX e /\ moveY b = startY e /\
     curveX b = endX e /\ curveY b = endY e) /\
    (rightward dx dy -> e = rightToLeft from to) /\
    (dx = 0 -> dy > 0 -> e = bottomToTop from to) /\
    (~ rightward dx dy -> downward dx dy -> e = bottomToTop from to) /\
    (~ rightward dx dy -> upward dx dy -> e = topToBottom from to) /\
    (dx < 0 -> Rabs dy <= 0.3 * Rabs dx ->
     Rabs dy > 30 \/ y (position to) > y (position from) ->
     e = bottomToRight from to) /\
    (dx < 0 -> Rabs dy <= 0.3 * Rabs dx ->
     Rabs dy <= 30 -> y (position to) <= y (position from) ->
     e = topToRight from to) /\
    (0 <= dx -> ~ rightward dx dy -> ~ downward dx dy -> ~ upward dx dy ->
     e = rightToLeft from to) /\
    (dx < 0 ->
     endDirection e <> Left /\
     curveX b <> x (position to) - arrowOffset /\
     (curveX b = x (position to) + boxW / 2 \/
      curveX b = x (position to) + boxW + arrowOffset)).
Proof.
  intros from to dx dy e b.
  pose proof (bezier_endpoints from to) as Hb.
  subst dx dy e b; cbv zeta in Hb.
  set (dx := dxOf from to) in *; set (dy := dyOf from to) in *.
  set (e := arrowEndpoints from to) in *.
  pose proof (route_upward from to) as Rup.
  pose proof (route_downward from to) as Rdown.
  pose proof (route_leftward_below from to) as Rbelow.
  pose proof (route_leftward_above from to) as Rabove.
  fold dx dy e in Rup, Rdown, Rbelow, Rabove.
  split; [exact Hb|].
  split; [apply route_rightward|].
  split.
  { intros H0 Hpos; apply Rdown.
    - unfold rightward; lra.
    - unfold downward; split; [exact Hpos|].
      rewrite H0, Rabs_R0, Rabs_pos_eq by lra; lra. }
  split; [apply route_downward|].
  split; [apply route_upward|].
  split; [apply route_leftward_below|].
  split; [apply route_leftward_above|].
  split; [intros H _; apply route_fallback; exact H|].
  intros Hneg.
  destruct Hb as (_ & _ & Hcx & _); rewrite Hcx.
  clearbody dx dy e.
  assert (Hnr : ~ rightward dx dy) by (unfold rightward; lra).
  destruct (Rlt_dec (0.3 * Rabs dx) (Rabs dy)) as [Hsteep|Hflat].
  - destruct (Rtotal_order dy 0) as [Hup|[Hzero|Hdown]].
    + assert (He : e = topToBottom from to)
        by (apply Rup; [exact Hnr | split; lra]).
      rewrite He; simpl; unfold boxW, arrowOffset.
      split; [discriminate | split; [intros Hq; lra|]].
      first [left; lra | right; lra].
    + exfalso; rewrite Hzero, Rabs_R0 in Hsteep.
      pose proof (Rabs_pos dx); lra.
    + assert (He : e = bottomToTop from to)
        by (apply Rdown; [exact Hnr | split; lra]).
      rewrite He; simpl; unfold boxW, arrowOffset.
      split; [discriminate | split; [intros Hq; lra|]].
      first [left; lra | right; lra].
  - assert (Hflat' : Rabs dy <= 0.3 * Rabs dx) by lra.
    destruct (Rlt_dec 30 (Rabs dy)) as [Hfar|Hnear].
    + assert (He : e = bottomToRight from to)
        by (apply Rbelow; auto).
      rewrite He; simpl; unfold boxW, arrowOffset.
      split; [discriminate | split; [intros Hq; lra|]].
      first [left; lra | right; lra].
    + destruct (Rlt_dec (y (position from)) (y (position to))) as [Hlow|Hhigh].
      * assert (He : e = bottomToRight from to)
          by (apply Rbelow; auto).
        rewrite He; simpl; unfold boxW, arrowOffset.
        split; [discriminate | split; [intros Hq; lra|]].
        first [left; lra | right; lra].
      * assert (He : e = topToRight from to)
          by (apply Rabove; auto; lra).
        rewrite He; simpl; unfold boxW, arrowOffset.
        split; [discriminate | split; [intros Hq; lra|]].
        first [left; lra | right; lra].
Qed.

Lemma C1_witness :
  (rightward (dxOf (nodeAt 1 0 0) (nodeAt 2 300 0))
             (dyOf (nodeAt 1 0 0) (nodeAt 2 300 0)) /\
   arrowEndpoints (nodeAt 1 0 0) (nodeAt 2 300 0)
   = rightToLeft (nodeAt 1 0 0) (nodeAt 2 300 0)) /\
  (dxOf (nodeAt 1 0 0) (nodeAt 2 0 300) = 0 /\
   dyOf (nodeAt 1 0 0) (nodeAt 2 0 300) > 0 /\
   arrowEndpoints (nodeAt 1 0 0) (nodeAt 2 0 300)
   = bottomToTop (nodeAt 1 0 0) (nodeAt 2 0 300)) /\
  (dxOf (nodeAt 1 0 0) (nodeAt 2 (-300) 0) < 0 /\
   endDirection (arrowEndpoints (nodeAt 1 0 0) (nodeAt 2 (-300) 0)) <> Left).
Proof.
  assert (H1 : rightward (dxOf (nodeAt 1 0 0) (nodeAt 2 300 0))
                         (dyOf (nodeAt 1 0 0) (nodeAt 2 300 0))).
  { rewrite delta_x, delta_y; unfold rightward; simpl.
    replace (0 - 0) with 0 by ring.
    rewrite Rabs_R0, Rabs_pos_eq by lra; lra. }
  assert (H2 : dxOf (nodeAt 1 0 0) (nodeAt 2 0 300) = 0)
    by (rewrite delta_x; simpl; lra).
  assert (H3 : dyOf (nodeAt 1 0 0) (nodeAt 2 0 300) > 0)
    by (rewrite delta_y; simpl; lra).
  assert (H4 : dxOf (nodeAt 1 0 0) (nodeAt 2 (-300) 0) < 0)
    by (rewrite delta_x; simpl; lra).
  split; [split; [exact H1|]|split; [split; [exact H2|split; [exact H3|]]|]].
  - destruct (C1_side_selection (nodeAt 1 0 0) (nodeAt 2 300 0))
      as (_ & Hright & _).
    exact (Hright H1).
  - destruct (C1_side_selection (nodeAt 1 0 0) (nodeAt 2 0 300))
      as (_ & _ & Hbelow & _).
    exact (Hbelow H2 H3).
  - split; [exact H4|].
    destruct (C1_side_selection (nodeAt 1 0 0) (nodeAt 2 (-300) 0))
      as (_ & _ & _ & _ & _ & _ & _ & _ & Hleft).
    exact (proj1 (Hleft H4)).
Defined.


(** [clamp v lo hi], case by case. *)
Definition clamp (v lo hi : R) : R :=
  if Rlt_dec v lo then lo else if Rlt_dec hi v then hi else v.

Lemma actualControlDistance_clamp distance :
  actualControlDistance distance = clamp (distance * 0.4) 40 150.
Proof.
  unfold actualControlDistance, clamp, Math_max, Math_min.
  destruct (Rlt_dec (distance * 0.4) 40) as [Hlow|Hlow].
  - rewrite Rmin_left, Rmax_right by lra; reflexivity.
  - destruct (Rlt_dec 150 (distance * 0.4)) as [Hhigh|Hhigh].
    + rewrite Rmin_right, Rmax_left by lra; reflexivity.
    + rewrite Rmin_left, Rmax_left by lra; reflexivity.
Qed.



(** The arrow between two nodes of the same row, 300 apart: the eight
    numbers of [M140,32 C260,32 177,32 297,32]. *)
Example same_row_path :
  arrowBezier (nodeAt 1 0 0) (nodeAt 2 300 0)
  = {| moveX := 140; moveY := 32; cp1X := 260; cp1Y := 32;
       cp2X := 177; cp2Y := 32; curveX := 297; curveY := 32 |}.
Proof.
  assert (Hdist : centerDistance (nodeAt 1 0 0) (nodeAt 2 300 0) = 300).
  { unfold centerDistance, centerDelta, Math_sqrt, boxW, boxH; simpl.
    replace ((300 + 140 / 2 - (0 + 140 / 2)) * (300 + 140 / 2 - (0 + 140 / 2))
             + (0 + 64 / 2 - (0 + 64 / 2)) * (0 + 64 / 2 - (0 + 64 / 2)))
      with (300 * 300) by lra.
    apply sqrt_square; lra. }
  assert (Hacd : actualControlDistance 300 = 120).
  { rewrite actualControlDistance_clamp; unfold clamp.
    destruct (Rlt_dec (300 * 0.4) 40); [lra|].
    destruct (Rlt_dec 150 (300 * 0.4)); lra. }
  unfold arrowBezier; rewrite Hdist, route_rightward.
  - unfold smoothBezier; rewrite Hacd; simpl.
    unfold boxW, boxH, arrowOffset; f_equal; lra.
  - rewrite delta_x, delta_y; unfold rightward; simpl.
    replace (0 - 0) with 0 by ring.
    rewrite Rabs_R0, Rabs_pos_eq by lra; lra.
Qed.


End RoutingClaims.

(** ** Repairing a stored canvas state *)

Module ServiceFacts.
Import Js JsFacts Service.

(** An item whose position passes [isValidPosition] and is not (0, 0). *)
Definition wellPlaced (item : DraggableItem) : Prop :=
  isValidPosition (position item) = true /\
  atOrigin (position item) = false.

(** No item carries the id [i]. *)
Definition absent (its : list DraggableItem) (i : Z) : Prop :=
  forall item, In item its -> id item <> i.

(** An arrow one of whose ends is no item. *)
Definition dangling (its : list DraggableItem) (a : ArrowRef) : Prop :=
  absent its (fromId a) \/ absent its (toId a).

Lemma existsId_false its i : existsId its i = false <-> absent its i.
Proof.
  unfold existsId, absent; split.
  - intros H item Hin Heq.
    assert (Ht : existsb (fun item => Z.eqb (id item) i) its = true).
    { apply existsb_exists; exists item; split; [exact Hin|].
      apply Z.eqb_eq, Heq. }
    congruence.
  - intros H.
    destruct (existsb _ its) eqn:E; [|reflexivity].
    apply existsb_exists in E as (item & Hin & Heq).
    apply Z.eqb_eq in Heq; exfalso; exact (H item Hin Heq).
Qed.

Lemma arrowValid_false its a : arrowValid its a = false <-> dangling its a.
Proof.
  unfold arrowValid, dangling.
  rewrite andb_false_iff, !existsId_false; tauto.
Qed.

Lemma arrowValid_true its a : arrowValid its a = true <-> ~ dangling its a.
Proof.
  rewrite <- arrowValid_false.
  destruct (arrowValid its a); split; intros; congruence.
Qed.

Lemma filter_shorter {A} (f : A -> bool) l a :
  In a l -> f a = false ->
  (List.length (filter f l) < List.length l)%nat.
Proof.
  induction l as [|b l IH]; simpl; [tauto|].
  intros [->|Hin] Hf.
  - rewrite Hf.
    pose proof (filter_length_le f l); lia.
  - specialize (IH Hin Hf).
    destruct (f b); simpl; lia.
Qed.

Section FixItemsFacts.
Context {Store : Type}.
Variable spacing : R.
Variable storePosition : DraggableItem -> Position -> Store -> Store.

Lemma fixItem_wellPlaced index item st :
  wellPlaced item ->
  fixItem spacing storePosition index item st = (item, false, st).
Proof.
  intros [Hv Ho]; unfold fixItem; rewrite Hv, Ho; reflexivity.
Qed.

Lemma fixItems_wellPlaced l :
  Forall wellPlaced l ->
  forall index st,
    fixItems spacing storePosition index l st = (l, false, st).
Proof.
  induction 1 as [|item l Hitem Hl IH]; intros index st; simpl.
  - reflexivity.
  - rewrite (fixItem_wellPlaced _ _ _ Hitem), IH; reflexivity.
Qed.

(** A repair changes positions only. *)
Lemma fixItem_keeps index item st :
  let fixed := fst (fst (fixItem spacing storePosition index item st)) in
  id fixed = id item /\ sequenceKey fixed = sequenceKey item /\
  type fixed = type item /\ label fixed = label item.
Proof.
  unfold fixItem.
  destruct (negb (isValidPosition (position item)) || atOrigin (position item));
    simpl; [|tauto].
  unfold sequenceKey; simpl.
  destruct (properties item) as [p|]; simpl; tauto.
Qed.

Lemma fixItems_keeps l :
  forall index st,
    let fixed := fst (fst (fixItems spacing storePosition index l st)) in
    map id fixed = map id l /\
    map sequenceKey fixed = map sequenceKey l /\
    List.length fixed = List.length l.
Proof.
  induction l as [|item l IH]; intros index st; simpl; [tauto|].
  pose proof (fixItem_keeps index item st) as Hk.
  destruct (fixItem spacing storePosition index item st)
    as [[fixedItem fixed] st1]; simpl in Hk.
  specialize (IH (S index) st1).
  destruct (fixItems spacing storePosition (S index) l st1)
    as [[fixedRest later] st2]; simpl in *.
  destruct Hk as (Hid & Hkey & _), IH as (Hids & Hkeys & Hlen).
  rewrite Hid, Hkey, Hids, Hkeys, Hlen; tauto.
Qed.

End FixItemsFacts.

(** Sorting by [sequenceKey]. *)
Definition keyLe (a b : DraggableItem) : Prop :=
  (sequenceKey a <= sequenceKey b)%Z.

Lemma insertBySequence_perm a l : Permutation (a :: l) (insertBySequence a l).
Proof.
  induction l as [|b l IH]; simpl; [reflexivity|].
  destruct (Z.leb (sequenceKey a) (sequenceKey b)); [reflexivity|].
  rewrite perm_swap; apply perm_skip, IH.
Qed.

Lemma sortBySequenceKey_perm l : Permutation l (sortBySequenceKey l).
Proof.
  induction l as [|a l IH]; simpl; [reflexivity|].
  rewrite <- insertBySequence_perm; apply perm_skip, IH.
Qed.

Lemma insertBySequence_sorted a l :
  StronglySorted keyLe l -> StronglySorted keyLe (insertBySequence a l).
Proof.
  induction 1 as [|b l Hl IH Hb]; simpl.
  - constructor; constructor.
  - destruct (Z.leb (sequenceKey a) (sequenceKey b)) eqn:E.
    + apply Z.leb_le in E.
      constructor; [constructor; assumption|].
      constructor; [exact E|].
      eapply Forall_impl; [|exact Hb].
      unfold keyLe; intros c Hc; lia.
    + apply Z.leb_gt in E.
      constructor; [exact IH|].
      apply (Permutation_Forall (insertBySequence_perm a l)).
      constructor; [unfold keyLe; lia | exact Hb].
Qed.

Lemma sortBySequenceKey_sorted l : StronglySorted keyLe (sortBySequenceKey l).
Proof.
  induction l as [|a l IH]; simpl.
  - constructor.
  - apply insertBySequence_sorted, IH.
Qed.

(** The sort is stable: items with the same key keep their order. *)
Lemma insertBySequence_stable k a l :
  filter (fun c => Z.eqb (sequenceKey c) k) (insertBySequence a l)
  = filter (fun c => Z.eqb (sequenceKey c) k) (a :: l).
Proof.
  induction l as [|b l IH]; [reflexivity|].
  cbn [insertBySequence].
  destruct (Z.leb (sequenceKey a) (sequenceKey b)) eqn:E; [reflexivity|].
  apply Z.leb_gt in E.
  cbn [filter] in *; rewrite IH.
  destruct (Z.eqb (sequenceKey a) k) eqn:Ea,
           (Z.eqb (sequenceKey b) k) eqn:Eb; try reflexivity.
  apply Z.eqb_eq in Ea, Eb; lia.
Qed.

Lemma sortBySequenceKey_stable k l :
  filter (fun c => Z.eqb (sequenceKey c) k) (sortBySequenceKey l)
  = filter (fun c => Z.eqb (sequenceKey c) k) l.
Proof.
  induction l as [|a l IH]; [reflexivity|].
  cbn [sortBySequenceKey]; rewrite insertBySequence_stable.
  cbn [filter]; rewrite IH; reflexivity.
Qed.

(** The chain links each element to its successor. *)
Lemma chain_length l : List.length (chain l) = (List.length l - 1)%nat.
Proof.
  induction l as [|a [|b l] IH]; simpl in *; try reflexivity.
  rewrite IH; lia.
Qed.

Lemma chain_nth l :
  forall i,
    nth_error (chain l) i =
    match nth_error l i, nth_error l (S i) with
    | Some a, Some b => Some {| fromId := id a; toId := id b |}
    | _, _ => None
    end.
Proof.
  induction l as [|a [|b l] IH]; intros i.
  - destruct i; reflexivity.
  - destruct i as [|[|i]]; reflexivity.
  - destruct i as [|i]; [reflexivity|].
    change (chain (a :: b :: l))
      with ({| fromId := id a; toId := id b |} :: chain (b :: l)).
    cbn [nth_error]; rewrite IH; reflexivity.
Qed.

End ServiceFacts.

Module StoreFacts.
Import Service ServiceFacts.

(** Writes to an available [localStorage] keep it available. *)
Lemma storePosition_available fixedItem p ls :
  available (storePosition fixedItem p ls) = available ls.
Proof.
  unfold storePosition, savePosition.
  destruct (truthy (workflowId fixedItem)); [|reflexivity].
  destruct (available ls) eqn:E; simpl; [reflexivity | exact E].
Qed.

Lemma fixItem_available spacing index item ls :
  available (snd (fixItem spacing storePosition index item ls))
  = available ls.
Proof.
  unfold fixItem.
  destruct (negb (isValidPosition (position item)) || atOrigin (position item));
    simpl; [apply storePosition_available | reflexivity].
Qed.

Lemma fixItems_available spacing l :
  forall index ls,
    available (snd (fixItems spacing storePosition index l ls))
    = available ls.
Proof.
  induction l as [|item l IH]; intros index ls; simpl; [reflexivity|].
  pose proof (fixItem_available spacing index item ls) as H1.
  destruct (fixItem spacing storePosition index item ls)
    as [[fixedItem fixed] ls1]; simpl in H1.
  specialize (IH (S index) ls1).
  destruct (fixItems spacing storePosition (S index) l ls1)
    as [[fixedRest later] ls2]; simpl in *.
  congruence.
Qed.

(** The repair of the items does not touch the stored canvas state. *)
Lemma storePosition_canvasState fixedItem p ls :
  canvasState (storePosition fixedItem p ls) = canvasState ls.
Proof.
  unfold storePosition, savePosition.
  destruct (truthy (workflowId fixedItem)); [|reflexivity].
  destruct (available ls); reflexivity.
Qed.

Lemma saveCanvasState_available state ls :
  available ls = true ->
  canvasState (fst (saveCanvasState state ls)) = Some state /\
  positions (fst (saveCanvasState state ls)) = positions ls /\
  available (fst (saveCanvasState state ls)) = true.
Proof.
  intros H; unfold saveCanvasState; rewrite H; simpl; auto.
Qed.

Lemma saveCanvasState_server state srv :
  ServiceJsonServer.reachable srv = true ->
  fst (ServiceJsonServer.saveCanvasState state srv)
  = {| ServiceJsonServer.reachable := true;
       ServiceJsonServer.workflowState :=
         Some {| stateId := Some ServiceJsonServer.CANVAS_STATE_ID;
                 items := items state; arrows := arrows state;
                 nextId := nextId state |} |}.
Proof.
  intros H.
  unfold ServiceJsonServer.saveCanvasState,
    ServiceJsonServer.getCanvasStateRaw,
    ServiceJsonServer.updateCanvasState,
    ServiceJsonServer.createCanvasState.
  rewrite H.
  destruct (ServiceJsonServer.workflowState srv); reflexivity.
Qed.

(** [autoFixWith] when the arrows need pruning and the items are fine. *)
Lemma autoFixWith_prunes {Store} spacing
  (storePos : DraggableItem -> Position -> Store -> Store)
  (save : SavedState -> Store -> Store) state its arrs st :
  items state = Some its -> its <> [] -> Forall wellPlaced its ->
  arrows state = Some arrs ->
  (exists a, In a arrs /\ dangling its a) ->
  let fixed :=
    {| stateId := stateId state; items := Some its;
       arrows := Some (filter (arrowValid its) arrs);
       nextId := nextId state |} in
  autoFixWith (fixItems spacing storePos 0) save state st
  = (fixed, save fixed st).
Proof.
  intros Hits Hne Hwp Harrs (a & Hin & Hd) fixed.
  unfold autoFixWith; rewrite Hits.
  destruct its as [|item its']; [contradiction|].
  rewrite (fixItems_wellPlaced spacing storePos _ Hwp), Harrs.
  destruct arrs as [|a0 arrs']; [destruct Hin|].
  cbn [isEmpty].
  apply arrowValid_false in Hd.
  pose proof (filter_shorter (arrowValid (item :: its')) _ a Hin Hd) as Hlt.
  apply Nat.lt_neq, Nat.eqb_neq in Hlt; rewrite Hlt.
  reflexivity.
Qed.

(** [autoFixWith] when there are no arrows. *)
Lemma autoFixWith_generates {Store}
  (fixAll : list DraggableItem -> Store -> list DraggableItem * bool * Store)
  (save : SavedState -> Store -> Store) state its st :
  items state = Some its -> its <> [] ->
  arrows state = None \/ arrows state = Some [] ->
  let fixedItems := fst (fst (fixAll its st)) in
  let st1 := snd (fixAll its st) in
  let fixed :=
    {| stateId := stateId state; items := Some fixedItems;
       arrows := Some (generateSequentialArrows fixedItems);
       nextId := nextId state |} in
  autoFixWith fixAll save state st = (fixed, save fixed st1).
Proof.
  intros Hits Hne Harrs fixedItems st1 fixed.
  unfold autoFixWith; rewrite Hits.
  destruct its as [|item its']; [contradiction|].
  subst fixedItems st1 fixed.
  destruct (fixAll (item :: its') st) as [[fixedItems needs] st1].
  destruct Harrs as [-> | ->]; reflexivity.
Qed.

End StoreFacts.

Section ServiceClaims.
Import Service ServiceFacts StoreFacts.

(** The state with the arrows replaced. *)
Definition withArrows (state : SavedState) (its : list DraggableItem)
  (arrs : list ArrowRef) : SavedState :=
  {| stateId := stateId state; items := Some its;
     arrows := Some arrs; nextId := nextId state |}.

(** The state as the JSON server stores it: under the id "1". *)
Definition underCanvasId (state : SavedState) : SavedState :=
  {| stateId := Some ServiceJsonServer.CANVAS_STATE_ID;
     items := items state; arrows := arrows state;
     nextId := nextId state |}.

Definition looseArrow : ArrowRef := {| fromId := 1; toId := 2 |}.

Definition emptyWithArrow : SavedState :=
  {| stateId := None; items := Some []; arrows := Some [looseArrow];
     nextId := 1 |}.

(** A stored state without items whose only arrow refers to the absent
    ids 1 and 2 is loaded as it is: the arrow stays and nothing is
    written. *)
Lemma C7_counterexample :
  let ls := {| available := true; positions := None;
               canvasState := Some emptyWithArrow |} in
  dangling [] looseArrow /\
  getCanvasState ls = (Some emptyWithArrow, ls).
Proof.
  split; [|reflexivity].
  left; intros item [].
Qed.

(** Claim C7, amended.  Loading a stored state whose item list is not
    empty, whose items all have a valid position other than (0, 0), and
    whose arrows include one that refers to an id no item has, gives the
    same state with exactly the arrows both of whose ends are items, in
    their order; the id of the state, the items and [nextId] are
    unchanged, and this state is written back: to [localStorage] in one
    revision, to the JSON server under the id "1" in the other. *)
Theorem C7_dangling_arrows_pruned :
  (forall ls state its arrs,
      available ls = true -> canvasState ls = Some state ->
      items state = Some its -> its <> [] -> Forall wellPlaced its ->
      arrows state = Some arrs ->
      (exists a, In a arrs /\ dangling its a) ->
      let kept := filter (arrowValid its) arrs in
      let fixed := withArrows state its kept in
      (forall a, In a kept <-> In a arrs /\ ~ dangling its a) /\
      getCanvasState ls
      = (Some fixed,
         {| available := true; positions := positions ls;
            canvasState := Some fixed |})) /\
  (forall srv state its arrs,
      ServiceJsonServer.reachable srv = true ->
      ServiceJsonServer.workflowState srv = Some state ->
      items state = Some its -> its <> [] -> Forall wellPlaced its ->
      arrows state = Some arrs ->
      (exists a, In a arrs /\ dangling its a) ->
      let kept := filter (arrowValid its) arrs in
      let fixed := withArrows state its kept in
      (forall a, In a kept <-> In a arrs /\ ~ dangling its a) /\
      ServiceJsonServer.getCanvasState srv
      = (Some fixed,
         {| ServiceJsonServer.reachable := true;
            ServiceJsonServer.workflowState :=
              Some (underCanvasId fixed) |})).
Proof.
  split.
  - intros ls state its arrs Hav Hst Hits Hne Hwp Harrs Hd kept fixed.
    split.
    { intros a; unfold kept; rewrite filter_In, arrowValid_true; tauto. }
    unfold getCanvasState, autoFixCanvasState; rewrite Hav, Hst.
    rewrite (autoFixWith_prunes _ _ _ state its arrs ls Hits Hne Hwp Harrs Hd).
    unfold saveCanvasState; rewrite Hav; reflexivity.
  - intros srv state its arrs Hre Hst Hits Hne Hwp Harrs Hd kept fixed.
    split.
    { intros a; unfold kept; rewrite filter_In, arrowValid_true; tauto. }
    unfold ServiceJsonServer.getCanvasState,
      ServiceJsonServer.autoFixCanvasState,
      ServiceJsonServer.getCanvasStateRaw; rewrite Hre, Hst.
    rewrite (autoFixWith_prunes _ _ _ state its arrs srv Hits Hne Hwp
               Harrs Hd).
    rewrite (saveCanvasState_server _ srv Hre); reflexivity.
Qed.

(** Two stored items and a stored state with one sound and one loose
    arrow. *)
Definition storedItem (i : Z) (px py : R) (seq : option Z) : DraggableItem :=
  {| id := i; label := "Action"; 
     position := Some {| rawX := Some px; rawY := Some py |};
     type := action1;
     properties := Some {| sequence := seq; name := None;
                           propPosition :=
                             Some {| rawX := Some px; rawY := Some py |};
                           extra := [] |};
     workflowId := None |}.

Definition twoItems : list DraggableItem :=
  [storedItem 1 120 120 (Some 1%Z); storedItem 2 420 120 (Some 2%Z)].

Definition stateWithLooseArrow : SavedState :=
  {| stateId := None; items := Some twoItems;
     arrows := Some [{| fromId := 1; toId := 2 |};
                     {| fromId := 2; toId := 7 |}];
     nextId := 3 |}.

Lemma storedItem_wellPlaced i px py seq :
  px <> 0 -> wellPlaced (storedItem i px py seq).
Proof.
  intros Hx; split; [reflexivity|].
  unfold atOrigin, is_zero; simpl.
  apply (proj2 (JsFacts.eqb_false px 0)) in Hx; rewrite Hx; reflexivity.
Qed.

Lemma twoItems_wellPlaced : Forall wellPlaced twoItems.
Proof.
  repeat constructor; apply storedItem_wellPlaced; lra.
Qed.

Lemma twoItems_loose :
  exists a,
    In a [{| fromId := 1; toId := 2 |}; {| fromId := 2; toId := 7 |}] /\
    dangling twoItems a.
Proof.
  exists {| fromId := 2; toId := 7 |}; split; [right; left; reflexivity|].
  right; intros item [<-|[<-|[]]]; discriminate.
Qed.

Lemma C7_witness :
  let ls := {| available := true; positions := None;
               canvasState := Some stateWithLooseArrow |} in
  let fixed :=
    withArrows stateWithLooseArrow twoItems
      (filter (arrowValid twoItems)
         [{| fromId := 1; toId := 2 |}; {| fromId := 2; toId := 7 |}]) in
  getCanvasState ls
  = (Some fixed,
     {| available := true; positions := None; canvasState := Some fixed |}).
Proof.
  intros ls fixed.
  assert (Hne : twoItems <> []) by discriminate.
  exact (proj2 (proj1 C7_dangling_arrows_pruned ls stateWithLooseArrow
                  twoItems _ eq_refl eq_refl eq_refl Hne twoItems_wellPlaced
                  eq_refl twoItems_loose)).
Defined.

(** The key the chain is sorted by, in words: the sequence number of
    the properties, and the id when there are no properties, no
    sequence number, or the sequence number 0. *)
Definition sequenceOrId (a : DraggableItem) : Z :=
  match properties a with
  | Some p =>
      match sequence p with
      | Some 0%Z | None => id a
      | Some s => s
      end
  | None => id a
  end.

Lemma sequenceKey_spec a : sequenceKey a = sequenceOrId a.
Proof.
  unfold sequenceKey, sequenceOrId.
  destruct (properties a) as [p|]; [|reflexivity].
  destruct (sequence p) as [[|s|s]|]; reflexivity.
Qed.

Definition loneItemState : SavedState :=
  {| stateId := None; items := Some [storedItem 1 120 120 (Some 1%Z)];
     arrows := Some []; nextId := 2 |}.

(** A stored state with a single item and no arrow is loaded without
    any arrow. *)
Lemma C10_counterexample :
  let ls := {| available := true; positions := None;
               canvasState := Some loneItemState |} in
  option_map arrows (fst (getCanvasState ls)) = Some (Some []).
Proof.
  cbv zeta; unfold getCanvasState, autoFixCanvasState, autoFixWith.
  cbn [available canvasState items loneItemState].
  rewrite fixItems_wellPlaced
    by (repeat constructor; apply storedItem_wellPlaced; lra).
  reflexivity.
Qed.

(** Claim C10, amended.  Loading a stored state that has items and
    whose arrow list is empty or missing repairs the positions of the
    items and gives the state the chain of arrows from each item to its
    successor in the order of [properties.sequence], the id standing in
    for a sequence number that is missing or 0: the sorted list is a
    permutation of the items, ordered by that key, equal keys staying in
    their order; there are n-1 arrows for n items, so none for a single
    item and at least one for two items or more; and the state is
    written back. *)
Theorem C10_arrows_generated :
  (forall ls state its,
      available ls = true -> canvasState ls = Some state ->
      items state = Some its -> its <> [] ->
      arrows state = None \/ arrows state = Some [] ->
      exists fixedItems ls',
        let sorted := sortBySequenceKey fixedItems in
        let fixed := withArrows state fixedItems (chain sorted) in
        getCanvasState ls = (Some fixed, ls') /\
        canvasState ls' = Some fixed /\
        map id fixedItems = map id its /\
        map sequenceOrId fixedItems = map sequenceOrId its /\
        Permutation fixedItems sorted /\
        StronglySorted
          (fun a b => (sequenceOrId a <= sequenceOrId b)%Z) sorted /\
        (forall k,
            filter (fun c => Z.eqb (sequenceOrId c) k) sorted
            = filter (fun c => Z.eqb (sequenceOrId c) k) fixedItems) /\
        (forall i,
            nth_error (chain sorted) i =
            match nth_error sorted i, nth_error sorted (S i) with
            | Some a, Some b => Some {| fromId := id a; toId := id b |}
            | _, _ => None
            end) /\
        List.length (chain sorted) = (List.length its - 1)%nat /\
        (chain sorted <> [] <-> (2 <= List.length its)%nat)) /\
  (forall srv state its,
      ServiceJsonServer.reachable srv = true ->
      ServiceJsonServer.workflowState srv = Some state ->
      items state = Some its -> its <> [] ->
      arrows state = None \/ arrows state = Some [] ->
      exists fixedItems,
        let sorted := sortBySequenceKey fixedItems in
        let fixed := withArrows state fixedItems (chain sorted) in
        ServiceJsonServer.getCanvasState srv
        = (Some fixed,
           {| ServiceJsonServer.reachable := true;
              ServiceJsonServer.workflowState :=
                Some (underCanvasId fixed) |}) /\
        map id fixedItems = map id its /\
        map sequenceOrId fixedItems = map sequenceOrId its /\
        Permutation fixedItems sorted /\
        StronglySorted
          (fun a b => (sequenceOrId a <= sequenceOrId b)%Z) sorted /\
        List.length (chain sorted) = (List.length its - 1)%nat /\
        (chain sorted <> [] <-> (2 <= List.length its)%nat)).
Proof.
  assert (Hkey : forall l, map sequenceOrId l = map sequenceKey l).
  { intros l; apply map_ext; intros a; symmetry; apply sequenceKey_spec. }
  assert (Hsorted : forall l,
             StronglySorted
               (fun a b => (sequenceOrId a <= sequenceOrId b)%Z)
               (sortBySequenceKey l)).
  { intros l.
    pose proof (sortBySequenceKey_sorted l) as H.
    induction H as [|a l' Hl IH Ha]; constructor; [exact IH|].
    eapply Forall_impl; [|exact Ha].
    intros b; unfold keyLe; rewrite !sequenceKey_spec; tauto. }
  assert (Hlen : forall (fixedItems its : list DraggableItem),
             List.length fixedItems = List.length its ->
             List.length (chain (sortBySequenceKey fixedItems))
             = (List.length its - 1)%nat).
  { intros f its H; rewrite chain_length.
    rewrite <- (Permutation_length (sortBySequenceKey_perm f)), H.
    reflexivity. }
  assert (Hnil : forall (l : list ArrowRef) n,
             List.length l = (n - 1)%nat -> (l <> [] <-> (2 <= n)%nat)).
  { intros l n H; destruct l; simpl in H; split; intros H'; try lia;
      try discriminate; contradiction. }
  split.
  - intros ls state its Hav Hst Hits Hne Harrs.
    pose proof (fixItems_keeps SPACE_INCREASE storePosition its 0%nat ls)
      as (Hids & Hkeys & Hl).
    pose proof (fixItems_available SPACE_INCREASE its 0%nat ls) as Hav1.
    set (r := fixItems SPACE_INCREASE storePosition 0 its ls) in *.
    exists (fst (fst r)).
    eexists; cbv zeta.
    split.
    { unfold getCanvasState, autoFixCanvasState; rewrite Hav, Hst.
      rewrite (autoFixWith_generates _ _ state its ls Hits Hne Harrs).
      fold r; reflexivity. }
    split.
    { apply saveCanvasState_available; rewrite Hav1; exact Hav. }
    split; [exact Hids|].
    split; [rewrite !Hkey; exact Hkeys|].
    split; [apply sortBySequenceKey_perm|].
    split; [apply Hsorted|].
    split.
    { intros k.
      rewrite (filter_ext _ (fun c => Z.eqb (sequenceKey c) k))
        by (intros c; rewrite sequenceKey_spec; reflexivity).
      rewrite (filter_ext (fun c => Z.eqb (sequenceOrId c) k)
                 (fun c => Z.eqb (sequenceKey c) k))
        by (intros c; rewrite sequenceKey_spec; reflexivity).
      apply sortBySequenceKey_stable. }
    split; [apply chain_nth|].
    split; [apply Hlen, Hl|].
    apply Hnil, Hlen, Hl.
  - intros srv state its Hre Hst Hits Hne Harrs.
    pose proof (fixItems_keeps ServiceJsonServer.DEFAULT_HORIZONTAL_SPACING
                  (fun _ _ (srv : ServiceJsonServer.Server) => srv)
                  its 0%nat srv) as (Hids & Hkeys & Hl).
    assert (Hsame : forall l index,
               snd (fixItems ServiceJsonServer.DEFAULT_HORIZONTAL_SPACING
                      (fun _ _ (srv : ServiceJsonServer.Server) => srv)
                      index l srv) = srv).
    { induction l as [|item l IH]; intros index; simpl; [reflexivity|].
      unfold fixItem at 1.
      destruct (negb (isValidPosition (position item))
                || atOrigin (position item)).
      - specialize (IH (S index)).
        destruct (fixItems _ _ (S index) l srv) as [[? ?] ?]; exact IH.
      - specialize (IH (S index)).
        destruct (fixItems _ _ (S index) l srv) as [[? ?] ?]; exact IH. }
    specialize (Hsame its 0%nat).
    set (r := fixItems ServiceJsonServer.DEFAULT_HORIZONTAL_SPACING
                (fun _ _ (srv : ServiceJsonServer.Server) => srv)
                0 its srv) in *.
    exists (fst (fst r)); cbv zeta.
    split.
    { unfold ServiceJsonServer.getCanvasState,
        ServiceJsonServer.autoFixCanvasState,
        ServiceJsonServer.getCanvasStateRaw; rewrite Hre, Hst.
      rewrite (autoFixWith_generates _ _ state its srv Hits Hne Harrs).
      fold r; rewrite Hsame.
      rewrite (saveCanvasState_server _ srv Hre); reflexivity. }
    split; [exact Hids|].
    split; [rewrite !Hkey; exact Hkeys|].
    split; [apply sortBySequenceKey_perm|].
    split; [apply Hsorted|].
    split; [apply Hlen, Hl|].
    apply Hnil, Hlen, Hl.
Qed.

Definition stateWithoutArrows : SavedState :=
  {| stateId := None; items := Some twoItems; arrows := None; nextId := 3 |}.

Lemma C10_witness :
  let ls := {| available := true; positions := None;
               canvasState := Some stateWithoutArrows |} in
  exists fixedItems ls',
    getCanvasState ls
    = (Some (withArrows stateWithoutArrows fixedItems
               (chain (sortBySequenceKey fixedItems))), ls') /\
    List.length (chain (sortBySequenceKey fixedItems)) = 1%nat.
Proof.
  intros ls.
  assert (Hne : twoItems <> []) by discriminate.
  destruct (proj1 C10_arrows_generated ls stateWithoutArrows twoItems
              eq_refl eq_refl eq_refl Hne (or_introl eq_refl))
    as (fixedItems & ls' & Hget & _ & _ & _ & _ & _ & _ & _ & Hlen & _).
  exists fixedItems, ls'; split; [exact Hget | exact Hlen].
Defined.

End ServiceClaims.

(** ** Dragging a group of nodes *)

Module DragFacts.
Import Js JsFacts Workflow WorkstatusState.




Lemma update_length i f items :
  List.length (update i f items) = List.length items.
Proof.
  revert i; induction items as [|item rest IH]; intros [|i]; simpl;
    try reflexivity.
  rewrite IH; reflexivity.
Qed.

Lemma update_nth i f items j :
  nth_error (update i f items) j =
  if Nat.eqb j i then option_map f (nth_error items j)
  else nth_error items j.
Proof.
  revert i j; induction items as [|item rest IH]; intros i j.
  - destruct i, j; simpl; try reflexivity;
      destruct (Nat.eqb j i); reflexivity.
  - destruct i as [|i], j as [|j]; simpl; try reflexivity.
    apply IH.
Qed.


Lemma moveAllLinked_length dX dY linked :
  forall items,
    List.length (moveAllLinked dX dY linked items) = List.length items.
Proof.
  unfold moveAllLinked.
  induction linked as [|b rest IH]; intros items; simpl; [reflexivity|].
  rewrite IH, update_length; reflexivity.
Qed.





End DragFacts.

Module GroupDragFacts.
Import Js JsFacts Workflow WorkstatusState DragFacts.

(** A drag of the item at [d] with the buttons at [linked] attached. *)
Definition dragging (st : State) (d : nat) (linked : list nat) : Prop :=
  draggedItem st = Some d /\ linkedButtons st = linked /\
  NoDup linked /\ ~ In d linked.

(** The item at [b] is a continue or reject node that an arrow links to
    [item]. *)
Definition childOf (items : list DraggableItem) (arrows : list Arrow)
  (item : DraggableItem) (b : nat) : Prop :=
  exists c,
    nth_error items b = Some c /\
    (type c = continue \/ type c = reject) /\
    hasArrow items arrows item c = true.

Lemma isChild_spec t :
  WorkstatusJsonServer.isChild t = true <-> t = continue \/ t = reject.
Proof.
  destruct t; simpl; split; intros H; try discriminate; auto;
    destruct H; discriminate.
Qed.

Section Moves.
Variable numberToString : R -> string.




End Moves.

(** What [items.find] returns. *)
Lemma findLinked_some all arrows item wanted l :
  forall k i,
    Workstatus.findLinked all arrows item wanted l k = Some i ->
    (k <= i)%nat /\
    exists c,
      nth_error l (i - k) = Some c /\ wanted (type c) = true /\
      hasArrow all arrows item c = true.
Proof.
  induction l as [|c rest IH]; intros k i; simpl; [discriminate|].
  destruct (wanted (type c) && hasArrow all arrows item c) eqn:E.
  - intros [= <-]; split; [lia|].
    rewrite Nat.sub_diag; exists c; simpl.
    apply andb_true_iff in E; tauto.
  - intros H; destruct (IH _ _ H) as (Hk & c' & Hc' & Hw & Ha).
    split; [lia|].
    exists c'; replace (i - k)%nat with (S (i - S k)) by lia.
    simpl; auto.
Qed.

(** A child of the wanted type exists only if [items.find] finds one,
    at that index or before it. *)
Lemma findLinked_finds all arrows item wanted l :
  forall k j c,
    nth_error l j = Some c -> wanted (type c) = true ->
    hasArrow all arrows item c = true ->
    exists i,
      Workstatus.findLinked all arrows item wanted l k = Some i /\
      (i <= k + j)%nat.
Proof.
  induction l as [|c0 rest IH]; intros k j c Hj Hw Ha.
  - destruct j; discriminate.
  - simpl.
    destruct (wanted (type c0) && hasArrow all arrows item c0) eqn:E.
    + exists k; split; [reflexivity | lia].
    + destruct j as [|j]; simpl in Hj.
      * injection Hj as ->; rewrite Hw, Ha in E; discriminate.
      * destruct (IH (S k) j c Hj Hw Ha) as (i & Hi & Hle).
        exists i; split; [exact Hi | lia].
Qed.

(** What [items.filter] keeps. *)
Lemma filterLinked_In all arrows item l :
  forall k i,
    In i (WorkstatusJsonServer.filterLinked all arrows item l k) <->
    (k <= i)%nat /\
    exists c,
      nth_error l (i - k) = Some c /\
      WorkstatusJsonServer.isChild (type c) = true /\
      hasArrow all arrows item c = true.
Proof.
  induction l as [|c rest IH]; intros k i; simpl.
  - split; [tauto|].
    intros (_ & c & Hc & _); destruct (i - k)%nat; discriminate.
  - assert (Hrest :
        In i (WorkstatusJsonServer.filterLinked all arrows item rest (S k)) <->
        (k < i)%nat /\
        exists c',
          nth_error (c :: rest) (i - k) = Some c' /\
          WorkstatusJsonServer.isChild (type c') = true /\
          hasArrow all arrows item c' = true).
    { rewrite IH; split.
      - intros (Hk & c' & Hc' & H); split; [lia|].
        exists c'; replace (i - k)%nat with (S (i - S k)) by lia.
        simpl; auto.
      - intros (Hk & c' & Hc' & H); split; [lia|].
        exists c'; replace (i - k)%nat with (S (i - S k)) in Hc' by lia.
        simpl in Hc'; auto. }
    destruct (WorkstatusJsonServer.isChild (type c)
              && hasArrow all arrows item c) eqn:E.
    + simpl; rewrite Hrest; split.
      * intros [<-|(Hk & H)]; [|split; [lia | exact H]].
        split; [lia|]; rewrite Nat.sub_diag; exists c; simpl.
        apply andb_true_iff in E; tauto.
      * intros (Hk & H).
        destruct (Nat.eq_dec k i) as [->|Hne]; [left; reflexivity|].
        right; split; [lia | exact H].
    + rewrite Hrest; split.
      * intros (Hk & H); split; [lia | exact H].
      * intros (Hk & c' & Hc' & Hw & Ha).
        destruct (Nat.eq_dec k i) as [->|Hne].
        -- rewrite Nat.sub_diag in Hc'; simpl in Hc'.
           injection Hc' as ->; rewrite Hw, Ha in E; discriminate.
        -- split; [lia|]; exists c'; auto.
Qed.

Lemma filterLinked_NoDup all arrows item l :
  forall k, NoDup (WorkstatusJsonServer.filterLinked all arrows item l k).
Proof.
  induction l as [|c rest IH]; intros k; simpl; [constructor|].
  destruct (WorkstatusJsonServer.isChild (type c)
            && hasArrow all arrows item c); [|apply IH].
  constructor; [|apply IH].
  rewrite filterLinked_In; intros (Hk & _); lia.
Qed.

End GroupDragFacts.

Section DragClaims.
Import Js JsFacts Workflow WorkstatusState DragFacts GroupDragFacts.

Lemma clickTimeoutFired_dragging scrollContainer st event d item :
  clickTimeout st = Some (event, d) ->
  nth_error (items st) d = Some item ->
  type item = action2 ->
  let st0 := Workstatus.clickTimeoutFired scrollContainer st in
  items st0 = items st /\
  dragging st0 d (linkedButtons st0) /\
  (forall b, In b (linkedButtons st0) ->
             childOf (items st) (arrows st) item b).
Proof.
  intros Hclick Hitem Htype st0; subst st0.
  unfold Workstatus.clickTimeoutFired; rewrite Hclick, Hitem, Htype.
  cbn [isAction2 items linkedButtons draggedItem setDrag setClick].
  destruct (Workstatus.findLinked (items st) (arrows st) item isContinue
              (items st) 0) as [i1|] eqn:E1;
    destruct (Workstatus.findLinked (items st) (arrows st) item isReject
                (items st) 0) as [i2|] eqn:E2;
    cbn [optList app];
    try (apply findLinked_some in E1 as (_ & c1 & Hc1 & Hw1 & Ha1);
         rewrite Nat.sub_0_r in Hc1;
         assert (Ht1 : type c1 = continue)
           by (destruct (type c1); try discriminate; reflexivity));
    try (apply findLinked_some in E2 as (_ & c2 & Hc2 & Hw2 & Ha2);
         rewrite Nat.sub_0_r in Hc2;
         assert (Ht2 : type c2 = reject)
           by (destruct (type c2); try discriminate; reflexivity));
    (split; [reflexivity|]); split.
  - split; [reflexivity|]; split; [reflexivity|]; split.
    + repeat constructor; simpl; [|tauto].
      intros [->|[]]; congruence.
    + simpl; intros [->|[->|[]]]; congruence.
  - intros b [<-|[<-|[]]]; [exists c1 | exists c2]; auto.
  - split; [reflexivity|]; split; [reflexivity|]; split.
    + repeat constructor; simpl; tauto.
    + simpl; intros [->|[]]; congruence.
  - intros b [<-|[]]; exists c1; auto.
  - split; [reflexivity|]; split; [reflexivity|]; split.
    + repeat constructor; simpl; tauto.
    + simpl; intros [->|[]]; congruence.
  - intros b [<-|[]]; exists c2; auto.
  - split; [reflexivity|]; split; [reflexivity|]; split.
    + constructor.
    + simpl; tauto.
  - intros b [].
Qed.

Lemma startDragging_dragging scrollEl st event d item :
  nth_error (items st) d = Some item ->
  type item = action2 ->
  let st0 := WorkstatusJsonServer.startDragging scrollEl d event st in
  items st0 = items st /\
  dragging st0 d (linkedButtons st0) /\
  (forall b, In b (linkedButtons st0) <->
             childOf (items st) (arrows st) item b).
Proof.
  intros Hitem Htype st0.
  assert (Hfields :
      items st0 = items st /\ draggedItem st0 = Some d /\
      linkedButtons st0
      = WorkstatusJsonServer.filterLinked (items st) (arrows st) item
          (items st) 0).
  { subst st0; unfold WorkstatusJsonServer.startDragging.
    rewrite Hitem, Htype; cbn [isAction2].
    destruct scrollEl as [sc|]; [|simpl; auto].
    destruct (Dom.canvasRect sc); simpl; auto. }
  destruct Hfields as (Hi & Hd & Hl).
  assert (Hchild : forall b,
             In b (linkedButtons st0) <->
             childOf (items st) (arrows st) item b).
  { intros b; rewrite Hl, filterLinked_In, Nat.sub_0_r; unfold childOf.
    split.
    - intros (_ & c & Hc & Hw & Ha); exists c.
      apply isChild_spec in Hw; auto.
    - intros (c & Hc & Hw & Ha); split; [lia|]; exists c.
      apply isChild_spec in Hw; auto. }
  split; [exact Hi|]; split; [|exact Hchild].
  split; [exact Hd|]; split; [reflexivity|]; split.
  - rewrite Hl; apply filterLinked_NoDup.
  - intros Hin; apply Hchild in Hin as (c & Hc & [Ht|Ht] & _); congruence.
Qed.


(** An action2 node with its two children, pressed at (150, 120). *)
Definition groupItems : list DraggableItem :=
  [ {| id := 1; label := "Action 2"; position := {| x := 100; y := 100 |};
       type := action2; properties := None; workflowId := None |};
    {| id := 2; label := "Continue"; position := {| x := 380; y := 55 |};
       type := continue; properties := None; workflowId := None |};
    {| id := 3; label := "Reject"; position := {| x := 380; y := 145 |};
       type := reject; properties := None; workflowId := None |} ].

Definition groupArrows : list Arrow :=
  [ {| from := 0; to := 1; path := EmptyString;
       strokeDasharray := Some "4,8"%string |};
    {| from := 0; to := 2; path := EmptyString;
       strokeDasharray := Some "4,8"%string |} ].

Definition pressAt : Dom.MouseEvent :=
  {| Dom.clientX := 150; Dom.clientY := 120 |}.

Definition moveTo : Dom.MouseEvent :=
  {| Dom.clientX := 237; Dom.clientY := 161 |}.

Definition pressedState : State :=
  setClick (Some (pressAt, 0%nat)) None false
           (setGraph groupItems groupArrows (initial true)).

Definition plainScroll : Dom.ScrollContainer :=
  {| Dom.scrollRect := {| Dom.left := 0; Dom.top := 0;
                          Dom.right := 1200; Dom.bottom := 800 |};
     Dom.scrollLeft := 0; Dom.scrollTop := 0;
     Dom.canvasRect := Some {| Dom.left := 0; Dom.top := 0;
                               Dom.right := 3200; Dom.bottom := 3200 |} |}.


End DragClaims.

(** ** Dropping a toolbar item *)

Section DropClaims.
Import Js JsFacts Workflow WorkstatusState.

(** A coordinate on the grid: an integer multiple of 20. *)
Definition onGrid (v : R) : Prop := exists k : Z, v = IZR k * 20.

Lemma snap_onGrid v : onGrid (Math_round (v / 20) * 20).
Proof. exists (Int_part (v / 20 + / 2)); reflexivity. Qed.

Lemma snap_nearest v :
  v - 10 < Math_round (v / 20) * 20 <= v + 10.
Proof.
  destruct (round_near (v / 20)) as [Hlo Hhi]; split; lra.
Qed.

Lemma thirty_off_grid : ~ onGrid (100 - 70).
Proof.
  intros [k Hk].
  assert (H : IZR 30 = IZR (k * 20)) by (rewrite mult_IZR; lra).
  apply eq_IZR in H; lia.
Qed.

Lemma saveCanvasState_items st : items (saveCanvasState st) = items st.
Proof. unfold saveCanvasState; destruct (isBrowser st); reflexivity. Qed.

(** The revision that creates items with [createItemAtPosition], with
    "Action 1" picked from the toolbar. *)
Definition action1Picked : State :=
  WorkstatusJsonServer.onToolbarButtonMouseDown "Action 1" (initial true).

(** Dropped at (100, 100) on the canvas, the item lands at (30, 68),
    and 30 is no multiple of 20. *)
Lemma C9_counterexample :
  let st' :=
    WorkstatusJsonServer.createItemAtPosition (fun _ => EmptyString)
      "2026-01-01 00:00:00" 100 100 action1Picked in
  positionAt st' 0 = Some {| x := 100 - 70; y := 100 - 32 |} /\
  ~ onGrid (100 - 70).
Proof.
  split; [reflexivity | exact thirty_off_grid].
Qed.

(** Claim C9, amended.  In the revision of the component that creates
    the node in [createNewItemFromToolbar], a drop adds one node, at the
    end of the item list, whose two coordinates are multiples of 20, the
    nearest to the drop point in canvas coordinates; without a scroll
    container nothing is created.  In the revision that creates it in
    [createItemAtPosition] the node is placed with its centre at the
    drop point, at (x - 70, y - 32), without snapping. *)
Theorem C9_drop_position :
  (forall numberToString now sc event label type st,
      let st' :=
        Workstatus.createNewItemFromToolbar numberToString now (Some sc)
          event label type st in
      let canvasX := Dom.clientX event - Dom.left (Dom.scrollRect sc)
                     + Dom.scrollLeft sc in
      let canvasY := Dom.clientY event - Dom.top (Dom.scrollRect sc)
                     + Dom.scrollTop sc in
      exists newItem,
        items st' = items st ++ [newItem] /\
        onGrid (x (position newItem)) /\ onGrid (y (position newItem)) /\
        canvasX - 10 < x (position newItem) <= canvasX + 10 /\
        canvasY - 10 < y (position newItem) <= canvasY + 10) /\
  (forall numberToString now event label type st,
      Workstatus.createNewItemFromToolbar numberToString now None
        event label type st = st) /\
  (forall numberToString now px py st dragType,
      toolbarDragType st = Some dragType ->
      toolbarDragLabel st <> EmptyString ->
      let st' :=
        WorkstatusJsonServer.createItemAtPosition numberToString now px py
          st in
      positionAt st' (List.length (items st))
      = Some {| x := px - 70; y := py - 32 |}).
Proof.
  split; [|split].
  - intros n2s now sc event label type st st' canvasX canvasY.
    subst st'; unfold Workstatus.createNewItemFromToolbar.
    rewrite saveCanvasState_items.
    unfold Workstatus.refreshArrows; cbn [items setGraph setCounters].
    eexists; split; [reflexivity|].
    cbn [position x y].
    split; [apply snap_onGrid|].
    split; [apply snap_onGrid|].
    split; apply snap_nearest.
  - reflexivity.
  - intros n2s now px py st dragType Htype Hlabel st'; subst st'.
    unfold WorkstatusJsonServer.createItemAtPosition.
    rewrite Htype.
    apply String.eqb_neq in Hlabel; rewrite Hlabel.
    unfold WorkstatusJsonServer.getDefaultProperties.
    destruct (find _ (workflowData st));
      destruct (String.eqb (toolbarDragLabel st) "Action 2");
      unfold positionAt; rewrite saveCanvasState_items;
      unfold WorkstatusJsonServer.refreshArrows, 
        WorkstatusJsonServer.getDefaultProperties;
      cbn [items setGraph setCounters setDrag workflowData sequenceCounter];
      repeat match goal with
        | |- context [find ?f ?l] => destruct (find f l)
        end;
      cbn [items setGraph setCounters setDrag];
      rewrite ?nth_error_app1 by (rewrite length_app; simpl; lia);
      rewrite nth_error_app2, Nat.sub_diag by lia; reflexivity.
Qed.

Lemma C9_witness :
  positionAt
    (WorkstatusJsonServer.createItemAtPosition (fun _ => EmptyString)
       "2026-01-01 00:00:00" 100 100 action1Picked)
    (List.length (items action1Picked))
  = Some {| x := 100 - 70; y := 100 - 32 |}.
Proof.
  assert (Hlabel : toolbarDragLabel action1Picked <> EmptyString)
    by discriminate.
  exact (proj2 (proj2 C9_drop_position) (fun _ => EmptyString)
           "2026-01-01 00:00:00"%string 100 100 action1Picked action1
           eq_refl Hlabel).
Defined.

End DropClaims.

(** * The rest of the components *)

(** ** Writing to an element of an array *)

Module Arrays.

(** [l[i].field = v]: the element at [i] is replaced by its image. *)
Fixpoint updateAt {A : Type} (i : nat) (f : A -> A) (l : list A) : list A :=
  match l, i with
  | [], _ => []
  | a :: rest, O => f a :: rest
  | a :: rest, S j => a :: updateAt j f rest
  end.

End Arrays.

(** ** CanvaworkComponent: pointer gestures and new objects *)

Module CanvaworkGestures.

(** The values given to [canvas.style.cursor]. *)
Inductive Cursor := grab | grabbing | move | pointer.

(** The component: the viewport and objects of [Canvawork.State], and
    the fields of the gestures.  [selectedObject] is a reference to an
    element of [objects]. *)
Record Component := {
  view : Canvawork.State;
  isPanning : bool;
  isDraggingObject : bool;
  lastX : R;
  lastY : R;
  selectedObject : option nat;
  dragOffsetX : R;
  dragOffsetY : R;
  nextId : Z;
  cursor : option Cursor
}.

Definition start : Component :=
  {| view := Canvawork.initial [];
     isPanning := false; isDraggingObject := false;
     lastX := 0; lastY := 0; selectedObject := None;
     dragOffsetX := 0; dragOffsetY := 0; nextId := 1; cursor := None |}.

Definition withObjects (objs : list Canvawork.CanvasObject)
  (st : Canvawork.State) : Canvawork.State :=
  {| Canvawork.offsetX := Canvawork.offsetX st;
     Canvawork.offsetY := Canvawork.offsetY st;
     Canvawork.scale := Canvawork.scale st;
     Canvawork.objects := objs |}.

Definition moveObject (px py : R) (obj : Canvawork.CanvasObject)
  : Canvawork.CanvasObject :=
  {| Canvawork.id := Canvawork.id obj; Canvawork.type := Canvawork.type obj;
     Canvawork.x := px; Canvawork.y := py;
     Canvawork.width := Canvawork.width obj;
     Canvawork.height := Canvawork.height obj;
     Canvawork.radius := Canvawork.radius obj;
     Canvawork.color := Canvawork.color obj |}.

(** [initializeObjects]: the three sample objects. *)
Definition initializeObjects (c : Component) : Component :=
  {| view :=
       withObjects
         [ {| Canvawork.id := nextId c; Canvawork.type := Canvawork.rectangle;
              Canvawork.x := 100; Canvawork.y := 100;
              Canvawork.width := Some 100; Canvawork.height := Some 100;
              Canvawork.radius := None; Canvawork.color := "#4CAF50" |};
           {| Canvawork.id := (nextId c + 1)%Z;
              Canvawork.type := Canvawork.circle;
              Canvawork.x := 300; Canvawork.y := 150;
              Canvawork.width := None; Canvawork.height := None;
              Canvawork.radius := Some 50; Canvawork.color := "#2196F3" |};
           {| Canvawork.id := (nextId c + 2)%Z;
              Canvawork.type := Canvawork.triangle;
              Canvawork.x := 500; Canvawork.y := 100;
              Canvawork.width := Some 100; Canvawork.height := Some 100;
              Canvawork.radius := None; Canvawork.color := "#FF9800" |} ]
         (view c);
     isPanning := isPanning c; isDraggingObject := isDraggingObject c;
     lastX := lastX c; lastY := lastY c;
     selectedObject := selectedObject c;
     dragOffsetX := dragOffsetX c; dragOffsetY := dragOffsetY c;
     nextId := (nextId c + 3)%Z; cursor := cursor c |}.

Definition onMouseDown (canvas : Dom.Canvas) (event : Dom.MouseEvent)
  (c : Component) : Component :=
  let mouseX := Dom.clientX event - Dom.left (Dom.rect canvas) in
  let mouseY := Dom.clientY event - Dom.top (Dom.rect canvas) in
  let worldX := (mouseX - Canvawork.offsetX (view c))
                / Canvawork.scale (view c) in
  let worldY := (mouseY - Canvawork.offsetY (view c))
                / Canvawork.scale (view c) in
  match Canvawork.getObjectAtPosition worldX worldY (view c) with
  | Some i =>
      (* the hit test returns the index of an object *)
      match nth_error (Canvawork.objects (view c)) i with
      | Some obj =>
          {| view := view c; isPanning := isPanning c;
             isDraggingObject := true;
             lastX := Dom.clientX event; lastY := Dom.clientY event;
             selectedObject := Some i;
             dragOffsetX := worldX - Canvawork.x obj;
             dragOffsetY := worldY - Canvawork.y obj;
             nextId := nextId c; cursor := Some move |}
      | None => c
      end
  | None =>
      {| view := view c; isPanning := true;
         isDraggingObject := isDraggingObject c;
         lastX := Dom.clientX event; lastY := Dom.clientY event;
         selectedObject := None;
         dragOffsetX := dragOffsetX c; dragOffsetY := dragOffsetY c;
         nextId := nextId c; cursor := Some grabbing |}
  end.

Definition onMouseMove (canvas : Dom.Canvas) (event : Dom.MouseEvent)
  (c : Component) : Component :=
  let mouseX := Dom.clientX event - Dom.left (Dom.rect canvas) in
  let mouseY := Dom.clientY event - Dom.top (Dom.rect canvas) in
  let worldX := (mouseX - Canvawork.offsetX (view c))
                / Canvawork.scale (view c) in
  let worldY := (mouseY - Canvawork.offsetY (view c))
                / Canvawork.scale (view c) in
  match isDraggingObject c, selectedObject c with
  | true, Some i =>
      {| view :=
           withObjects
             (Arrays.updateAt i
                (moveObject (worldX - dragOffsetX c) (worldY - dragOffsetY c))
                (Canvawork.objects (view c)))
             (view c);
         isPanning := isPanning c; isDraggingObject := true;
         lastX := lastX c; lastY := lastY c;
         selectedObject := Some i;
         dragOffsetX := dragOffsetX c; dragOffsetY := dragOffsetY c;
         nextId := nextId c; cursor := cursor c |}
  | _, _ =>
      if isPanning c then
        let deltaX := Dom.clientX event - lastX c in
        let deltaY := Dom.clientY event - lastY c in
        {| view :=
             {| Canvawork.offsetX := Canvawork.offsetX (view c) + deltaX;
                Canvawork.offsetY := Canvawork.offsetY (view c) + deltaY;
                Canvawork.scale := Canvawork.scale (view c);
                Canvawork.objects := Canvawork.objects (view c) |};
           isPanning := true; isDraggingObject := isDraggingObject c;
           lastX := Dom.clientX event; lastY := Dom.clientY event;
           selectedObject := selectedObject c;
           dragOffsetX := dragOffsetX c; dragOffsetY := dragOffsetY c;
           nextId := nextId c; cursor := cursor c |}
      else
        let hoveredObject :=
          Canvawork.getObjectAtPosition worldX worldY (view c) in
        {| view := view c; isPanning := false;
           isDraggingObject := isDraggingObject c;
           lastX := lastX c; lastY := lastY c;
           selectedObject := selectedObject c;
           dragOffsetX := dragOffsetX c; dragOffsetY := dragOffsetY c;
           nextId := nextId c;
           cursor := Some (match hoveredObject with
                           | Some _ => pointer
                           | None => grab
                           end) |}
  end.

(** [onMouseUp] and [onMouseLeave] have the same body. *)
Definition onMouseUp (c : Component) : Component :=
  {| view := view c; isPanning := false; isDraggingObject := false;
     lastX := lastX c; lastY := lastY c; selectedObject := None;
     dragOffsetX := dragOffsetX c; dragOffsetY := dragOffsetY c;
     nextId := nextId c; cursor := Some grab |}.

Definition onMouseLeave (c : Component) : Component := onMouseUp c.

(** [this.objects.push({ id: this.nextId++, ... })]; the colour is the
    one [getRandomColor] draws. *)
Definition push (obj : Canvawork.CanvasObject) (c : Component) : Component :=
  {| view := Canvawork.addObject obj (view c);
     isPanning := isPanning c; isDraggingObject := isDraggingObject c;
     lastX := lastX c; lastY := lastY c;
     selectedObject := selectedObject c;
     dragOffsetX := dragOffsetX c; dragOffsetY := dragOffsetY c;
     nextId := (nextId c + 1)%Z; cursor := cursor c |}.

Definition addRectangle (color : string) (c : Component) : Component :=
  push {| Canvawork.id := nextId c; Canvawork.type := Canvawork.rectangle;
          Canvawork.x := 100; Canvawork.y := 100;
          Canvawork.width := Some 100; Canvawork.height := Some 100;
          Canvawork.radius := None; Canvawork.color := color |} c.

Definition addCircle (color : string) (c : Component) : Component :=
  push {| Canvawork.id := nextId c; Canvawork.type := Canvawork.circle;
          Canvawork.x := 150; Canvawork.y := 150;
          Canvawork.width := None; Canvawork.height := None;
          Canvawork.radius := Some 50; Canvawork.color := color |} c.

Definition addTriangle (color : string) (c : Component) : Component :=
  push {| Canvawork.id := nextId c; Canvawork.type := Canvawork.triangle;
          Canvawork.x := 200; Canvawork.y := 100;
          Canvawork.width := Some 100; Canvawork.height := Some 100;
          Canvawork.radius := None; Canvawork.color := color |} c.

(** The operations on objects a user can perform between two
    gestures. *)
Inductive Edit :=
| AddRectangle (color : string)
| AddCircle (color : string)
| AddTriangle (color : string).

Definition edit (c : Component) (e : Edit) : Component :=
  match e with
  | AddRectangle color => addRectangle color c
  | AddCircle color => addCircle color c
  | AddTriangle color => addTriangle color c
  end.

End CanvaworkGestures.

(** ** CanvaspaceComponent: pointer gestures, objects and grid *)

Module CanvaspaceGestures.

Record Component := {
  view : Canvaspace.State;
  isDragging : bool;
  dragStartX : R;
  dragStartY : R;
  lastX : R;
  lastY : R;
  showGrid : bool;
  selectedObject : option nat;
  isMovingObject : bool
}.

(** The component after [ngOnInit]. *)
Definition start : Component :=
  {| view :=
       Canvaspace.initial
         [ {| Canvaspace.id := "1"; Canvaspace.x := 100; Canvaspace.y := 100;
              Canvaspace.width := 100; Canvaspace.height := 100;
              Canvaspace.type := Canvaspace.rectangle;
              Canvaspace.color := "#3498db"; Canvaspace.label := None |};
           {| Canvaspace.id := "2"; Canvaspace.x := 300; Canvaspace.y := 150;
              Canvaspace.width := 80; Canvaspace.height := 80;
              Canvaspace.type := Canvaspace.circle;
              Canvaspace.color := "#e74c3c"; Canvaspace.label := None |};
           {| Canvaspace.id := "3"; Canvaspace.x := 150; Canvaspace.y := 300;
              Canvaspace.width := 150; Canvaspace.height := 50;
              Canvaspace.type := Canvaspace.text;
              Canvaspace.color := "#2ecc71";
              Canvaspace.label := Some "Hello Canvas!"%string |} ];
     isDragging := false; dragStartX := 0; dragStartY := 0;
     lastX := 0; lastY := 0; showGrid := true;
     selectedObject := None; isMovingObject := false |}.


Definition withObjects (objs : list Canvaspace.CanvasObject)
  (st : Canvaspace.State) : Canvaspace.State :=
  {| Canvaspace.scale := Canvaspace.scale st;
     Canvaspace.offsetX := Canvaspace.offsetX st;
     Canvaspace.offsetY := Canvaspace.offsetY st;
     Canvaspace.objects := objs |}.

Definition moveObject (px py : R) (obj : Canvaspace.CanvasObject)
  : Canvaspace.CanvasObject :=
  {| Canvaspace.id := Canvaspace.id obj;
     Canvaspace.x := px; Canvaspace.y := py;
     Canvaspace.width := Canvaspace.width obj;
     Canvaspace.height := Canvaspace.height obj;
     Canvaspace.type := Canvaspace.type obj;
     Canvaspace.color := Canvaspace.color obj;
     Canvaspace.label := Canvaspace.label obj |}.

Definition onMouseDown (canvas : Dom.Canvas) (event : Dom.MouseEvent)
  (c : Component) : Component :=
  let mouseX := Dom.clientX event - Dom.left (Dom.rect canvas) in
  let mouseY := Dom.clientY event - Dom.top (Dom.rect canvas) in
  let worldX := (mouseX - Canvaspace.offsetX (view c))
                / Canvaspace.scale (view c) in
  let worldY := (mouseY - Canvaspace.offsetY (view c))
                / Canvaspace.scale (view c) in
  match Canvaspace.getObjectAtPosition worldX worldY (view c) with
  | Some i =>
      (* the hit test returns the index of an object *)
      match nth_error (Canvaspace.objects (view c)) i with
      | Some clickedObject =>
          {| view := view c; isDragging := isDragging c;
             dragStartX := worldX - Canvaspace.x clickedObject;
             dragStartY := worldY - Canvaspace.y clickedObject;
             lastX := mouseX; lastY := mouseY;
             showGrid := showGrid c;
             selectedObject := Some i; isMovingObject := true |}
      | None => c
      end
  | None =>
      {| view := view c; isDragging := true;
         dragStartX := mouseX - Canvaspace.offsetX (view c);
         dragStartY := mouseY - Canvaspace.offsetY (view c);
         lastX := mouseX; lastY := mouseY;
         showGrid := showGrid c;
         selectedObject := selectedObject c;
         isMovingObject := isMovingObject c |}
  end.

Definition onMouseMove (canvas : Dom.Canvas) (event : Dom.MouseEvent)
  (c : Component) : Component :=
  let mouseX := Dom.clientX event - Dom.left (Dom.rect canvas) in
  let mouseY := Dom.clientY event - Dom.top (Dom.rect canvas) in
  match isMovingObject c, selectedObject c with
  | true, Some i =>
      let worldX := (mouseX - Canvaspace.offsetX (view c))
                    / Canvaspace.scale (view c) in
      let worldY := (mouseY - Canvaspace.offsetY (view c))
                    / Canvaspace.scale (view c) in
      {| view :=
           withObjects
             (Arrays.updateAt i
                (moveObject (worldX - dragStartX c) (worldY - dragStartY c))
                (Canvaspace.objects (view c)))
             (view c);
         isDragging := isDragging c;
         dragStartX := dragStartX c; dragStartY := dragStartY c;
         lastX := mouseX; lastY := mouseY;
         showGrid := showGrid c;
         selectedObject := Some i; isMovingObject := true |}
  | _, _ =>
      {| view :=
           if isDragging c then
             {| Canvaspace.scale := Canvaspace.scale (view c);
                Canvaspace.offsetX := mouseX - dragStartX c;
                Canvaspace.offsetY := mouseY - dragStartY c;
                Canvaspace.objects := Canvaspace.objects (view c) |}
           else view c;
         isDragging := isDragging c;
         dragStartX := dragStartX c; dragStartY := dragStartY c;
         lastX := mouseX; lastY := mouseY;
         showGrid := showGrid c;
         selectedObject := selectedObject c;
         isMovingObject := isMovingObject c |}
  end.

(** [onMouseUp] keeps the selection. *)
Definition onMouseUp (c : Component) : Component :=
  {| view := view c; isDragging := false;
     dragStartX := dragStartX c; dragStartY := dragStartY c;
     lastX := lastX c; lastY := lastY c;
     showGrid := showGrid c;
     selectedObject := selectedObject c; isMovingObject := false |}.

Definition toggleGrid (c : Component) : Component :=
  {| view := view c; isDragging := isDragging c;
     dragStartX := dragStartX c; dragStartY := dragStartY c;
     lastX := lastX c; lastY := lastY c;
     showGrid := negb (showGrid c);
     selectedObject := selectedObject c;
     isMovingObject := isMovingObject c |}.

Definition withView (v : Canvaspace.State) (c : Component) : Component :=
  {| view := v; isDragging := isDragging c;
     dragStartX := dragStartX c; dragStartY := dragStartY c;
     lastX := lastX c; lastY := lastY c;
     showGrid := showGrid c;
     selectedObject := selectedObject c;
     isMovingObject := isMovingObject c |}.

(** [addRectangle] and [addCircle]: a 100 by 100 object 50 units inside
    the top left corner of the view; [now] is [Date.now().toString()]
    and [color] the colour [getRandomColor] draws. *)
Definition newObject (type : Canvaspace.ShapeType) (now color : string)
  (c : Component) : Canvaspace.CanvasObject :=
  {| Canvaspace.id := now;
     Canvaspace.x :=
       - Canvaspace.offsetX (view c) / Canvaspace.scale (view c) + 50;
     Canvaspace.y :=
       - Canvaspace.offsetY (view c) / Canvaspace.scale (view c) + 50;
     Canvaspace.width := 100; Canvaspace.height := 100;
     Canvaspace.type := type; Canvaspace.color := color;
     Canvaspace.label := None |}.

Definition addRectangle (now color : string) (c : Component) : Component :=
  withView (Canvaspace.addObject
              (newObject Canvaspace.rectangle now color c) (view c)) c.

Definition addCircle (now color : string) (c : Component) : Component :=
  withView (Canvaspace.addObject
              (newObject Canvaspace.circle now color c) (view c)) c.

(** [deleteSelected]: the objects that carry the id of the selected
    object go, and the selection with them. *)
Definition deleteSelected (c : Component) : Component :=
  match selectedObject c with
  | Some i =>
      match nth_error (Canvaspace.objects (view c)) i with
      | Some selected =>
          {| view :=
               withObjects
                 (filter (fun obj =>
                            negb (String.eqb (Canvaspace.id obj)
                                             (Canvaspace.id selected)))
                         (Canvaspace.objects (view c)))
                 (view c);
             isDragging := isDragging c;
             dragStartX := dragStartX c; dragStartY := dragStartY c;
             lastX := lastX c; lastY := lastY c;
             showGrid := showGrid c;
             selectedObject := None;
             isMovingObject := isMovingObject c |}
      | None => c
      end
  | None => c
  end.








End CanvaspaceGestures.

(** ** Facts on array writes *)

Module ArraysFacts.
Import Arrays.

Lemma updateAt_length {A} i (f : A -> A) l :
  List.length (updateAt i f l) = List.length l.
Proof.
  revert i; induction l as [|a rest IH]; intros [|i]; simpl;
    try reflexivity.
  rewrite IH; reflexivity.
Qed.

Lemma updateAt_nth {A} i (f : A -> A) l j :
  nth_error (updateAt i f l) j =
  if Nat.eqb j i then option_map f (nth_error l j) else nth_error l j.
Proof.
  revert i j; induction l as [|a rest IH]; intros i j.
  - destruct i, j; simpl; try reflexivity;
      destruct (Nat.eqb j i); reflexivity.
  - destruct i as [|i], j as [|j]; simpl; try reflexivity.
    apply IH.
Qed.

Lemma updateAt_map {A B} (g : A -> B) i (f : A -> A) l :
  (forall a, g (f a) = g a) -> map g (updateAt i f l) = map g l.
Proof.
  intros Hg; revert i; induction l as [|a rest IH]; intros [|i]; simpl;
    try reflexivity.
  - rewrite Hg; reflexivity.
  - rewrite IH; reflexivity.
Qed.

Lemma updateAt_twice {A} i (f g : A -> A) l :
  updateAt i f (updateAt i g l) = updateAt i (fun a => f (g a)) l.
Proof.
  revert i; induction l as [|a rest IH]; intros [|i]; simpl;
    try reflexivity.
  rewrite IH; reflexivity.
Qed.

Lemma last_cons_default {A} (l : list A) a b :
  last (a :: l) b = last l a.
Proof.
  revert a b; induction l as [|c l IH]; intros a b; [reflexivity|].
  change (last (a :: c :: l) b) with (last (c :: l) b).
  rewrite (IH c b), (IH c a); reflexivity.
Qed.

End ArraysFacts.

(** ** CanvaworkComponent: panning, dragging an object, releasing *)

Module CanvaworkGestureFacts.
Import Js JsFacts Arrays ArraysFacts CanvaworkGestures.

(** The pointer of a mouse event, relative to the canvas. *)
Definition mousePoint (canvas : Dom.Canvas) (event : Dom.MouseEvent)
  : R * R :=
  (Dom.clientX event - Dom.left (Dom.rect canvas),
   Dom.clientY event - Dom.top (Dom.rect canvas)).

(** The object under the pointer of an event. *)
Definition objectUnder (canvas : Dom.Canvas) (event : Dom.MouseEvent)
  (c : Component) : option nat :=
  let w := Canvawork.toWorld (mousePoint canvas event) (view c) in
  Canvawork.getObjectAtPosition (fst w) (snd w) (view c).

(** The [mousemove] events of one gesture on one canvas. *)
Definition moves (canvas : Dom.Canvas) (events : list Dom.MouseEvent)
  (c : Component) : Component :=
  fold_left (fun c e => onMouseMove canvas e c) events c.

Lemma hit_is_object px py st i :
  Canvawork.getObjectAtPosition px py st = Some i ->
  exists obj, nth_error (Canvawork.objects st) i = Some obj.
Proof.
  intros H; apply HitTestFacts.scanDown_some in H as (_ & (obj & Hobj & _) & _).
  exists obj; exact Hobj.
Qed.

(** While panning, the offsets follow the pointer. *)
Lemma pan_run canvas events :
  forall c previous,
    isPanning c = true -> selectedObject c = None ->
    lastX c = Dom.clientX previous -> lastY c = Dom.clientY previous ->
    let c' := moves canvas events c in
    let final := last events previous in
    Canvawork.scale (view c') = Canvawork.scale (view c) /\
    Canvawork.objects (view c') = Canvawork.objects (view c) /\
    Canvawork.offsetX (view c')
    = Canvawork.offsetX (view c)
      + (Dom.clientX final - Dom.clientX previous) /\
    Canvawork.offsetY (view c')
    = Canvawork.offsetY (view c)
      + (Dom.clientY final - Dom.clientY previous).
Proof.
  unfold moves.
  induction events as [|e events IH]; intros c previous Hpan Hsel Hx Hy.
  - simpl; repeat split; ring.
  - cbn [fold_left]; rewrite last_cons_default.
    assert (Hstep :
        onMouseMove canvas e c
        = {| view :=
               {| Canvawork.offsetX :=
                    Canvawork.offsetX (view c) + (Dom.clientX e - lastX c);
                  Canvawork.offsetY :=
                    Canvawork.offsetY (view c) + (Dom.clientY e - lastY c);
                  Canvawork.scale := Canvawork.scale (view c);
                  Canvawork.objects := Canvawork.objects (view c) |};
             isPanning := true; isDraggingObject := isDraggingObject c;
             lastX := Dom.clientX e; lastY := Dom.clientY e;
             selectedObject := selectedObject c;
             dragOffsetX := dragOffsetX c; dragOffsetY := dragOffsetY c;
             nextId := nextId c; cursor := cursor c |}).
    { unfold onMouseMove; rewrite Hsel, Hpan.
      destruct (isDraggingObject c); reflexivity. }
    rewrite Hstep.
    match goal with
    | |- context [fold_left _ events ?s] =>
        destruct (IH s e eq_refl Hsel eq_refl eq_refl)
          as (Hs & Ho & Hox & Hoy)
    end.
    cbv zeta; rewrite Hs, Ho, Hox, Hoy; cbn [view Canvawork.scale
      Canvawork.objects Canvawork.offsetX Canvawork.offsetY].
    rewrite Hx, Hy; repeat split; ring.
Qed.

Lemma updateAt_ext {A} i (f g : A -> A) l :
  (forall a, f a = g a) -> updateAt i f l = updateAt i g l.
Proof.
  intros H; revert i; induction l as [|a rest IH]; intros [|i]; simpl;
    try reflexivity.
  - rewrite H; reflexivity.
  - rewrite IH; reflexivity.
Qed.

(** The world point under the pointer of an event. *)
Definition worldUnder (canvas : Dom.Canvas) (event : Dom.MouseEvent)
  (c : Component) : R * R :=
  Canvawork.toWorld (mousePoint canvas event) (view c).

(** While an object is dragged, it sits where the last event puts it
    and the viewport stays. *)
Lemma drag_run canvas events :
  forall c e i,
    isDraggingObject c = true -> selectedObject c = Some i ->
    let c' := moves canvas (e :: events) c in
    let final := last events e in
    Canvawork.offsetX (view c') = Canvawork.offsetX (view c) /\
    Canvawork.offsetY (view c') = Canvawork.offsetY (view c) /\
    Canvawork.scale (view c') = Canvawork.scale (view c) /\
    Canvawork.objects (view c')
    = updateAt i
        (moveObject (fst (worldUnder canvas final c) - dragOffsetX c)
                    (snd (worldUnder canvas final c) - dragOffsetY c))
        (Canvawork.objects (view c)).
Proof.
  unfold moves.
  induction events as [|e2 events IH]; intros c e i Hdrag Hsel.
  - cbn [fold_left last]; unfold onMouseMove; rewrite Hdrag, Hsel.
    repeat split; reflexivity.
  - change (fold_left (fun c e => onMouseMove canvas e c)
              (e :: e2 :: events) c)
      with (fold_left (fun c e => onMouseMove canvas e c) (e2 :: events)
              (onMouseMove canvas e c)).
    rewrite last_cons_default.
    set (c1 := onMouseMove canvas e c).
    assert (H1 : isDraggingObject c1 = true /\ selectedObject c1 = Some i /\
                 dragOffsetX c1 = dragOffsetX c /\
                 dragOffsetY c1 = dragOffsetY c /\
                 Canvawork.offsetX (view c1) = Canvawork.offsetX (view c) /\
                 Canvawork.offsetY (view c1) = Canvawork.offsetY (view c) /\
                 Canvawork.scale (view c1) = Canvawork.scale (view c) /\
                 exists px py,
                   Canvawork.objects (view c1)
                   = updateAt i (moveObject px py)
                       (Canvawork.objects (view c))).
    { unfold c1, onMouseMove; rewrite Hdrag, Hsel; simpl.
      repeat split; eexists _, _; reflexivity. }
    destruct H1 as (Hd1 & Hs1 & Hgx & Hgy & Hox & Hoy & Hsc & px & py & Hobj).
    destruct (IH c1 e2 i Hd1 Hs1) as (Ax & Ay & As & Aobj).
    cbv zeta; rewrite Ax, Ay, As, Aobj, Hox, Hoy, Hsc, Hobj, Hgx, Hgy.
    repeat split.
    rewrite updateAt_twice.
    unfold worldUnder, Canvawork.toWorld; rewrite Hox, Hoy, Hsc.
    apply updateAt_ext; intros a; reflexivity.
Qed.

(** With no button down, moving the pointer changes the cursor only. *)
Lemma idle_run canvas events :
  forall c,
    isPanning c = false -> isDraggingObject c = false ->
    view (moves canvas events c) = view c.
Proof.
  unfold moves.
  induction events as [|e events IH]; intros c Hpan Hdrag; [reflexivity|].
  cbn [fold_left].
  assert (H1 : let c1 := onMouseMove canvas e c in
               isPanning c1 = false /\ isDraggingObject c1 = false /\
               view c1 = view c).
  { unfold onMouseMove; rewrite Hpan, Hdrag; simpl; auto. }
  destruct H1 as (Hp & Hd & Hv).
  rewrite (IH _ Hp Hd); exact Hv.
Qed.

End CanvaworkGestureFacts.

Section CanvaworkGestureProperties.
Import Js JsFacts Arrays ArraysFacts CanvaworkGestures CanvaworkGestureFacts.

(** A press on empty canvas starts a pan: whatever [mousemove] events
    follow, the scale and the objects stay, the offsets have moved by
    the displacement of the pointer since the press, and the world point
    that was under the pointer at the press is under it still. *)
Theorem canvawork_pan_keeps_grabbed_point :
  forall canvas press events c,
    objectUnder canvas press c = None ->
    let c' := moves canvas events (onMouseDown canvas press c) in
    let final := last events press in
    Canvawork.scale (view c') = Canvawork.scale (view c) /\
    Canvawork.objects (view c') = Canvawork.objects (view c) /\
    Canvawork.offsetX (view c')
    = Canvawork.offsetX (view c)
      + (Dom.clientX final - Dom.clientX press) /\
    Canvawork.offsetY (view c')
    = Canvawork.offsetY (view c)
      + (Dom.clientY final - Dom.clientY press) /\
    worldUnder canvas final c' = worldUnder canvas press c.
Proof.
  intros canvas press events c Hmiss c' final.
  assert (Hdown :
      onMouseDown canvas press c
      = {| view := view c; isPanning := true;
           isDraggingObject := isDraggingObject c;
           lastX := Dom.clientX press; lastY := Dom.clientY press;
           selectedObject := None;
           dragOffsetX := dragOffsetX c; dragOffsetY := dragOffsetY c;
           nextId := nextId c; cursor := Some grabbing |}).
  { unfold objectUnder, Canvawork.toWorld, mousePoint in Hmiss;
      cbn [fst snd] in Hmiss.
    unfold onMouseDown; rewrite Hmiss; reflexivity. }
  destruct (pan_run canvas events (onMouseDown canvas press c) press)
    as (Hs & Ho & Hx & Hy); try (rewrite Hdown; reflexivity).
  fold c' final in Hs, Ho, Hx, Hy.
  rewrite Hdown in Hs, Ho, Hx, Hy; cbn [view] in Hs, Ho, Hx, Hy.
  repeat split; try assumption.
  unfold worldUnder, Canvawork.toWorld, mousePoint; cbn [fst snd].
  rewrite Hs, Hx, Hy; f_equal; f_equal; ring.
Qed.

(** A press on an object starts a drag of that object: after any
    [mousemove] events the viewport is as it was, the other objects are
    as they were, and the dragged object has kept everything but its
    position, which is such that the pointer is over the same point of
    the object as at the press. *)
Theorem canvawork_drag_follows_pointer :
  forall canvas press e events c i,
    objectUnder canvas press c = Some i ->
    let c' := moves canvas (e :: events) (onMouseDown canvas press c) in
    let final := last events e in
    Canvawork.offsetX (view c') = Canvawork.offsetX (view c) /\
    Canvawork.offsetY (view c') = Canvawork.offsetY (view c) /\
    Canvawork.scale (view c') = Canvawork.scale (view c) /\
    (forall j, j <> i ->
               nth_error (Canvawork.objects (view c')) j
               = nth_error (Canvawork.objects (view c)) j) /\
    exists obj obj',
      nth_error (Canvawork.objects (view c)) i = Some obj /\
      nth_error (Canvawork.objects (view c')) i = Some obj' /\
      obj' = moveObject (Canvawork.x obj') (Canvawork.y obj') obj /\
      fst (worldUnder canvas final c') - Canvawork.x obj'
      = fst (worldUnder canvas press c) - Canvawork.x obj /\
      snd (worldUnder canvas final c') - Canvawork.y obj'
      = snd (worldUnder canvas press c) - Canvawork.y obj.
Proof.
  intros canvas press e events c i Hhit c' final.
  unfold objectUnder in Hhit.
  destruct (hit_is_object _ _ _ _ Hhit) as (obj & Hobj).
  assert (Hdown :
      onMouseDown canvas press c
      = {| view := view c; isPanning := isPanning c;
           isDraggingObject := true;
           lastX := Dom.clientX press; lastY := Dom.clientY press;
           selectedObject := Some i;
           dragOffsetX := fst (worldUnder canvas press c) - Canvawork.x obj;
           dragOffsetY := snd (worldUnder canvas press c) - Canvawork.y obj;
           nextId := nextId c; cursor := Some move |}).
  { unfold Canvawork.toWorld, mousePoint in Hhit; cbn [fst snd] in Hhit.
    unfold onMouseDown; rewrite Hhit, Hobj; reflexivity. }
  destruct (drag_run canvas events (onMouseDown canvas press c) e i)
    as (Hx & Hy & Hs & Hobjs); try (rewrite Hdown; reflexivity).
  fold c' final in Hx, Hy, Hs, Hobjs.
  assert (Hw : worldUnder canvas final (onMouseDown canvas press c)
               = worldUnder canvas final c)
    by (rewrite Hdown; reflexivity).
  assert (Hw' : worldUnder canvas final c' = worldUnder canvas final c).
  { unfold worldUnder, Canvawork.toWorld; rewrite Hx, Hy, Hs, Hdown.
    reflexivity. }
  rewrite Hw in Hobjs.
  rewrite Hdown in Hx, Hy, Hs, Hobjs;
    cbn [view dragOffsetX dragOffsetY] in Hx, Hy, Hs, Hobjs.
  split; [exact Hx|]; split; [exact Hy|]; split; [exact Hs|]; split.
  - intros j Hj; rewrite Hobjs, updateAt_nth.
    apply Nat.eqb_neq in Hj; rewrite Hj; reflexivity.
  - exists obj; eexists; split; [exact Hobj|]; split.
    + rewrite Hobjs, updateAt_nth, Nat.eqb_refl, Hobj; reflexivity.
    + rewrite Hw'; cbn [Canvawork.x Canvawork.y moveObject].
      split; [reflexivity|]; split; ring.
Qed.

(** After the button is released, or the pointer has left the canvas,
    moving the pointer changes neither the viewport nor any object. *)
Theorem canvawork_release_ends_gesture :
  forall canvas events c,
    view (moves canvas events (onMouseUp c)) = view c /\
    view (moves canvas events (onMouseLeave c)) = view c.
Proof.
  intros canvas events c; split;
    apply (idle_run canvas events (onMouseUp c)); reflexivity.
Qed.

End CanvaworkGestureProperties.

Section CanvaworkGestureWitnesses.
Import Js JsFacts Arrays ArraysFacts CanvaworkGestures CanvaworkGestureFacts.

Definition pressHere : Dom.MouseEvent :=
  {| Dom.clientX := 160; Dom.clientY := 170 |}.

Definition moveThere : Dom.MouseEvent :=
  {| Dom.clientX := 200; Dom.clientY := 140 |}.

(** The component with the single rectangle [addRectangle] creates. *)
Definition oneRectangle : Component := addRectangle "#4CAF50" start.

Lemma pressHere_hits : objectUnder sampleCanvas pressHere oneRectangle = Some 0%nat.
Proof.
  unfold objectUnder, Canvawork.getObjectAtPosition; simpl.
  replace (Canvawork.contains _ _ _) with true; [reflexivity|].
  symmetry; apply canvawork_contains_spec.
  exists 100, 100; unfold inBox; simpl.
  split; [reflexivity|]; split; [reflexivity|]; lra.
Qed.

Lemma canvawork_pan_witness :
  objectUnder sampleCanvas pressHere start = None /\
  worldUnder sampleCanvas moveThere
    (moves sampleCanvas [moveThere] (onMouseDown sampleCanvas pressHere start))
  = worldUnder sampleCanvas pressHere start.
Proof.
  split; [reflexivity|].
  apply (canvawork_pan_keeps_grabbed_point sampleCanvas pressHere
           [moveThere] start eq_refl).
Defined.

Lemma canvawork_drag_witness :
  objectUnder sampleCanvas pressHere oneRectangle = Some 0%nat /\
  Canvawork.scale
    (view (moves sampleCanvas [moveThere]
             (onMouseDown sampleCanvas pressHere oneRectangle)))
  = Canvawork.scale (view oneRectangle).
Proof.
  split; [exact pressHere_hits|].
  apply (canvawork_drag_follows_pointer sampleCanvas pressHere moveThere []
           oneRectangle 0%nat pressHere_hits).
Defined.

End CanvaworkGestureWitnesses.

Section CanvaworkInvariant.
Import Js JsFacts Arrays ArraysFacts CanvaworkGestures CanvaworkGestureFacts.
Import ViewportFacts.

(** Everything a user can do to the component. *)
Inductive Action :=
| Press (canvas : Dom.Canvas) (event : Dom.MouseEvent)
| Move (canvas : Dom.Canvas) (event : Dom.MouseEvent)
| Release
| Leave
| Zoom (op : Canvawork.ZoomOp)
| Reset
| Change (e : Edit).

Definition withView (v : Canvawork.State) (c : Component) : Component :=
  {| view := v; isPanning := isPanning c;
     isDraggingObject := isDraggingObject c;
     lastX := lastX c; lastY := lastY c;
     selectedObject := selectedObject c;
     dragOffsetX := dragOffsetX c; dragOffsetY := dragOffsetY c;
     nextId := nextId c; cursor := cursor c |}.

Definition perform (c : Component) (a : Action) : Component :=
  match a with
  | Press canvas event => onMouseDown canvas event c
  | Move canvas event => onMouseMove canvas event c
  | Release => onMouseUp c
  | Leave => onMouseLeave c
  | Zoom op => withView (Canvawork.apply (view c) op) c
  | Reset => withView (Canvawork.resetView (view c)) c
  | Change e => edit c e
  end.

(** What holds of the component at all times. *)
Definition sound (c : Component) : Prop :=
  NoDup (map Canvawork.id (Canvawork.objects (view c))) /\
  (1 <= nextId c)%Z /\
  (forall obj, In obj (Canvawork.objects (view c)) ->
               (1 <= Canvawork.id obj < nextId c)%Z) /\
  canvaworkInRange (view c) /\
  (forall i, selectedObject c = Some i ->
             (i < List.length (Canvawork.objects (view c)))%nat).

(** Soundness depends on the objects up to their positions, on
    [nextId], on the scale and on the selection. *)
Lemma sound_transfer c c' :
  map Canvawork.id (Canvawork.objects (view c'))
  = map Canvawork.id (Canvawork.objects (view c)) ->
  nextId c' = nextId c ->
  canvaworkInRange (view c') ->
  (forall i, selectedObject c' = Some i ->
             (i < List.length (Canvawork.objects (view c)))%nat) ->
  sound c -> sound c'.
Proof.
  intros Hids Hnext Hr Hsel (Hnd & H1 & Hb & _ & _).
  assert (Hlen : List.length (Canvawork.objects (view c'))
                 = List.length (Canvawork.objects (view c))).
  { rewrite <- (length_map Canvawork.id), Hids, length_map; reflexivity. }
  unfold sound; rewrite Hids, Hnext, Hlen.
  split; [exact Hnd|]; split; [exact H1|]; split; [|split; assumption].
  intros obj Hin.
  assert (Hi : In (Canvawork.id obj)
                  (map Canvawork.id (Canvawork.objects (view c))))
    by (rewrite <- Hids; apply in_map, Hin).
  apply in_map_iff in Hi as (o & Ho & Hin').
  rewrite <- Ho; apply Hb, Hin'.
Qed.

Lemma push_sound obj c :
  Canvawork.id obj = nextId c -> sound c -> sound (push obj c).
Proof.
  intros Hid (Hnd & H1 & Hids & Hr & Hsel).
  unfold sound, push, Canvawork.addObject;
    cbn [view nextId selectedObject Canvawork.objects].
  split; [|split; [|split; [|split]]].
  - rewrite map_app; simpl.
    apply (Permutation_NoDup (l := Canvawork.id obj
                                    :: map Canvawork.id
                                         (Canvawork.objects (view c)))).
    + apply Permutation_cons_append.
    + constructor; [|exact Hnd].
      intros Hin; apply in_map_iff in Hin as (o & Ho & Hin).
      specialize (Hids o Hin); lia.
  - lia.
  - intros o Ho; apply in_app_or in Ho as [Ho|[<-|[]]].
    + specialize (Hids _ Ho); lia.
    + lia.
  - exact Hr.
  - intros i Hi; rewrite length_app; specialize (Hsel i Hi); simpl; lia.
Qed.

Lemma zoom_objects st op :
  Canvawork.objects (Canvawork.apply st op) = Canvawork.objects st.
Proof. destruct op; reflexivity. Qed.

Lemma perform_sound c a : sound c -> sound (perform c a).
Proof.
  intros Hc; pose proof Hc as (Hnd & H1 & Hids & Hr & Hsel).
  destruct a as [canvas e|canvas e| | |op| |ed]; cbn [perform].
  - unfold onMouseDown.
    destruct (Canvawork.getObjectAtPosition _ _ (view c)) as [i|] eqn:Hhit.
    + destruct (hit_is_object _ _ _ _ Hhit) as (obj & Hobj).
      rewrite Hobj.
      apply (sound_transfer c); try reflexivity; try exact Hr; [|exact Hc].
      cbn [selectedObject]; intros j [= <-].
      apply nth_error_Some; congruence.
    + apply (sound_transfer c); try reflexivity; try exact Hr; [|exact Hc].
      cbn [selectedObject]; discriminate.
  - unfold onMouseMove.
    destruct (isDraggingObject c) eqn:Hd;
      destruct (selectedObject c) as [i|] eqn:Hs.
    + apply (sound_transfer c); try exact Hc; try reflexivity;
        try exact Hr.
      * cbn [view withObjects Canvawork.objects].
        apply updateAt_map; reflexivity.
      * cbn [selectedObject]; intros j [= <-]; apply Hsel; reflexivity.
    + destruct (isPanning c);
        apply (sound_transfer c); try exact Hc; try reflexivity;
        try exact Hr; cbn [selectedObject]; discriminate.
    + destruct (isPanning c);
        apply (sound_transfer c); try exact Hc; try reflexivity;
        try exact Hr; cbn [selectedObject]; intros j [= <-];
        apply Hsel; reflexivity.
    + destruct (isPanning c);
        apply (sound_transfer c); try exact Hc; try reflexivity;
        try exact Hr; cbn [selectedObject]; discriminate.
  - apply (sound_transfer c); try exact Hc; try reflexivity; try exact Hr.
    discriminate.
  - apply (sound_transfer c); try exact Hc; try reflexivity; try exact Hr.
    discriminate.
  - apply (sound_transfer c); try exact Hc; try reflexivity.
    + cbn [view withView]; rewrite zoom_objects; reflexivity.
    + apply canvawork_apply_in_range; exact Hr.
    + exact Hsel.
  - apply (sound_transfer c); try exact Hc; try reflexivity.
    + unfold canvaworkInRange, Canvawork.minScale, Canvawork.maxScale;
        simpl; lra.
    + exact Hsel.
  - destruct ed; apply push_sound; solve [reflexivity | exact Hc].
Qed.

(** From the component as [ngAfterViewInit] leaves it, whatever the user
    does - presses, moves, releases, zooms, resets, new objects - the
    objects have pairwise distinct ids, all below [nextId], the scale is
    between [minScale] and [maxScale], and a selected object is an
    element of [objects]. *)
Theorem canvawork_component_stays_sound :
  forall actions,
    let c := fold_left perform actions (initializeObjects start) in
    NoDup (map Canvawork.id (Canvawork.objects (view c))) /\
    (forall obj, In obj (Canvawork.objects (view c)) ->
                 (1 <= Canvawork.id obj < nextId c)%Z) /\
    Canvawork.minScale <= Canvawork.scale (view c) <= Canvawork.maxScale /\
    (forall i, selectedObject c = Some i ->
               exists obj, nth_error (Canvawork.objects (view c)) i = Some obj).
Proof.
  intros actions c.
  assert (Hsound : sound c).
  { subst c.
    assert (H0 : sound (initializeObjects start)).
    { unfold sound; simpl; split; [|split; [|split; [|split]]].
      - repeat constructor; simpl; intuition congruence.
      - lia.
      - intros obj [<-|[<-|[<-|[]]]]; simpl; lia.
      - unfold canvaworkInRange, Canvawork.minScale, Canvawork.maxScale;
          simpl; lra.
      - discriminate. }
    revert H0; generalize (initializeObjects start).
    induction actions as [|a actions IH]; intros c0 H0; simpl; [exact H0|].
    apply IH, perform_sound, H0. }
  destruct Hsound as (Hnd & H1 & Hids & Hr & Hsel).
  split; [exact Hnd|]; split; [exact Hids|]; split; [exact Hr|].
  intros i Hi; specialize (Hsel i Hi).
  destruct (nth_error (Canvawork.objects (view c)) i) as [obj|] eqn:E;
    [exists obj; reflexivity|].
  apply nth_error_None in E; lia.
Qed.

End CanvaworkInvariant.

(** ** CanvaspaceComponent: panning, dragging, objects and grid *)

Module CanvaspaceGestureFacts.
Import Js JsFacts Arrays ArraysFacts CanvaspaceGestures.
Import CanvaworkGestureFacts.

Definition objectUnder (canvas : Dom.Canvas) (event : Dom.MouseEvent)
  (c : Component) : option nat :=
  let w := Canvaspace.toWorld (mousePoint canvas event) (view c) in
  Canvaspace.getObjectAtPosition (fst w) (snd w) (view c).

Definition worldUnder (canvas : Dom.Canvas) (event : Dom.MouseEvent)
  (c : Component) : R * R :=
  Canvaspace.toWorld (mousePoint canvas event) (view c).

Definition moves (canvas : Dom.Canvas) (events : list Dom.MouseEvent)
  (c : Component) : Component :=
  fold_left (fun c e => onMouseMove canvas e c) events c.

Lemma space_hit_is_object px py st i :
  Canvaspace.getObjectAtPosition px py st = Some i ->
  exists obj, nth_error (Canvaspace.objects st) i = Some obj.
Proof.
  intros H; apply HitTestFacts.scanDown_some in H as (_ & (obj & Hobj & _) & _).
  exists obj; exact Hobj.
Qed.

(** While the canvas is dragged, the offsets are the pointer minus the
    point grabbed. *)
Lemma space_pan_run canvas events :
  forall c e,
    isDragging c = true -> isMovingObject c = false ->
    let c' := moves canvas (e :: events) c in
    let final := last events e in
    Canvaspace.scale (view c') = Canvaspace.scale (view c) /\
    Canvaspace.objects (view c') = Canvaspace.objects (view c) /\
    Canvaspace.offsetX (view c')
    = fst (mousePoint canvas final) - dragStartX c /\
    Canvaspace.offsetY (view c')
    = snd (mousePoint canvas final) - dragStartY c.
Proof.
  unfold moves.
  induction events as [|e2 events IH]; intros c e Hpan Hmove.
  - cbn [fold_left last]; unfold onMouseMove; rewrite Hmove, Hpan.
    repeat split; reflexivity.
  - change (fold_left (fun c e => onMouseMove canvas e c)
              (e :: e2 :: events) c)
      with (fold_left (fun c e => onMouseMove canvas e c) (e2 :: events)
              (onMouseMove canvas e c)).
    rewrite last_cons_default.
    set (c1 := onMouseMove canvas e c).
    assert (H1 : isDragging c1 = true /\ isMovingObject c1 = false /\
                 dragStartX c1 = dragStartX c /\
                 dragStartY c1 = dragStartY c /\
                 Canvaspace.scale (view c1) = Canvaspace.scale (view c) /\
                 Canvaspace.objects (view c1) = Canvaspace.objects (view c)).
    { unfold c1, onMouseMove; rewrite Hmove, Hpan; simpl.
      repeat split; assumption. }
    destruct H1 as (Hp1 & Hm1 & Hsx & Hsy & Hsc & Hobj).
    destruct (IH c1 e2 Hp1 Hm1) as (As & Aobj & Ax & Ay).
    cbv zeta; rewrite As, Aobj, Ax, Ay, Hsx, Hsy, Hsc, Hobj.
    repeat split.
Qed.

Lemma space_drag_run canvas events :
  forall c e i,
    isMovingObject c = true -> selectedObject c = Some i ->
    let c' := moves canvas (e :: events) c in
    let final := last events e in
    Canvaspace.offsetX (view c') = Canvaspace.offsetX (view c) /\
    Canvaspace.offsetY (view c') = Canvaspace.offsetY (view c) /\
    Canvaspace.scale (view c') = Canvaspace.scale (view c) /\
    Canvaspace.objects (view c')
    = updateAt i
        (moveObject (fst (worldUnder canvas final c) - dragStartX c)
                    (snd (worldUnder canvas final c) - dragStartY c))
        (Canvaspace.objects (view c)).
Proof.
  unfold moves.
  induction events as [|e2 events IH]; intros c e i Hdrag Hsel.
  - cbn [fold_left last]; unfold onMouseMove; rewrite Hdrag, Hsel.
    repeat split; reflexivity.
  - change (fold_left (fun c e => onMouseMove canvas e c)
              (e :: e2 :: events) c)
      with (fold_left (fun c e => onMouseMove canvas e c) (e2 :: events)
              (onMouseMove canvas e c)).
    rewrite last_cons_default.
    set (c1 := onMouseMove canvas e c).
    assert (H1 : isMovingObject c1 = true /\ selectedObject c1 = Some i /\
                 dragStartX c1 = dragStartX c /\
                 dragStartY c1 = dragStartY c /\
                 Canvaspace.offsetX (view c1) = Canvaspace.offsetX (view c) /\
                 Canvaspace.offsetY (view c1) = Canvaspace.offsetY (view c) /\
                 Canvaspace.scale (view c1) = Canvaspace.scale (view c) /\
                 exists px py,
                   Canvaspace.objects (view c1)
                   = updateAt i (moveObject px py)
                       (Canvaspace.objects (view c))).
    { unfold c1, onMouseMove; rewrite Hdrag, Hsel; simpl.
      repeat split; eexists _, _; reflexivity. }
    destruct H1 as (Hd1 & Hs1 & Hgx & Hgy & Hox & Hoy & Hsc & px & py & Hobj).
    destruct (IH c1 e2 i Hd1 Hs1) as (Ax & Ay & As & Aobj).
    cbv zeta; rewrite Ax, Ay, As, Aobj, Hox, Hoy, Hsc, Hobj, Hgx, Hgy.
    repeat split.
    rewrite updateAt_twice.
    unfold worldUnder, Canvaspace.toWorld; rewrite Hox, Hoy, Hsc.
    apply updateAt_ext; intros a; reflexivity.
Qed.

Lemma space_idle_run canvas events :
  forall c,
    isDragging c = false -> isMovingObject c = false ->
    view (moves canvas events c) = view c /\
    selectedObject (moves canvas events c) = selectedObject c.
Proof.
  unfold moves.
  induction events as [|e events IH]; intros c Hpan Hdrag; [split; reflexivity|].
  cbn [fold_left].
  assert (H1 : let c1 := onMouseMove canvas e c in
               isDragging c1 = false /\ isMovingObject c1 = false /\
               view c1 = view c /\ selectedObject c1 = selectedObject c).
  { unfold onMouseMove; rewrite Hpan, Hdrag; simpl; auto. }
  destruct H1 as (Hp & Hd & Hv & Hs).
  destruct (IH _ Hp Hd) as [Iv Is]; rewrite Iv, Is; split; assumption.
Qed.

(** Removing by id from a list without repeated ids removes the one
    element that has the id. *)
Lemma filter_other_ids {A} (key : A -> string) l :
  NoDup (map key l) ->
  forall i a,
    nth_error l i = Some a ->
    filter (fun b => negb (String.eqb (key b) (key a))) l
    = firstn i l ++ skipn (S i) l.
Proof.
  induction l as [|b l IH]; intros Hnd i a Hi; [destruct i; discriminate|].
  inversion Hnd as [|k ks Hnotin Hnd']; subst.
  destruct i as [|i]; simpl in Hi.
  - injection Hi as ->; simpl; rewrite String.eqb_refl; simpl.
    clear IH Hnd; induction l as [|c l IH]; [reflexivity|].
    simpl in *.
    destruct (String.eqb (key c) (key a)) eqn:E.
    + apply String.eqb_eq in E; exfalso; apply Hnotin; left; exact E.
    + simpl; f_equal; apply IH.
      * intros H; apply Hnotin; right; exact H.
      * inversion Hnd'; assumption.
  - simpl.
    destruct (String.eqb (key b) (key a)) eqn:E.
    + apply String.eqb_eq in E; exfalso; apply Hnotin; rewrite E.
      apply in_map, (nth_error_In _ _ Hi).
    + simpl; f_equal; apply (IH Hnd' i a Hi).
Qed.





End CanvaspaceGestureFacts.

Section CanvaspaceGestureProperties.
Import Js JsFacts Arrays ArraysFacts HitTestFacts.
Import CanvaworkGestureFacts.
Import CanvaspaceGestures CanvaspaceGestureFacts.

(** In CanvaspaceComponent a press on empty canvas, made while no object
    is being moved, starts a pan: whatever [mousemove] events follow,
    the scale and the objects stay, the offsets have moved by the
    displacement of the pointer since the press, and the world point
    that was under the pointer at the press is under it still. *)
Theorem canvaspace_pan_keeps_grabbed_point :
  forall canvas press events c,
    isMovingObject c = false ->
    objectUnder canvas press c = None ->
    let c' := moves canvas events (onMouseDown canvas press c) in
    let final := last events press in
    Canvaspace.scale (view c') = Canvaspace.scale (view c) /\
    Canvaspace.objects (view c') = Canvaspace.objects (view c) /\
    Canvaspace.offsetX (view c')
    = Canvaspace.offsetX (view c)
      + (Dom.clientX final - Dom.clientX press) /\
    Canvaspace.offsetY (view c')
    = Canvaspace.offsetY (view c)
      + (Dom.clientY final - Dom.clientY press) /\
    worldUnder canvas final c' = worldUnder canvas press c.
Proof.
  intros canvas press events c Hidle Hmiss c' final.
  assert (Hdown :
      onMouseDown canvas press c
      = {| view := view c; isDragging := true;
           dragStartX := fst (mousePoint canvas press)
                         - Canvaspace.offsetX (view c);
           dragStartY := snd (mousePoint canvas press)
                         - Canvaspace.offsetY (view c);
           lastX := fst (mousePoint canvas press);
           lastY := snd (mousePoint canvas press);
           showGrid := showGrid c;
           selectedObject := selectedObject c;
           isMovingObject := false |}).
  { unfold objectUnder, Canvaspace.toWorld, mousePoint in Hmiss;
      cbn [fst snd] in Hmiss.
    unfold onMouseDown; rewrite Hmiss, Hidle; reflexivity. }
  assert (Hgoal :
      Canvaspace.scale (view c') = Canvaspace.scale (view c) /\
      Canvaspace.objects (view c') = Canvaspace.objects (view c) /\
      Canvaspace.offsetX (view c')
      = Canvaspace.offsetX (view c)
        + (Dom.clientX final - Dom.clientX press) /\
      Canvaspace.offsetY (view c')
      = Canvaspace.offsetY (view c)
        + (Dom.clientY final - Dom.clientY press)).
  { subst c' final; destruct events as [|e events].
    - cbn [moves fold_left last]; rewrite Hdown; cbn [view].
      repeat split; ring.
    - destruct (space_pan_run canvas events (onMouseDown canvas press c) e)
        as (Hs & Ho & Hx & Hy); try (rewrite Hdown; reflexivity).
      rewrite last_cons_default.
      rewrite Hdown in Hs, Ho, Hx, Hy;
        cbn [view dragStartX dragStartY] in Hs, Ho, Hx, Hy.
      rewrite Hdown, Hs, Ho, Hx, Hy.
      unfold mousePoint; cbn [fst snd].
      repeat split; ring. }
  destruct Hgoal as (Hs & Ho & Hx & Hy).
  repeat split; try assumption.
  unfold worldUnder, Canvaspace.toWorld, mousePoint; cbn [fst snd].
  rewrite Hs, Hx, Hy; f_equal; f_equal; ring.
Qed.

(** In CanvaspaceComponent a press on an object selects it and starts
    moving it: after any [mousemove] events the viewport is as it was,
    the other objects are as they were, and the moved object has kept
    everything but its position, which is such that the pointer is over
    the same point of the object as at the press. *)
Theorem canvaspace_drag_follows_pointer :
  forall canvas press e events c i,
    objectUnder canvas press c = Some i ->
    let c' := moves canvas (e :: events) (onMouseDown canvas press c) in
    let final := last events e in
    Canvaspace.offsetX (view c') = Canvaspace.offsetX (view c) /\
    Canvaspace.offsetY (view c') = Canvaspace.offsetY (view c) /\
    Canvaspace.scale (view c') = Canvaspace.scale (view c) /\
    (forall j, j <> i ->
               nth_error (Canvaspace.objects (view c')) j
               = nth_error (Canvaspace.objects (view c)) j) /\
    exists obj obj',
      nth_error (Canvaspace.objects (view c)) i = Some obj /\
      nth_error (Canvaspace.objects (view c')) i = Some obj' /\
      obj' = moveObject (Canvaspace.x obj') (Canvaspace.y obj') obj /\
      fst (worldUnder canvas final c') - Canvaspace.x obj'
      = fst (worldUnder canvas press c) - Canvaspace.x obj /\
      snd (worldUnder canvas final c') - Canvaspace.y obj'
      = snd (worldUnder canvas press c) - Canvaspace.y obj.
Proof.
  intros canvas press e events c i Hhit c' final.
  unfold objectUnder in Hhit.
  destruct (space_hit_is_object _ _ _ _ Hhit) as (obj & Hobj).
  assert (Hdown :
      onMouseDown canvas press c
      = {| view := view c; isDragging := isDragging c;
           dragStartX := fst (worldUnder canvas press c) - Canvaspace.x obj;
           dragStartY := snd (worldUnder canvas press c) - Canvaspace.y obj;
           lastX := fst (mousePoint canvas press);
           lastY := snd (mousePoint canvas press);
           showGrid := showGrid c;
           selectedObject := Some i; isMovingObject := true |}).
  { unfold Canvaspace.toWorld, mousePoint in Hhit; cbn [fst snd] in Hhit.
    unfold onMouseDown; rewrite Hhit, Hobj; reflexivity. }
  destruct (space_drag_run canvas events (onMouseDown canvas press c) e i)
    as (Hx & Hy & Hs & Hobjs); try (rewrite Hdown; reflexivity).
  fold c' final in Hx, Hy, Hs, Hobjs.
  assert (Hw : worldUnder canvas final (onMouseDown canvas press c)
               = worldUnder canvas final c)
    by (rewrite Hdown; reflexivity).
  assert (Hw' : worldUnder canvas final c' = worldUnder canvas final c).
  { unfold worldUnder, Canvaspace.toWorld; rewrite Hx, Hy, Hs, Hdown.
    reflexivity. }
  rewrite Hw in Hobjs.
  rewrite Hdown in Hx, Hy, Hs, Hobjs;
    cbn [view dragStartX dragStartY] in Hx, Hy, Hs, Hobjs.
  split; [exact Hx|]; split; [exact Hy|]; split; [exact Hs|]; split.
  - intros j Hj; rewrite Hobjs, updateAt_nth.
    apply Nat.eqb_neq in Hj; rewrite Hj; reflexivity.
  - exists obj; eexists; split; [exact Hobj|]; split.
    + rewrite Hobjs, updateAt_nth, Nat.eqb_refl, Hobj; reflexivity.
    + rewrite Hw'; cbn [Canvaspace.x Canvaspace.y moveObject].
      split; [reflexivity|]; split; ring.
Qed.

(** After the button is released, moving the pointer changes neither
    the viewport nor any object, and the object that was selected stays
    selected. *)
Theorem canvaspace_release_ends_gesture :
  forall canvas events c,
    view (moves canvas events (onMouseUp c)) = view c /\
    selectedObject (moves canvas events (onMouseUp c)) = selectedObject c.
Proof.
  intros canvas events c.
  apply (space_idle_run canvas events (onMouseUp c)); reflexivity.
Qed.

(** [deleteSelected] with an object selected clears the selection,
    leaves the viewport alone and keeps exactly the objects whose id is
    not the id of the selected object, in their order; when no two
    objects share an id, that is the list without the selected element.
    With nothing selected it does nothing. *)
Theorem canvaspace_deleteSelected_removes_selection :
  forall c,
    (selectedObject c = None -> deleteSelected c = c) /\
    (forall i sel,
        selectedObject c = Some i ->
        nth_error (Canvaspace.objects (view c)) i = Some sel ->
        let c' := deleteSelected c in
        selectedObject c' = None /\
        Canvaspace.scale (view c') = Canvaspace.scale (view c) /\
        Canvaspace.offsetX (view c') = Canvaspace.offsetX (view c) /\
        Canvaspace.offsetY (view c') = Canvaspace.offsetY (view c) /\
        (forall obj,
            In obj (Canvaspace.objects (view c')) <->
            In obj (Canvaspace.objects (view c)) /\
            Canvaspace.id obj <> Canvaspace.id sel) /\
        (NoDup (map Canvaspace.id (Canvaspace.objects (view c))) ->
         Canvaspace.objects (view c')
         = firstn i (Canvaspace.objects (view c))
           ++ skipn (S i) (Canvaspace.objects (view c)))).
Proof.
  intros c; split.
  - intros Hnone; unfold deleteSelected; rewrite Hnone; reflexivity.
  - intros i sel Hsel Hnth c'; subst c'.
    unfold deleteSelected; rewrite Hsel, Hnth; cbn.
    repeat split; try reflexivity.
    + apply filter_In in H; tauto.
    + apply filter_In in H as [_ H].
      apply negb_true_iff, String.eqb_neq in H; exact H.
    + intros [Hin Hne]; apply filter_In; split; [exact Hin|].
      apply negb_true_iff, String.eqb_neq; exact Hne.
    + intros Hnd; apply (filter_other_ids Canvaspace.id _ Hnd i sel Hnth).
Qed.

(** [addRectangle] and [addCircle] put the new object on top of the
    others, with its anchor 50 scaled units inside the top left corner
    of the canvas; from then on a point of the new square, or of the new
    disc of radius 50, hits the new object whatever lies below. *)
Theorem canvaspace_new_object_on_top :
  forall now color c,
    Canvaspace.scale (view c) <> 0 ->
    let n := List.length (Canvaspace.objects (view c)) in
    let square := newObject Canvaspace.rectangle now color c in
    let disc := newObject Canvaspace.circle now color c in
    Canvaspace.toScreen (Canvaspace.x square, Canvaspace.y square) (view c)
    = (50 * Canvaspace.scale (view c), 50 * Canvaspace.scale (view c)) /\
    Canvaspace.objects (view (addRectangle now color c))
    = Canvaspace.objects (view c) ++ [square] /\
    Canvaspace.objects (view (addCircle now color c))
    = Canvaspace.objects (view c) ++ [disc] /\
    (forall px py,
        inBox px py (Canvaspace.x square) (Canvaspace.y square) 100 100 ->
        Canvaspace.getObjectAtPosition px py (view (addRectangle now color c))
        = Some n) /\
    (forall px py,
        euclid px py (Canvaspace.x disc + 50) (Canvaspace.y disc + 50) <= 50 ->
        Canvaspace.getObjectAtPosition px py (view (addCircle now color c))
        = Some n).
Proof.
  intros now color c Hscale n square disc.
  split; [|split; [reflexivity|split; [reflexivity|split]]].
  - unfold Canvaspace.toScreen; cbn [fst snd square newObject
      Canvaspace.x Canvaspace.y].
    f_equal; field; exact Hscale.
  - intros px py Hin.
    unfold Canvaspace.getObjectAtPosition, addRectangle; cbn.
    rewrite scanDown_snoc.
    replace (Canvaspace.contains px py _) with true; [reflexivity|].
    symmetry; apply canvaspace_contains_spec; exact Hin.
  - intros px py Hin.
    unfold Canvaspace.getObjectAtPosition, addCircle; cbn.
    rewrite scanDown_snoc.
    replace (Canvaspace.contains px py _) with true; [reflexivity|].
    symmetry; apply canvaspace_contains_spec.
    unfold canvaspaceShape; cbn.
    replace (100 / 2) with 50 by lra; exact Hin.
Qed.


End CanvaspaceGestureProperties.

Section CanvaspaceGestureWitnesses.
Import Js JsFacts Arrays ArraysFacts HitTestFacts.
Import CanvaworkGestureFacts.
Import CanvaspaceGestures CanvaspaceGestureFacts.

(** The component once its three objects have been deleted. *)
Definition emptySpace : Component :=
  withView (Canvaspace.initial []) start.

(** One square added to it: anchor (50, 50), side 100. *)
Definition oneSquare : Component :=
  addRectangle "1700000000000" "#3498db" emptySpace.

(** The component with its first object selected and the button
    released. *)
Definition firstSelected : Component :=
  {| view := view start; isDragging := false;
     dragStartX := 50; dragStartY := 50; lastX := 150; lastY := 150;
     showGrid := true; selectedObject := Some 0%nat;
     isMovingObject := false |}.

Definition pressSpace : Dom.MouseEvent :=
  {| Dom.clientX := 110; Dom.clientY := 120 |}.

Definition moveSpace : Dom.MouseEvent :=
  {| Dom.clientX := 150; Dom.clientY := 90 |}.

Lemma pressSpace_hits :
  objectUnder sampleCanvas pressSpace oneSquare = Some 0%nat.
Proof.
  unfold objectUnder, Canvaspace.getObjectAtPosition; simpl.
  replace (Canvaspace.contains _ _ _) with true; [reflexivity|].
  symmetry; apply canvaspace_contains_spec.
  unfold canvaspaceShape, inBox; simpl; lra.
Qed.

Lemma canvaspace_pan_witness :
  isMovingObject emptySpace = false /\
  objectUnder sampleCanvas pressSpace emptySpace = None /\
  worldUnder sampleCanvas moveSpace
    (moves sampleCanvas [moveSpace]
       (onMouseDown sampleCanvas pressSpace emptySpace))
  = worldUnder sampleCanvas pressSpace emptySpace.
Proof.
  split; [reflexivity|]; split; [reflexivity|].
  apply (canvaspace_pan_keeps_grabbed_point sampleCanvas pressSpace
           [moveSpace] emptySpace eq_refl eq_refl).
Defined.

Lemma canvaspace_drag_witness :
  objectUnder sampleCanvas pressSpace oneSquare = Some 0%nat /\
  Canvaspace.scale
    (view (moves sampleCanvas [moveSpace]
             (onMouseDown sampleCanvas pressSpace oneSquare)))
  = Canvaspace.scale (view oneSquare).
Proof.
  split; [exact pressSpace_hits|].
  apply (canvaspace_drag_follows_pointer sampleCanvas pressSpace moveSpace []
           oneSquare 0%nat pressSpace_hits).
Defined.

Lemma canvaspace_deleteSelected_witness :
  selectedObject firstSelected = Some 0%nat /\
  selectedObject (deleteSelected firstSelected) = None.
Proof.
  split; [reflexivity|].
  destruct (canvaspace_deleteSelected_removes_selection firstSelected)
    as [_ H].
  apply (H 0%nat _ eq_refl eq_refl).
Defined.

Lemma canvaspace_new_object_witness :
  Canvaspace.scale (view start) <> 0 /\
  Canvaspace.objects (view (addRectangle "1700000000000" "#3498db" start))
  = Canvaspace.objects (view start)
    ++ [newObject Canvaspace.rectangle "1700000000000" "#3498db" start].
Proof.
  assert (H : Canvaspace.scale (view start) <> 0) by (simpl; lra).
  split; [exact H|].
  apply (canvaspace_new_object_on_top "1700000000000" "#3498db" start H).
Defined.


End CanvaspaceGestureWitnesses.

(** ** WorkflowserviceService: the position store, the workflow records
    and the automatic placement *)

Module ServiceStorage.
Import Service.

(** [Position] is one interface of the service; the canvas and the
    store each have their record for it. *)
Definition ofCanvas (p : Workflow.Position) : Position :=
  {| x := Workflow.x p; y := Workflow.y p |}.

Definition toCanvas (p : Position) : Workflow.Position :=
  {| Workflow.x := x p; Workflow.y := y p |}.

(** [getFromLocalStorage(POSITIONS_KEY)] *)
Definition storedPositions (ls : LocalStorage)
  : option (list (string * Position)) :=
  if available ls then positions ls else None.

(** [positions[workflowId]] *)
Fixpoint lookup (k : string) (m : list (string * Position))
  : option Position :=
  match m with
  | [] => None
  | (k', v) :: m' => if String.eqb k k' then Some v else lookup k m'
  end.


Definition getStoredPosition (workflowId : string) (ls : LocalStorage)
  : option Position :=
  match storedPositions ls with
  | Some m => lookup workflowId m
  | None => None
  end.





(** [mergePositionsFromLocalStorage] *)
Definition mergePosition (m : list (string * Position))
  (item : Workflow.WorkflowProcessItem) : Workflow.WorkflowProcessItem :=
  match lookup (Workflow.wfId item) m with
  | Some storedPosition =>
      {| Workflow.wfId := Workflow.wfId item;
         Workflow.project_id := Workflow.project_id item;
         Workflow.logical_module_id := Workflow.logical_module_id item;
         Workflow.page_id := Workflow.page_id item;
         Workflow.wfSequence := Workflow.wfSequence item;
         Workflow.wfName := Workflow.wfName item;
         Workflow.wfPosition := Some (toCanvas storedPosition);
         Workflow.wfExtra := Workflow.wfExtra item |}
  | None => item
  end.

Definition mergePositionsFromLocalStorage
  (items : list Workflow.WorkflowProcessItem) (ls : LocalStorage)
  : list Workflow.WorkflowProcessItem :=
  match storedPositions ls with
  | None => items
  | Some m => map (mergePosition m) items
  end.

(** [getAllWorkflowProcess] and [getWorkflowProcessByPageId]; [response]
    is what the server answers, nothing when the request fails. *)
Definition getAllWorkflowProcess
  (response : option (list Workflow.WorkflowProcessItem))
  (ls : LocalStorage) : list Workflow.WorkflowProcessItem :=
  match response with
  | Some items => mergePositionsFromLocalStorage items ls
  | None => []
  end.

Definition getWorkflowProcessByPageId (pageId : Z)
  (response : option (list Workflow.WorkflowProcessItem))
  (ls : LocalStorage) : list Workflow.WorkflowProcessItem :=
  filter (fun item => Z.eqb (Workflow.page_id item) pageId)
         (getAllWorkflowProcess response ls).

(** [position.x !== 0 && position.y !== 0] *)
Definition offAxes (p : Workflow.Position) : bool :=
  negb (Js.eqb (Workflow.x p) 0) && negb (Js.eqb (Workflow.y p) 0).

(** [calculateAutoPosition]: the position and the store after the
    call. *)
Definition calculateAutoPosition
  (workflowItem : Workflow.WorkflowProcessItem) (index : nat)
  (startX startY spacing : R) (ls : LocalStorage)
  : Position * LocalStorage :=
  match getStoredPosition (Workflow.wfId workflowItem) ls with
  | Some storedPosition => (storedPosition, ls)
  | None =>
      match Workflow.wfPosition workflowItem with
      | Some p =>
          if offAxes p
          then
            ({| x := Workflow.x p; y := Workflow.y p |},
             fst (savePosition (Workflow.wfId workflowItem) (ofCanvas p) ls))
          else
            let autoPosition :=
              {| x := startX + INR index * spacing; y := startY |} in
            (autoPosition,
             fst (savePosition (Workflow.wfId workflowItem) autoPosition ls))
      | None =>
          let autoPosition :=
            {| x := startX + INR index * spacing; y := startY |} in
          (autoPosition,
           fst (savePosition (Workflow.wfId workflowItem) autoPosition ls))
      end
  end.

(** The call with the default arguments. *)
Definition calculateAutoPositionDefault
  (workflowItem : Workflow.WorkflowProcessItem) (index : nat)
  (ls : LocalStorage) : Position * LocalStorage :=
  calculateAutoPosition workflowItem index
    DEFAULT_START_X DEFAULT_START_Y SPACE_INCREASE ls.

(** [sortBySequence]: [Array.prototype.sort] with the comparator
    [(a.sequence || 0) - (b.sequence || 0)], a stable sort by
    [sequence]. *)
Fixpoint insertWorkflow (a : Workflow.WorkflowProcessItem)
  (l : list Workflow.WorkflowProcessItem)
  : list Workflow.WorkflowProcessItem :=
  match l with
  | [] => [a]
  | b :: l' =>
      if Z.leb (Workflow.wfSequence a) (Workflow.wfSequence b)
      then a :: b :: l'
      else b :: insertWorkflow a l'
  end.

Fixpoint sortBySequence (items : list Workflow.WorkflowProcessItem)
  : list Workflow.WorkflowProcessItem :=
  match items with
  | [] => []
  | a :: l' => insertWorkflow a (sortBySequence l')
  end.

End ServiceStorage.

(** The revision on the JSON server places without a store. *)
Module ServiceJsonServerPlacement.

Definition calculateAutoPosition
  (workflowItem : Workflow.WorkflowProcessItem) (index : nat)
  (startX startY spacing : R) : Workflow.Position :=
  match Workflow.wfPosition workflowItem with
  | Some p =>
      if ServiceStorage.offAxes p
      then {| Workflow.x := Workflow.x p; Workflow.y := Workflow.y p |}
      else {| Workflow.x := startX + INR index * spacing;
              Workflow.y := startY |}
  | None =>
      {| Workflow.x := startX + INR index * spacing; Workflow.y := startY |}
  end.

Definition calculateAutoPositionDefault
  (workflowItem : Workflow.WorkflowProcessItem) (index : nat)
  : Workflow.Position :=
  calculateAutoPosition workflowItem index 120 120 200.

End ServiceJsonServerPlacement.

Module StorageFacts.
Import Js JsFacts Service ServiceFacts StoreFacts ServiceStorage.







(** Saving a position again changes nothing. *)
Lemma assign_again k p m : assign k p (assign k p m) = assign k p m.
Proof.
  induction m as [|[k' v'] m IH]; simpl.
  - rewrite String.eqb_refl; reflexivity.
  - destruct (String.eqb k k') eqn:E; simpl.
    + rewrite String.eqb_refl; reflexivity.
    + rewrite E, IH; reflexivity.
Qed.

(** A repaired item is well placed, an item left alone was. *)
Lemma fixItem_result_wellPlaced {Store} spacing
  (storePos : DraggableItem -> Position -> Store -> Store) index item st :
  wellPlaced (fst (fst (fixItem spacing storePos index item st))).
Proof.
  unfold fixItem, wellPlaced.
  destruct (isValidPosition (position item)) eqn:Hv;
    destruct (atOrigin (position item)) eqn:Ho; simpl;
    try (split; [reflexivity|]); try (split; assumption);
    unfold atOrigin, is_zero, raw, DEFAULT_START_Y; simpl;
    rewrite (proj2 (eqb_false 120 0)) by lra;
    apply andb_false_r.
Qed.

Lemma fixItems_result_wellPlaced {Store} spacing
  (storePos : DraggableItem -> Position -> Store -> Store) l :
  forall index st,
    Forall wellPlaced (fst (fst (fixItems spacing storePos index l st))).
Proof.
  induction l as [|item l IH]; intros index st; simpl; [constructor|].
  pose proof (fixItem_result_wellPlaced spacing storePos index item st) as H1.
  destruct (fixItem spacing storePos index item st)
    as [[fixedItem fixed] st1]; simpl in H1.
  specialize (IH (S index) st1).
  destruct (fixItems spacing storePos (S index) l st1)
    as [[fixedRest later] st2]; simpl in *.
  constructor; assumption.
Qed.

(** When no item needed a repair, nothing changed. *)
Lemma fixItems_unfixed {Store} spacing
  (storePos : DraggableItem -> Position -> Store -> Store) l :
  forall index st,
    snd (fst (fixItems spacing storePos index l st)) = false ->
    fixItems spacing storePos index l st = (l, false, st).
Proof.
  induction l as [|item l IH]; intros index st; simpl; [reflexivity|].
  unfold fixItem at 1 2.
  destruct (negb (isValidPosition (position item)) || atOrigin (position item)).
  - destruct (fixItems spacing storePos (S index) l _) as [[r later] st2].
    simpl; discriminate.
  - specialize (IH (S index) st).
    destruct (fixItems spacing storePos (S index) l st)
      as [[r later] st2]; simpl in *.
    intros H; specialize (IH H); injection IH as -> -> ->; reflexivity.
Qed.

Lemma filter_all {A} (f : A -> bool) l :
  Forall (fun a => f a = true) l -> filter f l = l.
Proof.
  induction 1 as [|a l Ha Hl IH]; simpl; [reflexivity|].
  rewrite Ha, IH; reflexivity.
Qed.

Lemma filter_full {A} (f : A -> bool) l :
  List.length (filter f l) = List.length l ->
  Forall (fun a => f a = true) l.
Proof.
  induction l as [|a l IH]; simpl; [constructor|].
  pose proof (filter_length_le f l) as Hle.
  destruct (f a) eqn:E; simpl; intros H.
  - constructor; [exact E | apply IH; lia].
  - lia.
Qed.

Lemma filter_passes {A} (f : A -> bool) l :
  Forall (fun a => f a = true) (filter f l).
Proof.
  apply Forall_forall; intros a Ha; apply filter_In in Ha; tauto.
Qed.

Lemma existsId_In its item : In item its -> existsId its (id item) = true.
Proof.
  intros H; unfold existsId; apply existsb_exists.
  exists item; split; [exact H | apply Z.eqb_refl].
Qed.

(** Every arrow of a chain joins two elements of the list. *)
Lemma chain_valid its l :
  (forall item, In item l -> In item its) ->
  Forall (fun a => arrowValid its a = true) (chain l).
Proof.
  induction l as [|a [|b l] IH]; intros Hsub; try constructor.
  - unfold arrowValid; cbn [fromId toId].
    rewrite !existsId_In; [reflexivity| |]; apply Hsub; simpl; auto.
  - apply IH; intros item Hin; apply Hsub; right; exact Hin.
Qed.

Lemma generateSequentialArrows_valid its :
  Forall (fun a => arrowValid its a = true) (generateSequentialArrows its).
Proof.
  apply chain_valid; intros item Hin.
  apply (Permutation_in _ (Permutation_sym (sortBySequenceKey_perm its)) Hin).
Qed.

Lemma chain_empty l : chain l = [] <-> (List.length l < 2)%nat.
Proof.
  destruct l as [|a [|b l]]; simpl; split; intros H;
    try reflexivity; try lia; discriminate.
Qed.

Lemma sortBySequenceKey_length l :
  List.length (sortBySequenceKey l) = List.length l.
Proof. symmetry; apply Permutation_length, sortBySequenceKey_perm. Qed.

End StorageFacts.

Section PositionStoreProperties.
Import Js JsFacts Service ServiceFacts StoreFacts ServiceStorage StorageFacts.





(** When nothing is stored for a workflow item, the placement with the
    default arguments never returns a point on an axis: it is the
    position of the record when that has no zero coordinate, and
    otherwise, also for a record placed on one axis only, the slot of
    the index on the row y = 120, the slots being 300 apart in the
    revision with the store and 200 apart in the other. *)
Theorem default_placement_is_off_the_axes :
  forall workflowItem index ls,
    getStoredPosition (Workflow.wfId workflowItem) ls = None ->
    let p := fst (calculateAutoPositionDefault workflowItem index ls) in
    let q :=
      ServiceJsonServerPlacement.calculateAutoPositionDefault
        workflowItem index in
    (x p <> 0 /\ y p <> 0) /\
    (Workflow.x q <> 0 /\ Workflow.y q <> 0) /\
    match Workflow.wfPosition workflowItem with
    | Some given =>
        if Req_dec_T (Workflow.x given) 0 then
          p = {| x := 120 + INR index * 300; y := 120 |} /\
          q = {| Workflow.x := 120 + INR index * 200; Workflow.y := 120 |}
        else if Req_dec_T (Workflow.y given) 0 then
          p = {| x := 120 + INR index * 300; y := 120 |} /\
          q = {| Workflow.x := 120 + INR index * 200; Workflow.y := 120 |}
        else p = ofCanvas given /\ toCanvas p = given /\ q = given
    | None =>
        p = {| x := 120 + INR index * 300; y := 120 |} /\
        q = {| Workflow.x := 120 + INR index * 200; Workflow.y := 120 |}
    end.
Proof.
  intros item index ls Hnone p q; subst p q.
  unfold calculateAutoPositionDefault, calculateAutoPosition,
    ServiceJsonServerPlacement.calculateAutoPositionDefault,
    ServiceJsonServerPlacement.calculateAutoPosition.
  rewrite Hnone.
  pose proof (pos_INR index) as Hidx.
  assert (Hslot : forall s, 0 < s -> 120 + INR index * s <> 0).
  { intros s Hs Hq.
    assert (0 <= INR index * s) by (apply Rmult_le_pos; lra).
    lra. }
  unfold DEFAULT_START_X, DEFAULT_START_Y, SPACE_INCREASE, offAxes, eqb.
  destruct (Workflow.wfPosition item) as [[gx gy]|]; cbn.
  - destruct (Req_dec_T gx 0) as [Hx|Hx]; cbn.
    + repeat split; try (apply Hslot; lra); intros Hq; lra.
    + destruct (Req_dec_T gy 0) as [Hy|Hy]; cbn.
      * repeat split; try (apply Hslot; lra); intros Hq; lra.
      * repeat split; assumption.
  - repeat split; try (apply Hslot; lra); intros Hq; lra.
Qed.

End PositionStoreProperties.

Module LoadFacts.
Import Js JsFacts Service ServiceFacts StoreFacts ServiceStorage StorageFacts.

Lemma fixItem_canvasState spacing index item ls :
  canvasState (snd (fixItem spacing storePosition index item ls))
  = canvasState ls.
Proof.
  unfold fixItem.
  destruct (negb (isValidPosition (position item)) || atOrigin (position item));
    simpl; [apply storePosition_canvasState | reflexivity].
Qed.

Lemma fixItems_canvasState spacing l :
  forall index ls,
    canvasState (snd (fixItems spacing storePosition index l ls))
    = canvasState ls.
Proof.
  induction l as [|item l IH]; intros index ls; simpl; [reflexivity|].
  pose proof (fixItem_canvasState spacing index item ls) as H1.
  destruct (fixItem spacing storePosition index item ls)
    as [[fixedItem fixed] ls1]; simpl in H1.
  specialize (IH (S index) ls1).
  destruct (fixItems spacing storePosition (S index) l ls1)
    as [[fixedRest later] ls2]; simpl in *.
  congruence.
Qed.

(** A state as [autoFixCanvasState] leaves it: items that are well
    placed, arrows that all join two items. *)
Definition repaired (s : SavedState) : Prop :=
  exists fixedItems fixedArrows,
    items s = Some fixedItems /\ arrows s = Some fixedArrows /\
    fixedItems <> [] /\ Forall wellPlaced fixedItems /\
    Forall (fun a => arrowValid fixedItems a = true) fixedArrows.

(** A state with two items or more and an empty list of arrows. *)
Definition unlinked (s : SavedState) : Prop :=
  arrows s = Some [] /\
  exists a b rest, items s = Some (a :: b :: rest).

Definition noItems (s : SavedState) : Prop :=
  items s = None \/ items s = Some [].

Lemma store_same s ls :
  available ls = true -> canvasState ls = Some s ->
  fst (saveCanvasState s ls) = ls.
Proof.
  intros Hav Hcs; unfold saveCanvasState; rewrite Hav; cbn.
  destruct ls; cbn in *; subst; reflexivity.
Qed.

(** The first load: the state returned is the state the store holds
    afterwards, and it has no items or is repaired. *)
Lemma autoFix_first state ls :
  available ls = true -> canvasState ls = Some state ->
  let s1 := fst (autoFixCanvasState state ls) in
  let ls1 := snd (autoFixCanvasState state ls) in
  available ls1 = true /\ canvasState ls1 = Some s1 /\
  (noItems s1 \/ repaired s1).
Proof.
  intros Hav Hcs; cbv zeta.
  unfold autoFixCanvasState, autoFixWith.
  destruct (items state) as [[|item its]|] eqn:Hi; cbn [fst snd].
  - split; [exact Hav|]; split; [exact Hcs|]; left; right; exact Hi.
  - pose proof (fixItems_result_wellPlaced SPACE_INCREASE storePosition
                  (item :: its) 0%nat ls) as Hwp.
    pose proof (fixItems_available SPACE_INCREASE (item :: its) 0%nat ls)
      as HavA.
    pose proof (fixItems_canvasState SPACE_INCREASE (item :: its) 0%nat ls)
      as HcsA.
    pose proof (fixItems_keeps SPACE_INCREASE storePosition (item :: its)
                  0%nat ls) as (_ & _ & Hlen).
    pose proof (fixItems_unfixed SPACE_INCREASE storePosition (item :: its)
                  0%nat ls) as Hun.
    destruct (fixItems SPACE_INCREASE storePosition 0 (item :: its) ls)
      as [[fixedItems needs] lsA]; cbn [fst snd] in *.
    rewrite Hav in HavA; rewrite Hcs in HcsA.
    assert (Hne : fixedItems <> [])
      by (intros ->; simpl in Hlen; discriminate).
    assert (Hsaved : forall s,
               available (fst (saveCanvasState s lsA)) = true /\
               canvasState (fst (saveCanvasState s lsA)) = Some s).
    { intros s; unfold saveCanvasState; rewrite HavA; split; reflexivity. }
    destruct (arrows state) as [[|a arrs]|] eqn:Ha; cbn [isEmpty].
    + cbn [fst snd].
      split; [apply Hsaved|]; split; [apply Hsaved|].
      right; eexists _, _; cbn; repeat split; try assumption.
      apply generateSequentialArrows_valid.
    + destruct (negb (Nat.eqb
                  (List.length (filter (arrowValid fixedItems) (a :: arrs)))
                  (List.length (a :: arrs)))) eqn:Eq.
      * cbn [fst snd].
        split; [apply Hsaved|]; split; [apply Hsaved|].
        right; eexists _, _; cbn [items arrows]; repeat split;
          try assumption.
        apply filter_passes.
      * apply negb_false_iff, Nat.eqb_eq, filter_full in Eq.
        destruct needs; cbn [fst snd].
        -- split; [apply Hsaved|]; split; [apply Hsaved|].
           right; eexists _, _; cbn [items arrows]; repeat split;
             assumption.
        -- specialize (Hun eq_refl); injection Hun as -> ->.
           split; [exact HavA|]; split.
           ++ rewrite HcsA; f_equal.
              destruct state; cbn in *; subst; reflexivity.
           ++ right; eexists _, _; cbn [items arrows]; repeat split;
                assumption.
    + cbn [fst snd].
      split; [apply Hsaved|]; split; [apply Hsaved|].
      right; eexists _, _; cbn; repeat split; try assumption.
      apply generateSequentialArrows_valid.
  - split; [exact Hav|]; split; [exact Hcs|]; left; left; exact Hi.
Qed.

(** The load of a state without items returns it as it is. *)
Lemma autoFix_noItems s ls :
  noItems s -> autoFixCanvasState s ls = (s, ls).
Proof.
  unfold autoFixCanvasState, autoFixWith; intros [-> | ->]; reflexivity.
Qed.

(** The load of a repaired state that has arrows returns it as it is. *)
Lemma autoFix_repaired_linked s ls a arrs :
  repaired s -> arrows s = Some (a :: arrs) ->
  autoFixCanvasState s ls = (s, ls).
Proof.
  intros (fixedItems & fixedArrows & Hi & Ha & Hne & Hwp & Hvalid) Harr.
  rewrite Harr in Ha; injection Ha as <-.
  unfold autoFixCanvasState, autoFixWith; rewrite Hi.
  destruct fixedItems as [|item its]; [contradiction|].
  rewrite (fixItems_wellPlaced SPACE_INCREASE storePosition _ Hwp), Harr.
  cbn [isEmpty].
  rewrite (filter_all _ _ Hvalid), Nat.eqb_refl; cbn [negb].
  f_equal; destruct s; cbn in *; subst; reflexivity.
Qed.

(** The load of a repaired state without arrows generates the chain. *)
Lemma autoFix_repaired_unlinked s ls :
  repaired s -> arrows s = Some [] ->
  exists fixedItems,
    items s = Some fixedItems /\
    let s2 := {| stateId := stateId s; items := Some fixedItems;
                 arrows := Some (generateSequentialArrows fixedItems);
                 nextId := nextId s |} in
    autoFixCanvasState s ls = (s2, fst (saveCanvasState s2 ls)).
Proof.
  intros (fixedItems & fixedArrows & Hi & Ha & Hne & Hwp & Hvalid) Harr.
  exists fixedItems; split; [exact Hi|].
  unfold autoFixCanvasState, autoFixWith; rewrite Hi.
  destruct fixedItems as [|item its]; [contradiction|].
  rewrite (fixItems_wellPlaced SPACE_INCREASE storePosition _ Hwp), Harr.
  reflexivity.
Qed.

End LoadFacts.

Section CanvasStateLoad.
Import Js JsFacts Service ServiceFacts StoreFacts ServiceStorage StorageFacts.
Import LoadFacts.

(** With [localStorage] available and a canvas state stored, the state
    [getCanvasState] returns is the state the store holds afterwards.
    Loading again returns that same state and leaves the store as it
    is, except in one case: when the state returned has two items or
    more and no arrow (all its arrows were pruned), the next load links
    the items in a chain. *)
Theorem canvas_state_load_settles :
  forall ls state,
    available ls = true ->
    canvasState ls = Some state ->
    let s1 := fst (autoFixCanvasState state ls) in
    let ls1 := snd (autoFixCanvasState state ls) in
    getCanvasState ls = (Some s1, ls1) /\
    available ls1 = true /\
    canvasState ls1 = Some s1 /\
    (getCanvasState ls1 = (Some s1, ls1) <-> ~ unlinked s1) /\
    (unlinked s1 ->
     exists its,
       items s1 = Some its /\
       fst (getCanvasState ls1)
       = Some {| stateId := stateId s1; items := Some its;
                 arrows := Some (generateSequentialArrows its);
                 nextId := nextId s1 |} /\
       generateSequentialArrows its <> []).
Proof.
  intros ls state Hav Hcs s1 ls1.
  destruct (autoFix_first state ls Hav Hcs) as (Hav1 & Hcs1 & Hshape).
  fold s1 ls1 in Hav1, Hcs1, Hshape.
  split.
  { unfold getCanvasState; rewrite Hav, Hcs.
    subst s1 ls1; destruct (autoFixCanvasState state ls); reflexivity. }
  split; [exact Hav1|]; split; [exact Hcs1|].
  assert (Hload : getCanvasState ls1
                  = (Some (fst (autoFixCanvasState s1 ls1)),
                     snd (autoFixCanvasState s1 ls1))).
  { unfold getCanvasState; rewrite Hav1, Hcs1.
    destruct (autoFixCanvasState s1 ls1); reflexivity. }
  rewrite Hload; clearbody s1 ls1.
  destruct Hshape as [Hno | Hrep].
  - rewrite (autoFix_noItems _ _ Hno); cbn [fst snd].
    assert (Hnot : ~ unlinked s1).
    { intros (_ & a & b & rest & Hi); destruct Hno as [H|H];
        rewrite H in Hi; discriminate. }
    split; [split; [intros _; exact Hnot | reflexivity]|].
    intros Hu; contradiction.
  - destruct (arrows s1) as [[|a arrs]|] eqn:Harr.
    + destruct (autoFix_repaired_unlinked s1 ls1 Hrep Harr)
        as (its & Hi & Hfix).
      cbv zeta in Hfix; rewrite Hfix; cbn [fst snd].
      destruct (generateSequentialArrows its) as [|g gs] eqn:Hgen.
      * assert (Hs : {| stateId := stateId s1; items := Some its;
                        arrows := Some []; nextId := nextId s1 |} = s1)
          by (destruct s1; cbn in *; subst; reflexivity).
        rewrite Hs, (store_same _ _ Hav1 Hcs1).
        assert (Hnot : ~ unlinked s1).
        { intros (_ & x & y & rest & Hi2).
          rewrite Hi in Hi2; injection Hi2 as ->.
          unfold generateSequentialArrows in Hgen.
          apply chain_empty in Hgen.
          rewrite sortBySequenceKey_length in Hgen; simpl in Hgen; lia. }
        split; [split; [intros _; exact Hnot | reflexivity]|].
        intros Hu; contradiction.
      * assert (Hu : unlinked s1).
        { split; [exact Harr|].
          destruct its as [|x [|y rest]].
          - discriminate.
          - discriminate.
          - exists x, y, rest; exact Hi. }
        split.
        -- split; [|intros Hn; contradiction].
           intros Heq; injection Heq as Heq _.
           apply (f_equal arrows) in Heq; cbn in Heq.
           rewrite Harr in Heq; discriminate.
        -- intros _; exists its; rewrite Hgen; split; [exact Hi|]; split;
             [reflexivity | discriminate].
    + rewrite (autoFix_repaired_linked _ _ _ _ Hrep Harr); cbn [fst snd].
      assert (Hnot : ~ unlinked s1)
        by (intros [H _]; rewrite Harr in H; discriminate).
      split; [split; [intros _; exact Hnot | reflexivity]|].
      intros Hu; contradiction.
    + destruct Hrep as (? & ? & _ & H & _); rewrite Harr in H; discriminate.
Qed.

End CanvasStateLoad.

Section ServiceStorageWitnesses.
Import Js JsFacts Service ServiceFacts StoreFacts ServiceStorage StorageFacts.
Import LoadFacts.

Definition freshStorage : LocalStorage :=
  {| available := true; positions := None; canvasState := None |}.

(** A workflow record without a position. *)
Definition firstRecord : Workflow.WorkflowProcessItem :=
  {| Workflow.wfId := "a1"; Workflow.project_id := 1;
     Workflow.logical_module_id := 1; Workflow.page_id := 80;
     Workflow.wfSequence := 1; Workflow.wfName := "Submit";
     Workflow.wfPosition := None; Workflow.wfExtra := [] |}.

Definition storageWithLooseArrow : LocalStorage :=
  {| available := true; positions := None;
     canvasState := Some stateWithLooseArrow |}.



Lemma default_placement_witness :
  getStoredPosition (Workflow.wfId firstRecord) freshStorage = None /\
  x (fst (calculateAutoPositionDefault firstRecord 2 freshStorage)) <> 0.
Proof.
  split; [reflexivity|].
  apply (default_placement_is_off_the_axes firstRecord 2%nat freshStorage
           eq_refl).
Defined.

Lemma canvas_state_load_witness :
  available storageWithLooseArrow = true /\
  canvasState storageWithLooseArrow = Some stateWithLooseArrow /\
  available (snd (autoFixCanvasState stateWithLooseArrow
                    storageWithLooseArrow)) = true.
Proof.
  split; [reflexivity|]; split; [reflexivity|].
  apply (canvas_state_load_settles storageWithLooseArrow stateWithLooseArrow
           eq_refl eq_refl).
Defined.

End ServiceStorageWitnesses.

(** ** Arrow routing: sides and directions *)

Section RoutingSides.
Import Js JsFacts Workflow.

(** The middle of a side of the 140 by 64 box at [p], moved [gap]
    pixels outwards; the side is named by its outward direction. *)
Definition sideMiddle (p : Position) (side : Direction) (gap : R) : R * R :=
  match side with
  | Right => (x p + boxW + gap, y p + boxH / 2)
  | Left => (x p - gap, y p + boxH / 2)
  | Up => (x p + boxW / 2, y p - gap)
  | Down => (x p + boxW / 2, y p + boxH + gap)
  end.

(** Wherever the two items are, the arrow starts on the source box at
    the middle of the side its start direction names, which is never
    the left side; it ends [arrowOffset] pixels outside the target box,
    opposite the middle of the side its end direction names; and the
    two directions are one of five pairs. *)
Theorem arrow_joins_side_middles :
  forall from to,
    let e := arrowEndpoints from to in
    (startX e, startY e) = sideMiddle (position from) (startDirection e) 0 /\
    (endX e, endY e)
    = sideMiddle (position to) (endDirection e) arrowOffset /\
    startDirection e <> Left /\
    In (startDirection e, endDirection e)
       [(Right, Left); (Down, Up); (Up, Down); (Down, Right); (Up, Right)].
Proof.
  intros from to e; subst e; unfold arrowEndpoints; cbv zeta.
  repeat match goal with
         | |- context [if ?b then _ else _] => destruct b
         end;
    cbn [startX startY startDirection endX endY endDirection sideMiddle];
    (split; [f_equal; ring|]); (split; [f_equal; ring|]);
    (split; [discriminate|]); simpl; tauto.
Qed.

End RoutingSides.

(** ** WorkstatusComponent: what every sequence of gestures preserves *)

Module CanvasFacts.
Import Js JsFacts Workflow WorkstatusState DragFacts.

Lemma update_ids i f items :
  (forall item, id (f item) = id item) ->
  map id (update i f items) = map id items.
Proof.
  intros Hf; revert i; induction items as [|item rest IH]; intros [|i];
    simpl; try reflexivity.
  - rewrite Hf; reflexivity.
  - rewrite IH; reflexivity.
Qed.

Lemma update_Forall (P : DraggableItem -> Prop) i f items :
  (forall item, P item -> P (f item)) ->
  Forall P items -> Forall P (update i f items).
Proof.
  intros Hf H; revert i; induction H as [|item rest Hitem Hrest IH];
    intros [|i]; simpl; constructor; auto.
Qed.

Lemma moveAllLinked_ids dX dY linked :
  forall items, map id (moveAllLinked dX dY linked items) = map id items.
Proof.
  unfold moveAllLinked; induction linked as [|b rest IH]; intros items;
    simpl; [reflexivity|].
  rewrite IH; apply update_ids; intros item.
  unfold moveLinked, setPropertiesPosition, setPosition; reflexivity.
Qed.

Lemma moveAllLinked_Forall (P : DraggableItem -> Prop) dX dY linked :
  (forall item, P item -> P (moveLinked dX dY item)) ->
  forall items,
    Forall P items -> Forall P (moveAllLinked dX dY linked items).
Proof.
  intros Hf; unfold moveAllLinked; induction linked as [|b rest IH];
    intros items H; simpl; [exact H|].
  apply IH, update_Forall; assumption.
Qed.

Lemma moveAllLinked_size dX dY linked :
  forall items,
    List.length (moveAllLinked dX dY linked items) = List.length items.
Proof.
  unfold moveAllLinked; induction linked as [|b rest IH]; intros items;
    simpl; [reflexivity|].
  rewrite IH; apply update_length.
Qed.

Lemma ids_In (items items' : list DraggableItem) :
  map id items' = map id items ->
  forall item, In item items' -> exists old, In old items /\ id old = id item.
Proof.
  intros Hids item Hin.
  apply (in_map id) in Hin; rewrite Hids in Hin.
  apply in_map_iff in Hin as (old & Hid & Hold); eauto.
Qed.

End CanvasFacts.

Section WorkstatusGestures.
Import Js JsFacts Workflow WorkstatusState DragFacts CanvasFacts.
Variable numberToString : R -> string.

(** An arrow whose two references point into [items] and whose path is
    the path between the two items as they are now. *)
Definition inSync (items : list DraggableItem) (a : Arrow) : Prop :=
  exists f t,
    nth_error items (from a) = Some f /\ nth_error items (to a) = Some t /\
    path a = calculateArrowPath numberToString f t.

Definition anchored (items : list DraggableItem) (a : Arrow) : Prop :=
  (from a < List.length items)%nat /\ (to a < List.length items)%nat.

(** An item whose properties carry a copy of its position. *)
Definition mirrored (item : DraggableItem) : Prop :=
  exists props,
    properties item = Some props /\ propPosition props = position item.

(** What is kept whatever the gestures, in both revisions. *)
Definition coherent (st : State) : Prop :=
  NoDup (map id (items st)) /\
  (1 <= nextId st)%Z /\
  (forall item, In item (items st) -> (1 <= id item < nextId st)%Z) /\
  Forall mirrored (items st) /\
  Forall (inSync (items st)) (arrows st) /\
  (forall l, lastCreatedItem st = Some l ->
             (l < List.length (items st))%nat).

Lemma inSync_anchored items a : inSync items a -> anchored items a.
Proof.
  intros (f & t & Hf & Ht & _); split; apply nth_error_Some; congruence.
Qed.

Lemma updateAllArrows_inSync items arrows :
  Forall (anchored items) arrows ->
  Forall (inSync items) (updateAllArrows numberToString items arrows).
Proof.
  unfold updateAllArrows; induction 1 as [|a rest [Hf Ht] Hrest IH];
    simpl; constructor; [|exact IH].
  apply nth_error_Some in Hf, Ht.
  unfold updateArrow, inSync.
  destruct (nth_error items (from a)) as [f|] eqn:Ef; [|congruence].
  destruct (nth_error items (to a)) as [t|] eqn:Et; [|congruence].
  exists f, t; cbn [from to path]; repeat split; assumption.
Qed.

Lemma anchored_longer items items' a :
  (List.length items <= List.length items')%nat ->
  anchored items a -> anchored items' a.
Proof. unfold anchored; intros Hlen [Hf Ht]; lia. Qed.

Lemma createArrow_anchored items known l r arrows :
  (l < List.length items)%nat -> (r < List.length items)%nat ->
  Forall (anchored items) arrows ->
  Forall (anchored items) (createArrow known l r arrows).
Proof.
  intros Hl Hr H; unfold createArrow.
  apply Forall_app; split; [exact H|].
  constructor; [split; assumption | constructor].
Qed.

Lemma coherent_transfer st st' :
  items st' = items st -> arrows st' = arrows st ->
  nextId st' = nextId st -> lastCreatedItem st' = lastCreatedItem st ->
  coherent st -> coherent st'.
Proof.
  unfold coherent; intros -> -> -> ->; tauto.
Qed.

Lemma saveCanvasState_coherent st :
  coherent st -> coherent (saveCanvasState st).
Proof.
  intros H; unfold saveCanvasState; destruct (isBrowser st); [|exact H].
  apply (coherent_transfer st); auto.
Qed.

(** Appending items with the next ids, adding anchored arrows and
    recomputing the paths. *)
Lemma coherent_grow st added arrows' last' next' :
  coherent st ->
  map id added
  = map (fun k => (nextId st + Z.of_nat k)%Z) (seq 0 (List.length added)) ->
  next' = (nextId st + Z.of_nat (List.length added))%Z ->
  Forall mirrored added ->
  Forall (anchored (items st ++ added)) arrows' ->
  (forall l, last' = Some l ->
             (l < List.length (items st ++ added))%nat) ->
  forall st',
    items st' = items st ++ added ->
    arrows st'
    = updateAllArrows numberToString (items st ++ added) arrows' ->
    nextId st' = next' -> lastCreatedItem st' = last' ->
    coherent st'.
Proof.
  intros (Hnd & H1 & Hids & Hmir & Hsync & Hlast) Hadded -> Hm Ha Hl
         st' Hi Harr Hn Hlc.
  unfold coherent; rewrite Hi, Harr, Hn, Hlc.
  assert (Hnew : forall item, In item added ->
                              (nextId st <= id item
                               < nextId st + Z.of_nat (List.length added))%Z).
  { intros item Hin; apply (in_map id) in Hin; rewrite Hadded in Hin.
    apply in_map_iff in Hin as (k & <- & Hk); apply in_seq in Hk; lia. }
  split; [|split; [lia|split; [|split; [|split]]]].
  - rewrite map_app; apply NoDup_app; [exact Hnd| |].
    + rewrite Hadded; apply Finite.Injective_map_NoDup; [|apply seq_NoDup].
      intros a b Hab; lia.
    + intros i Hin Hin'.
      apply in_map_iff in Hin as (old & <- & Hold).
      apply in_map_iff in Hin' as (new & Heq & Hnw).
      specialize (Hids _ Hold); specialize (Hnew _ Hnw); lia.
  - intros item Hin; apply in_app_or in Hin as [Hin|Hin].
    + specialize (Hids _ Hin); lia.
    + specialize (Hnew _ Hin); lia.
  - apply Forall_app; split; assumption.
  - apply updateAllArrows_inSync, Ha.
  - exact Hl.
Qed.

(** Moving items in place, with the paths recomputed. *)
Lemma coherent_moved st items' :
  coherent st ->
  map id items' = map id (items st) ->
  Forall mirrored items' ->
  forall st',
    items st' = items' ->
    arrows st' = updateAllArrows numberToString items' (arrows st) ->
    nextId st' = nextId st -> lastCreatedItem st' = lastCreatedItem st ->
    coherent st'.
Proof.
  intros (Hnd & H1 & Hids & Hmir & Hsync & Hlast) Hmap Hm st' Hi Harr Hn Hlc.
  assert (Hlen : List.length items' = List.length (items st))
    by (rewrite <- (length_map id), Hmap, length_map; reflexivity).
  unfold coherent; rewrite Hi, Harr, Hn, Hlc, Hmap, Hlen.
  split; [exact Hnd|]; split; [exact H1|]; split; [|split; [|split]].
  - intros item Hin.
    destruct (ids_In _ _ Hmap item Hin) as (old & Hold & <-).
    apply Hids, Hold.
  - exact Hm.
  - apply updateAllArrows_inSync.
    eapply Forall_impl; [|exact Hsync].
    intros a Ha; apply inSync_anchored in Ha.
    apply (anchored_longer (items st)); [lia | exact Ha].
  - exact Hlast.
Qed.

Lemma setBoth_mirrored p item :
  mirrored item -> mirrored (setPropertiesPosition p (setPosition p item)).
Proof.
  intros (props & Hp & _); unfold mirrored, setPropertiesPosition; cbn.
  rewrite Hp; eexists; split; reflexivity.
Qed.

Lemma moveLinked_mirrored dX dY item :
  mirrored item -> mirrored (moveLinked dX dY item).
Proof.
  intros (props & Hp & _); unfold mirrored, moveLinked, setPropertiesPosition.
  cbn; rewrite Hp; eexists; split; reflexivity.
Qed.

End WorkstatusGestures.

Section WorkstatusSnappingInvariant.
Import Js JsFacts Workflow WorkstatusState DragFacts CanvasFacts.
Variable numberToString : R -> string.

(** What the user and the click timer do to the component. *)
Inductive Gesture :=
| ToolPicked (label : string)
| ToolDropped (now : string) (scrollContainer : option Dom.ScrollContainer)
           (event : Dom.MouseEvent)
| ItemPressed (event : Dom.MouseEvent) (ref : nat)
| ReleasedEarly
| TimerFired (scrollContainer : option Dom.ScrollContainer)
| PointerMoved (scrollContainer : option Dom.ScrollContainer)
       (event : Dom.MouseEvent)
| ButtonReleased.

Definition react (st : State) (g : Gesture) : State :=
  match g with
  | ToolPicked label => Workstatus.onToolbarButtonMouseDown label st
  | ToolDropped now sc event =>
      Workstatus.onToolbarMouseUp numberToString now sc event st
  | ItemPressed event ref => Workstatus.onMouseDown event ref st
  | ReleasedEarly => Workstatus.onEarlyMouseUp st
  | TimerFired sc => Workstatus.clickTimeoutFired sc st
  | PointerMoved sc event => Workstatus.onMouseMove numberToString sc event st
  | ButtonReleased => Workstatus.onMouseUp st
  end.

(** An item both of whose coordinates are multiples of 20. *)
Definition gridded (item : DraggableItem) : Prop :=
  onGrid (x (position item)) /\ onGrid (y (position item)).

Lemma onGrid_shift a b c :
  onGrid a -> onGrid b -> onGrid c -> onGrid (a + (b - c)).
Proof.
  intros [ka ->] [kb ->] [kc ->]; exists (ka + kb - kc)%Z.
  rewrite minus_IZR, plus_IZR; ring.
Qed.

Lemma createNewItemFromToolbar_coherent now sc event label type st :
  coherent numberToString st ->
  coherent numberToString
    (Workstatus.createNewItemFromToolbar numberToString now sc event label
       type st).
Proof.
  intros Hc.
  unfold Workstatus.createNewItemFromToolbar.
  destruct sc as [sc|]; [|assumption].
  cbv zeta.
  match goal with
  | |- context [items st ++ [?n]] => set (newItem := n)
  end.
  match goal with
  | |- context [setGraph _ ?a st] => set (arrows' := a)
  end.
  apply saveCanvasState_coherent.
  apply (coherent_grow numberToString st [newItem] arrows'
           (Some (List.length (items st))) (nextId st + 1)%Z Hc).
  - simpl; rewrite Z.add_0_r; reflexivity.
  - reflexivity.
  - constructor; [|constructor].
    eexists; split; reflexivity.
  - destruct Hc as (_ & _ & _ & _ & Hsync & Hlast).
    assert (Hold : Forall (anchored (items st ++ [newItem])) (arrows st)).
    { eapply Forall_impl; [|exact Hsync].
      intros a Ha; apply inSync_anchored in Ha.
      apply (anchored_longer (items st)); [|exact Ha].
      rewrite length_app; lia. }
    subst arrows'; destruct (lastCreatedItem st) as [l|] eqn:El;
      [|exact Hold].
    apply createArrow_anchored; [| |exact Hold];
      rewrite length_app; simpl; [specialize (Hlast l eq_refl)|]; lia.
  - intros l [= <-]; rewrite length_app; simpl; lia.
  - reflexivity.
  - reflexivity.
  - reflexivity.
  - reflexivity.
Qed.

Lemma createNewItemFromToolbar_gridded now sc event label type st :
  Forall gridded (items st) ->
  Forall gridded
    (items (Workstatus.createNewItemFromToolbar numberToString now sc event
              label type st)).
Proof.
  intros Hg.
  unfold Workstatus.createNewItemFromToolbar.
  destruct sc as [sc|]; [|assumption].
  cbv zeta; rewrite saveCanvasState_items.
  unfold Workstatus.refreshArrows; cbn [items setGraph setCounters].
  apply Forall_app; split; [exact Hg|].
  constructor; [|constructor].
  split; apply snap_onGrid.
Qed.

Lemma onMouseMove_coherent sc event st :
  coherent numberToString st ->
  coherent numberToString (Workstatus.onMouseMove numberToString sc event st).
Proof.
  intros Hc.
  unfold Workstatus.onMouseMove.
  destruct (isDragging st); [|assumption].
  destruct (draggedItem st) as [d|]; [|assumption].
  destruct sc as [sc|]; [|assumption].
  destruct (nth_error (items st) d) as [dragged|] eqn:Hd; [|assumption].
  destruct (match canvasOffset st with
            | Some _ => _
            | None => _
            end) as [adjustedClientX adjustedClientY].
  cbv zeta.
  eapply (coherent_moved numberToString st);
    [exact Hc | | | reflexivity | reflexivity | reflexivity | reflexivity].
  - unfold Workstatus.refreshArrows; cbn [items setGraph].
    rewrite moveAllLinked_ids; apply update_ids; reflexivity.
  - unfold Workstatus.refreshArrows; cbn [items setGraph].
    destruct Hc as (_ & _ & _ & Hmir & _).
    apply moveAllLinked_Forall; [intros item; apply moveLinked_mirrored|].
    apply update_Forall; [intros item; apply setBoth_mirrored | exact Hmir].
Qed.

Lemma onMouseMove_gridded sc event st :
  Forall gridded (items st) ->
  Forall gridded (items (Workstatus.onMouseMove numberToString sc event st)).
Proof.
  intros Hg.
  unfold Workstatus.onMouseMove.
  destruct (isDragging st); [|assumption].
  destruct (draggedItem st) as [d|]; [|assumption].
  destruct sc as [sc|]; [|assumption].
  destruct (nth_error (items st) d) as [dragged|] eqn:Hd; [|assumption].
  destruct (match canvasOffset st with
            | Some _ => _
            | None => _
            end) as [adjustedClientX adjustedClientY].
  cbv zeta.
  set (snappedX := Math_round ((adjustedClientX - x (offset st)) / 20) * 20).
  set (snappedY := Math_round ((adjustedClientY - y (offset st)) / 20) * 20).
  assert (Hdg : gridded dragged).
  { apply (proj1 (Forall_forall _ _) Hg), (nth_error_In _ _ Hd). }
  unfold Workstatus.refreshArrows; cbn [items setGraph].
  apply moveAllLinked_Forall.
  - intros item [Hx Hy]; unfold gridded, moveLinked; cbn.
    destruct Hdg as [Hdx Hdy].
    split; apply onGrid_shift; try assumption; apply snap_onGrid.
  - apply update_Forall; [|exact Hg].
    intros item _; split; cbn; apply snap_onGrid.
Qed.

(** A gesture keeps what [keeps] says when the two handlers that touch
    the items keep it and it depends on the graph fields only. *)
Lemma react_keeps (keeps : State -> Prop) :
  (forall st st',
      items st' = items st -> arrows st' = arrows st ->
      nextId st' = nextId st -> lastCreatedItem st' = lastCreatedItem st ->
      keeps st -> keeps st') ->
  (forall now sc event label type st,
      keeps st ->
      keeps (Workstatus.createNewItemFromToolbar numberToString now sc event
               label type st)) ->
  (forall sc event st,
      keeps st -> keeps (Workstatus.onMouseMove numberToString sc event st)) ->
  forall st g, keeps st -> keeps (react st g).
Proof.
  intros Htransfer Hcreate Hmove st g H.
  destruct g as [label|now sc event|event ref| |sc|sc event|];
    cbn [react].
  - apply (Htransfer st); auto.
  - unfold Workstatus.onToolbarMouseUp.
    set (st1 := match toolbarDragActive st with
                | true => _
                | false => _
                end).
    assert (H1 : keeps st1).
    { subst st1; destruct (toolbarDragActive st); [|exact H].
      destruct (toolbarDragType st) as [type|]; [|exact H].
      apply Hcreate, H. }
    apply (Htransfer st1); auto.
  - unfold Workstatus.onMouseDown.
    destruct (clickTimeout st); apply (Htransfer st); auto.
  - apply (Htransfer st); auto.
  - unfold Workstatus.clickTimeoutFired.
    destruct (clickTimeout st) as [[event ref]|]; [|exact H].
    destruct (nth_error (items st) ref); [|exact H].
    apply (Htransfer st); auto.
  - apply Hmove, H.
  - apply (Htransfer st); auto.
Qed.

Lemma react_coherent st g :
  coherent numberToString st -> coherent numberToString (react st g).
Proof.
  apply (react_keeps (coherent numberToString)).
  - intros s s'; apply coherent_transfer.
  - intros; apply createNewItemFromToolbar_coherent; assumption.
  - intros; apply onMouseMove_coherent; assumption.
Qed.

Lemma react_gridded st g :
  Forall gridded (items st) -> Forall gridded (items (react st g)).
Proof.
  apply (react_keeps (fun s => Forall gridded (items s))).
  - intros s s' -> _ _ _ H; exact H.
  - intros; apply createNewItemFromToolbar_gridded; assumption.
  - intros; apply onMouseMove_gridded; assumption.
Qed.

Lemma run_keeps (keeps : State -> Prop) gestures :
  (forall st g, keeps st -> keeps (react st g)) ->
  forall st, keeps st -> keeps (fold_left react gestures st).
Proof.
  intros Hstep; induction gestures as [|g rest IH]; intros st H; [exact H|].
  cbn [fold_left]; apply IH, Hstep, H.
Qed.

(** In the revision that snaps (workstatus.component.ts), from the
    component as constructed and whatever toolbar picks and drops,
    presses, timer expiries, pointer moves and releases follow: no two
    items share an id and every id lies from 1 to below [nextId]; every
    item carries in its properties a copy of its position; every arrow
    joins two items of the list and its path is the path
    [calculateArrowPath] gives for their present positions; the item
    created last is in the list; and both coordinates of every item are
    multiples of 20. *)
Theorem workstatus_gestures_keep_canvas_coherent :
  forall browser gestures,
    let st := fold_left react gestures (initial browser) in
    coherent numberToString st /\ Forall gridded (items st).
Proof.
  intros browser gestures; cbv zeta; split.
  - apply (run_keeps (coherent numberToString)); [apply react_coherent|].
    unfold coherent; cbn.
    split; [constructor|]; split; [lia|]; split; [intros item []|].
    split; [constructor|]; split; [constructor | discriminate].
  - apply (run_keeps (fun s => Forall gridded (items s)));
      [apply react_gridded | constructor].
Qed.

End WorkstatusSnappingInvariant.

(** ** Dragging an item: where the pointer takes it *)

Module DragTrackFacts.
Import Js JsFacts Workflow WorkstatusState DragFacts GroupDragFacts.

(** The fields a drag is set up with, and the size of the item list. *)
Definition held (st st0 : State) : Prop :=
  draggedItem st = draggedItem st0 /\
  linkedButtons st = linkedButtons st0 /\
  offset st = offset st0 /\
  canvasOffset st = canvasOffset st0 /\
  scrollAtDragStart st = scrollAtDragStart st0 /\
  List.length (items st) = List.length (items st0).

Lemma held_refl st : held st st.
Proof. repeat split. Qed.

Lemma held_trans st2 st1 st0 : held st2 st1 -> held st1 st0 -> held st2 st0.
Proof.
  unfold held; intros (A1 & A2 & A3 & A4 & A5 & A6) (B1 & B2 & B3 & B4 & B5 & B6).
  repeat split; congruence.
Qed.

Section Tracking.
Variable numberToString : R -> string.

Lemma snapping_move_held scrollContainer event st :
  let st' := Workstatus.onMouseMove numberToString scrollContainer event st in
  held st' st /\ isDragging st' = isDragging st.
Proof.
  cbv zeta; unfold Workstatus.onMouseMove.
  destruct (isDragging st) eqn:Hdr; [|split; [apply held_refl | exact Hdr]].
  destruct (draggedItem st) as [d|];
    [|split; [apply held_refl | exact Hdr]].
  destruct scrollContainer as [sc|];
    [|split; [apply held_refl | exact Hdr]].
  destruct (nth_error (items st) d) as [dragged|];
    [|split; [apply held_refl | exact Hdr]].
  match goal with
  | |- context [let '(a, b) := ?e in _] => destruct e as [adjX adjY]
  end.
  cbv zeta; unfold Workstatus.refreshArrows, held; cbn.
  rewrite moveAllLinked_length, update_length; repeat split; exact Hdr.
Qed.

Lemma free_move_held scrollEl event st :
  held (WorkstatusJsonServer.onMouseMove numberToString scrollEl event st) st.
Proof.
  unfold WorkstatusJsonServer.onMouseMove.
  destruct (draggedItem st) as [d|] eqn:Hd; [|apply held_refl].
  destruct (canvasOffset st) as [[offLeft offTop]|] eqn:Hc;
    [|apply held_refl].
  destruct (scrollAtDragStart st) as [[startLeft startTop]|] eqn:Hs;
    [|apply held_refl].
  set (st1 := if isDragging st then st else _).
  assert (H1 : held st1 st)
    by (unfold st1, held; destruct (isDragging st); cbn;
        rewrite ?Hd, ?Hc, ?Hs; repeat split).
  destruct scrollEl as [sc|]; [|exact H1].
  destruct (nth_error (items st1) d) as [dragged|]; [|exact H1].
  apply (held_trans _ st1); [|exact H1].
  cbv zeta; unfold WorkstatusJsonServer.refreshArrows, held; cbn.
  rewrite moveAllLinked_length, update_length; repeat split.
Qed.

Lemma snapping_run_held moves :
  forall st,
    let st' :=
      fold_left (fun s m => Workstatus.onMouseMove numberToString
                              (fst m) (snd m) s) moves st in
    held st' st /\ isDragging st' = isDragging st.
Proof.
  induction moves as [|m moves IH]; intros st; cbn [fold_left].
  - split; [apply held_refl | reflexivity].
  - destruct (snapping_move_held (fst m) (snd m) st) as [H1 D1].
    destruct (IH (Workstatus.onMouseMove numberToString (fst m) (snd m) st))
      as [H2 D2].
    cbv zeta; split; [eapply held_trans; eassumption | congruence].
Qed.

Lemma free_run_held moves :
  forall st,
    held (fold_left (fun s m => WorkstatusJsonServer.onMouseMove
                                  numberToString (fst m) (snd m) s)
                    moves st) st.
Proof.
  induction moves as [|m moves IH]; intros st; cbn [fold_left].
  - apply held_refl.
  - eapply held_trans; [apply IH | apply free_move_held].
Qed.

(** Where the assignment and the loop over the linked buttons leave the
    dragged item. *)
Lemma dragged_lands items d cur linked p dX dY :
  nth_error items d = Some cur -> ~ In d linked ->
  option_map position
    (nth_error
       (moveAllLinked dX dY linked
          (update d (fun item => setPropertiesPosition p (setPosition p item))
                  items)) d)
  = Some p.
Proof.
  intros Hd Hnot; unfold moveAllLinked.
  revert items Hd; induction linked as [|b rest IH]; intros items Hd.
  - cbn [fold_left]; rewrite update_nth, Nat.eqb_refl, Hd; reflexivity.
  - cbn [fold_left].
    assert (Hb : b <> d) by (intros ->; apply Hnot; left; reflexivity).
    assert (Hrest : ~ In d rest) by (intros H; apply Hnot; right; exact H).
    assert (Hswap :
        update b (moveLinked dX dY)
          (update d (fun item => setPropertiesPosition p (setPosition p item))
                  items)
        = update d (fun item => setPropertiesPosition p (setPosition p item))
            (update b (moveLinked dX dY) items)).
    { apply nth_error_ext; intros j; rewrite !update_nth.
      destruct (Nat.eqb j b) eqn:Eb, (Nat.eqb j d) eqn:Ed; try reflexivity.
      apply Nat.eqb_eq in Eb, Ed; congruence. }
    rewrite Hswap; apply (IH Hrest).
    rewrite update_nth.
    replace (Nat.eqb d b) with false
      by (symmetry; apply Nat.eqb_neq; congruence).
    exact Hd.
Qed.

End Tracking.

End DragTrackFacts.

Section DragTracking.
Import Js JsFacts Workflow WorkstatusState DragFacts GroupDragFacts.
Import DragTrackFacts.
Variable numberToString : R -> string.

Lemma timer_starts_drag scrollContainer st event d item :
  clickTimeout st = Some (event, d) ->
  nth_error (items st) d = Some item ->
  let st0 := Workstatus.clickTimeoutFired scrollContainer st in
  items st0 = items st /\ dragging st0 d (linkedButtons st0).
Proof.
  intros Hclick Hitem st0.
  destruct (type item) eqn:Htype;
    try (subst st0; unfold Workstatus.clickTimeoutFired;
         rewrite Hclick, Hitem, Htype; cbn;
         split; [reflexivity|]; repeat split; [constructor | tauto]).
  destruct (clickTimeoutFired_dragging scrollContainer st event d item
              Hclick Hitem Htype) as (Hi & Hdrag & _).
  split; assumption.
Qed.

Lemma press_starts_drag scrollEl st event d item :
  nth_error (items st) d = Some item ->
  let st0 := WorkstatusJsonServer.startDragging scrollEl d event st in
  items st0 = items st /\ dragging st0 d (linkedButtons st0).
Proof.
  intros Hitem st0.
  destruct (type item) eqn:Htype;
    try (subst st0; unfold WorkstatusJsonServer.startDragging;
         rewrite Hitem, Htype; cbn [isAction2];
         destruct scrollEl as [sc|]; [destruct (Dom.canvasRect sc)|]; cbn;
         (split; [reflexivity|]); repeat split; solve [constructor | tauto]).
  destruct (startDragging_dragging scrollEl st event d item Hitem Htype)
    as (Hi & Hdrag & _).
  split; assumption.
Qed.

(** In the revision that snaps, once the click timer has started the
    drag of an item (the canvas element being there), every [mousemove]
    puts the item at the grid point nearest to where the pointer has
    taken it: its position at the press, plus the displacement of the
    pointer, plus what the container has scrolled since; whatever
    [mousemove] events came before. *)
Theorem snapping_drag_follows_pointer :
  forall st event0 d item sc0 rect0 moves sc event,
    clickTimeout st = Some (event0, d) ->
    nth_error (items st) d = Some item ->
    Dom.canvasRect sc0 = Some rect0 ->
    let step m s :=
      Workstatus.onMouseMove numberToString (fst m) (snd m) s in
    let st0 := Workstatus.clickTimeoutFired (Some sc0) st in
    let st1 := fold_left (fun s m => step m s) moves st0 in
    let st2 := step (Some sc, event) st1 in
    let targetX := x (position item)
                   + (Dom.clientX event - Dom.clientX event0)
                   + (Dom.scrollLeft sc - Dom.scrollLeft sc0) in
    let targetY := y (position item)
                   + (Dom.clientY event - Dom.clientY event0)
                   + (Dom.scrollTop sc - Dom.scrollTop sc0) in
    exists p,
      positionAt st2 d = Some p /\
      x p = Math_round (targetX / 20) * 20 /\
      y p = Math_round (targetY / 20) * 20 /\
      targetX - 10 < x p <= targetX + 10 /\
      targetY - 10 < y p <= targetY + 10.
Proof.
  intros st event0 d item sc0 rect0 moves sc event Hclick Hitem Hrect
         step st0 st1 st2 targetX targetY.
  destruct (timer_starts_drag (Some sc0) st event0 d item Hclick Hitem)
    as (Hi0 & Hd0 & Hl0 & Hnd & Hnotin).
  fold st0 in Hi0, Hd0, Hl0, Hnd, Hnotin.
  assert (Hf0 : offset st0
                = {| x := Dom.clientX event0 - x (position item);
                     y := Dom.clientY event0 - y (position item) |} /\
                (exists co, canvasOffset st0 = Some co) /\
                scrollAtDragStart st0
                = Some (Dom.scrollLeft sc0, Dom.scrollTop sc0) /\
                isDragging st0 = true).
  { subst st0; unfold Workstatus.clickTimeoutFired.
    rewrite Hclick, Hitem, Hrect; cbn; repeat split; eexists; reflexivity. }
  destruct Hf0 as (Hoff0 & (co & Hco0) & Hsa0 & Hdr0).
  pose proof (snapping_run_held numberToString moves st0) as Hrun.
  cbv zeta in Hrun; change (fold_left _ moves st0) with st1 in Hrun.
  destruct Hrun as ((Hd1 & Hl1 & Hoff1 & Hco1 & Hsa1 & Hlen1) & Hdr1).
  assert (Hcur : exists cur, nth_error (items st1) d = Some cur).
  { destruct (nth_error (items st1) d) as [cur|] eqn:E; [eauto|].
    apply nth_error_None in E; rewrite Hlen1, Hi0 in E.
    assert (d < List.length (items st))%nat
      by (apply nth_error_Some; congruence).
    lia. }
  destruct Hcur as (cur & Hcur).
  assert (Hpos : positionAt st2 d
                 = Some {| x := Math_round (targetX / 20) * 20;
                           y := Math_round (targetY / 20) * 20 |}).
  { subst st2; unfold step, Workstatus.onMouseMove; cbn [fst snd].
    rewrite Hdr1, Hdr0, Hd1, Hd0, Hcur, Hco1, Hco0, Hsa1, Hsa0, Hoff1, Hoff0.
    cbv zeta; cbn [x y].
    unfold positionAt, Workstatus.refreshArrows; cbn [items setGraph].
    rewrite (dragged_lands _ d cur); [|exact Hcur|rewrite Hl1; exact Hnotin].
    subst targetX targetY.
    match goal with
    | |- Some {| x := Math_round (?a / 20) * 20;
                 y := Math_round (?b / 20) * 20 |}
         = Some {| x := Math_round (?a' / 20) * 20;
                   y := Math_round (?b' / 20) * 20 |} =>
        replace a with a' by ring; replace b with b' by ring
    end.
    reflexivity. }
  eexists; split; [exact Hpos|]; cbn [x y].
  split; [reflexivity|]; split; [reflexivity|]; split; apply snap_nearest.
Qed.

(** In the revision on the JSON server, once a press has prepared the
    drag of an item (the canvas element being there), every [mousemove]
    puts the item at its position at the press, plus the displacement of
    the pointer, plus what the container has scrolled since, minus the
    scroll position of the container at the press; so the item is where
    the pointer has taken it exactly when the container was not
    scrolled at the press. *)
Theorem free_drag_follows_pointer :
  forall st event0 d item sc0 rect0 moves sc event,
    nth_error (items st) d = Some item ->
    Dom.canvasRect sc0 = Some rect0 ->
    let step m s :=
      WorkstatusJsonServer.onMouseMove numberToString (fst m) (snd m) s in
    let st0 := WorkstatusJsonServer.startDragging (Some sc0) d event0 st in
    let st1 := fold_left (fun s m => step m s) moves st0 in
    let st2 := step (Some sc, event) st1 in
    let targetX := x (position item)
                   + (Dom.clientX event - Dom.clientX event0)
                   + (Dom.scrollLeft sc - Dom.scrollLeft sc0) in
    let targetY := y (position item)
                   + (Dom.clientY event - Dom.clientY event0)
                   + (Dom.scrollTop sc - Dom.scrollTop sc0) in
    positionAt st2 d
    = Some {| x := targetX - Dom.scrollLeft sc0;
              y := targetY - Dom.scrollTop sc0 |} /\
    (positionAt st2 d = Some {| x := targetX; y := targetY |} <->
     Dom.scrollLeft sc0 = 0 /\ Dom.scrollTop sc0 = 0).
Proof.
  intros st event0 d item sc0 rect0 moves sc event Hitem Hrect
         step st0 st1 st2 targetX targetY.
  destruct (press_starts_drag (Some sc0) st event0 d item Hitem)
    as (Hi0 & Hd0 & Hl0 & Hnd & Hnotin).
  fold st0 in Hi0, Hd0, Hl0, Hnd, Hnotin.
  assert (Hf0 : offset st0
                = {| x := Dom.clientX event0 - Dom.left rect0
                          + Dom.scrollLeft sc0 - x (position item);
                     y := Dom.clientY event0 - Dom.top rect0
                          + Dom.scrollTop sc0 - y (position item) |} /\
                canvasOffset st0 = Some (Dom.left rect0, Dom.top rect0) /\
                scrollAtDragStart st0
                = Some (Dom.scrollLeft sc0, Dom.scrollTop sc0)).
  { subst st0; unfold WorkstatusJsonServer.startDragging.
    rewrite Hitem, Hrect; cbn; repeat split. }
  destruct Hf0 as (Hoff0 & Hco0 & Hsa0).
  pose proof (free_run_held numberToString moves st0) as Hrun.
  change (fold_left _ moves st0) with st1 in Hrun.
  destruct Hrun as (Hd1 & Hl1 & Hoff1 & Hco1 & Hsa1 & Hlen1).
  assert (Hcur : exists cur, nth_error (items st1) d = Some cur).
  { destruct (nth_error (items st1) d) as [cur|] eqn:E; [eauto|].
    apply nth_error_None in E; rewrite Hlen1, Hi0 in E.
    assert (d < List.length (items st))%nat
      by (apply nth_error_Some; congruence).
    lia. }
  destruct Hcur as (cur & Hcur).
  assert (Hpos : positionAt st2 d
                 = Some {| x := targetX - Dom.scrollLeft sc0;
                           y := targetY - Dom.scrollTop sc0 |}).
  { subst st2; unfold step, WorkstatusJsonServer.onMouseMove; cbn [fst snd].
    rewrite Hd1, Hd0, Hco1, Hco0, Hsa1, Hsa0.
    set (st1' := if isDragging st1 then st1 else _).
    assert (H1 : items st1' = items st1 /\ offset st1' = offset st1 /\
                 linkedButtons st1' = linkedButtons st1)
      by (unfold st1'; destruct (isDragging st1); cbn; auto).
    destruct H1 as (Hi1' & Hoff1' & Hl1').
    rewrite Hi1', Hcur, Hoff1', Hoff1, Hoff0.
    cbv zeta; cbn [x y].
    unfold positionAt, WorkstatusJsonServer.refreshArrows;
      cbn [items setGraph].
    rewrite (dragged_lands _ d cur);
      [|exact Hcur|rewrite Hl1', Hl1; exact Hnotin].
    subst targetX targetY; do 2 f_equal; ring. }
  split; [exact Hpos|].
  rewrite Hpos; split.
  - intros [= Hx Hy]; split; lra.
  - intros [Hx Hy]; rewrite Hx, Hy; do 2 f_equal; ring.
Qed.

End DragTracking.

(** ** WorkstatusComponent on the JSON server: the click timer and the
    property panel *)

Module WorkstatusJsonServerPanel.
Import Workflow WorkstatusState.

(** [onItemClick]: a reject node has no panel. *)
Definition onItemClick (ref : nat) (st : State) : State :=
  match nth_error (items st) ref with
  | Some item =>
      if isReject (type item) then st
      else setClick (clickTimeout st) (Some ref) true st
  | None => st
  end.

(** The body of the timer [onMouseDown] starts: 200 ms after a press
    that no [mousemove] has followed, the panel opens. *)
Definition clickTimeoutFired (st : State) : State :=
  match clickTimeout st with
  | Some (_, ref) =>
      let st1 := if isDragging st then st else onItemClick ref st in
      setClick None (selectedItem st1) (propertyPanelOpen st1) st1
  | None => st
  end.

Definition closePropertyPanel (st : State) : State :=
  setClick (clickTimeout st) None false st.

End WorkstatusJsonServerPanel.

Section WorkstatusFreeInvariant.
Import Js JsFacts Workflow WorkstatusState DragFacts CanvasFacts.
Variable numberToString : R -> string.

(** What the user and the click timer do to the component of the
    revision on the JSON server. *)
Inductive FreeGesture :=
| FreePick (label : string)
| FreeDrop (now : string) (scrollEl : option Dom.ScrollContainer)
           (event : Dom.MouseEvent)
| FreePress (scrollEl : option Dom.ScrollContainer)
            (event : Dom.MouseEvent) (ref : nat)
| FreeTimer
| FreeMove (scrollEl : option Dom.ScrollContainer) (event : Dom.MouseEvent)
| FreeRelease
| FreeClosePanel.

Definition freeReact (st : State) (g : FreeGesture) : State :=
  match g with
  | FreePick label => WorkstatusJsonServer.onToolbarButtonMouseDown label st
  | FreeDrop now scrollEl event =>
      WorkstatusJsonServer.onToolbarDragEnd numberToString now scrollEl
        event st
  | FreePress scrollEl event ref =>
      WorkstatusJsonServer.onMouseDown scrollEl event ref st
  | FreeTimer => WorkstatusJsonServerPanel.clickTimeoutFired st
  | FreeMove scrollEl event =>
      WorkstatusJsonServer.onMouseMove numberToString scrollEl event st
  | FreeRelease => WorkstatusJsonServer.onMouseUp st
  | FreeClosePanel => WorkstatusJsonServerPanel.closePropertyPanel st
  end.

Lemma getDefaultProperties_mirrors now label p st :
  propPosition (fst (WorkstatusJsonServer.getDefaultProperties now label p st))
  = {| x := x p; y := y p |} /\
  let st' := snd (WorkstatusJsonServer.getDefaultProperties now label p st) in
  items st' = items st /\ arrows st' = arrows st /\
  nextId st' = nextId st /\ lastCreatedItem st' = lastCreatedItem st.
Proof.
  unfold WorkstatusJsonServer.getDefaultProperties.
  destruct (find _ (workflowData st)); cbn; repeat split.
Qed.

Lemma createItemAtPosition_coherent now px py st :
  coherent numberToString st ->
  coherent numberToString
    (WorkstatusJsonServer.createItemAtPosition numberToString now px py st).
Proof.
  intros Hc; unfold WorkstatusJsonServer.createItemAtPosition.
  destruct (toolbarDragType st) as [dragType|]; [|exact Hc].
  destruct (String.eqb (toolbarDragLabel st) EmptyString); [exact Hc|].
  pose proof (getDefaultProperties_mirrors now (toolbarDragLabel st)
                {| x := px - 70; y := py - 32 |} st) as (Hp & H1).
  destruct (WorkstatusJsonServer.getDefaultProperties now
              (toolbarDragLabel st) {| x := px - 70; y := py - 32 |} st)
    as [props st1].
  cbn [fst snd] in Hp, H1; destruct H1 as (Hi1 & Ha1 & Hn1 & Hl1).
  pose proof Hc as (_ & _ & _ & _ & Hsync & Hlast).
  assert (Hold : forall more,
             Forall (anchored (items st ++ more)) (arrows st)).
  { intros more; eapply Forall_impl; [|exact Hsync].
    intros a Ha; apply inSync_anchored in Ha.
    apply (anchored_longer (items st)); [|exact Ha].
    rewrite length_app; lia. }
  cbv zeta.
  destruct (String.eqb (toolbarDragLabel st) "Action 2").
  - match goal with
    | |- context [WorkstatusJsonServer.getDefaultProperties now "Continue"
                    ?p ?s] =>
        pose proof (getDefaultProperties_mirrors now "Continue" p s)
          as (Hpc & H2);
        destruct (WorkstatusJsonServer.getDefaultProperties now "Continue"
                    p s) as [continueProps st2a]
    end.
    cbn [fst snd] in Hpc, H2; destruct H2 as (Hi2 & Ha2 & Hn2 & Hl2).
    cbn [items arrows nextId lastCreatedItem setGraph setCounters] in
      Hi2, Ha2, Hn2, Hl2.
    apply saveCanvasState_coherent.
    unfold WorkstatusJsonServer.refreshArrows.
    cbn [items arrows nextId lastCreatedItem setGraph setCounters setDrag].
    rewrite Hi2, Ha2, Hn2, Hi1, Ha1, Hn1, Hl1, <- !app_assoc.
    cbn [app].
    eapply (coherent_grow numberToString st _ _ _ _ Hc);
      [| | | | | reflexivity | reflexivity | reflexivity | reflexivity].
    + cbn [map seq List.length app id]; repeat (f_equal; try lia).
    + cbn [nextId setGraph setCounters setDrag List.length app]; lia.
    + repeat constructor; eexists; (split; [reflexivity|]); cbn;
        try assumption; reflexivity.
    + apply createArrow_anchored, createArrow_anchored;
        try (rewrite length_app; cbn; lia).
      destruct (lastCreatedItem st) as [l|] eqn:El; [|apply Hold].
      apply createArrow_anchored; [| |apply Hold];
        rewrite length_app; cbn; [specialize (Hlast l eq_refl)|]; lia.
    + intros l [= <-]; rewrite length_app; cbn; lia.
  - apply saveCanvasState_coherent.
    unfold WorkstatusJsonServer.refreshArrows.
    cbn [items arrows nextId lastCreatedItem setGraph setCounters setDrag].
    rewrite Hi1, Ha1, Hn1, Hl1.
    eapply (coherent_grow numberToString st _ _ _ _ Hc);
      [| | | | | reflexivity | reflexivity | reflexivity | reflexivity].
    + cbn [map seq List.length app id]; repeat (f_equal; try lia).
    + cbn [nextId setGraph setCounters setDrag List.length app]; lia.
    + repeat constructor; eexists; (split; [reflexivity|]); cbn;
        assumption.
    + destruct (lastCreatedItem st) as [l|] eqn:El; [|apply Hold].
      apply createArrow_anchored; [| |apply Hold];
        rewrite length_app; cbn; [specialize (Hlast l eq_refl)|]; lia.
    + intros l [= <-]; rewrite length_app; cbn; lia.
Qed.

Lemma free_onMouseMove_coherent scrollEl event st :
  coherent numberToString st ->
  coherent numberToString
    (WorkstatusJsonServer.onMouseMove numberToString scrollEl event st).
Proof.
  intros Hc; unfold WorkstatusJsonServer.onMouseMove.
  destruct (draggedItem st) as [d|]; [|exact Hc].
  destruct (canvasOffset st) as [[offLeft offTop]|]; [|exact Hc].
  destruct (scrollAtDragStart st) as [[startLeft startTop]|]; [|exact Hc].
  set (st1 := if isDragging st then st else _).
  assert (Hc1 : coherent numberToString st1).
  { unfold st1; destruct (isDragging st); [exact Hc|].
    apply (coherent_transfer numberToString st); auto. }
  clearbody st1.
  destruct scrollEl as [sc|]; [|exact Hc1].
  destruct (nth_error (items st1) d) as [dragged|]; [|exact Hc1].
  cbv zeta.
  eapply (coherent_moved numberToString st1);
    [exact Hc1 | | | reflexivity | reflexivity | reflexivity | reflexivity].
  - unfold WorkstatusJsonServer.refreshArrows; cbn [items setGraph].
    rewrite moveAllLinked_ids; apply update_ids; reflexivity.
  - unfold WorkstatusJsonServer.refreshArrows; cbn [items setGraph].
    destruct Hc1 as (_ & _ & _ & Hmir & _).
    apply moveAllLinked_Forall; [intros item; apply moveLinked_mirrored|].
    apply update_Forall; [intros item; apply setBoth_mirrored | exact Hmir].
Qed.

Lemma freeReact_coherent st g :
  coherent numberToString st -> coherent numberToString (freeReact st g).
Proof.
  intros Hc.
  destruct g as [label|now scrollEl event|scrollEl event ref| |scrollEl event
                | |]; cbn [freeReact].
  - apply (coherent_transfer numberToString st); auto.
  - unfold WorkstatusJsonServer.onToolbarDragEnd.
    destruct (toolbarDragActive st); [|exact Hc]; cbn [negb].
    destruct scrollEl as [sc|];
      [|apply (coherent_transfer numberToString st); auto].
    destruct (Dom.canvasRect sc) as [canvasRect|];
      [|apply (coherent_transfer numberToString st); auto].
    cbv zeta.
    match goal with
    | |- context [if ?b then _ else st] => destruct b
    end.
    + eapply (coherent_transfer numberToString);
        [| | | |eapply (createItemAtPosition_coherent now); exact Hc];
        reflexivity.
    + apply (coherent_transfer numberToString st); auto.
  - unfold WorkstatusJsonServer.onMouseDown,
      WorkstatusJsonServer.startDragging.
    cbn [items setClick].
    destruct (nth_error (items st) ref) as [item|];
      [|apply (coherent_transfer numberToString st); auto].
    destruct scrollEl as [sc|];
      [|apply (coherent_transfer numberToString st); auto].
    destruct (Dom.canvasRect sc);
      apply (coherent_transfer numberToString st); auto.
  - unfold WorkstatusJsonServerPanel.clickTimeoutFired.
    destruct (clickTimeout st) as [[event ref]|]; [|exact Hc].
    unfold WorkstatusJsonServerPanel.onItemClick.
    destruct (isDragging st);
      [apply (coherent_transfer numberToString st); auto|].
    destruct (nth_error (items st) ref) as [item|];
      [|apply (coherent_transfer numberToString st); auto].
    destruct (isReject (type item));
      apply (coherent_transfer numberToString st); auto.
  - apply free_onMouseMove_coherent, Hc.
  - apply (coherent_transfer numberToString st); auto.
  - apply (coherent_transfer numberToString st); auto.
Qed.

(** In the revision on the JSON server (part_003), from the component
    as constructed and whatever toolbar picks and drops, presses, timer
    expiries, pointer moves, releases and panel closings follow: no two
    items share an id and every id lies from 1 to below [nextId]; every
    item carries in its properties a copy of its position; every arrow
    joins two items of the list and its path is the path
    [calculateArrowPath] gives for their present positions; and the
    item created last is in the list. *)
Theorem free_gestures_keep_canvas_coherent :
  forall browser gestures,
    coherent numberToString (fold_left freeReact gestures (initial browser)).
Proof.
  intros browser gestures.
  assert (H0 : coherent numberToString (initial browser)).
  { unfold coherent; cbn.
    split; [constructor|]; split; [lia|]; split; [intros item []|].
    split; [constructor|]; split; [constructor | discriminate]. }
  revert H0; generalize (initial browser).
  induction gestures as [|g rest IH]; intros st H; [exact H|].
  cbn [fold_left]; apply IH, freeReact_coherent, H.
Qed.

End WorkstatusFreeInvariant.

Section DragTrackingWitnesses.
Import Js JsFacts Workflow WorkstatusState DragFacts GroupDragFacts.

Lemma snapping_drag_witness :
  clickTimeout pressedState = Some (pressAt, 0%nat) /\
  Dom.canvasRect plainScroll
  = Some {| Dom.left := 0; Dom.top := 0;
            Dom.right := 3200; Dom.bottom := 3200 |} /\
  exists p,
    positionAt
      (Workstatus.onMouseMove (fun _ => EmptyString) (Some plainScroll) moveTo
         (Workstatus.clickTimeoutFired (Some plainScroll) pressedState))
      0 = Some p.
Proof.
  split; [reflexivity|]; split; [reflexivity|].
  destruct (snapping_drag_follows_pointer (fun _ => EmptyString) pressedState
              pressAt 0%nat _ plainScroll _ [] plainScroll moveTo
              eq_refl eq_refl eq_refl) as (p & Hp & _).
  exists p; exact Hp.
Defined.

Lemma free_drag_witness :
  nth_error (items pressedState) 0
  = Some {| id := 1; label := "Action 2";
            position := {| x := 100; y := 100 |};
            type := action2; properties := None; workflowId := None |} /\
  Dom.canvasRect plainScroll
  = Some {| Dom.left := 0; Dom.top := 0;
            Dom.right := 3200; Dom.bottom := 3200 |} /\
  positionAt
    (WorkstatusJsonServer.onMouseMove (fun _ => EmptyString)
       (Some plainScroll) moveTo
       (WorkstatusJsonServer.startDragging (Some plainScroll) 0 pressAt
          pressedState))
    0
  = Some {| x := 100 + (237 - 150) + (0 - 0) - 0;
            y := 100 + (161 - 120) + (0 - 0) - 0 |}.
Proof.
  split; [reflexivity|]; split; [reflexivity|].
  apply (free_drag_follows_pointer (fun _ => EmptyString) pressedState
           pressAt 0%nat _ plainScroll _ [] plainScroll moveTo
           eq_refl eq_refl).
Defined.

End DragTrackingWitnesses.

(** ** Dropping a toolbar item outside the canvas *)

Section DropOutside.
Import Js JsFacts Workflow WorkstatusState.
Variable numberToString : R -> string.

(** The pointer is outside the rectangle. *)
Definition outside (event : Dom.MouseEvent) (rect : Dom.DOMRect) : Prop :=
  Dom.clientX event < Dom.left rect \/ Dom.clientX event > Dom.right rect \/
  Dom.clientY event < Dom.top rect \/ Dom.clientY event > Dom.bottom rect.

(** In the revision on the JSON server a toolbar drag that ends outside
    the canvas rectangle, or with no scroll container or no canvas
    element, creates nothing and ends the toolbar drag.  The revision
    that snaps does not look at the rectangle: with a scroll container
    every drop of a picked tool adds an item, wherever the pointer
    is. *)
Theorem drop_outside_the_canvas :
  (forall now scrollEl event st,
      match scrollEl with
      | Some sc =>
          match Dom.canvasRect sc with
          | Some rect => outside event rect
          | None => True
          end
      | None => True
      end ->
      let st' :=
        WorkstatusJsonServer.onToolbarDragEnd numberToString now scrollEl
          event st in
      items st' = items st /\ arrows st' = arrows st /\
      nextId st' = nextId st /\ sequenceCounter st' = sequenceCounter st /\
      lastCreatedItem st' = lastCreatedItem st /\ saved st' = saved st /\
      toolbarDragActive st' = false) /\
  (forall now sc event st type,
      toolbarDragActive st = true ->
      toolbarDragType st = Some type ->
      let st' :=
        Workstatus.onToolbarMouseUp numberToString now (Some sc) event st in
      List.length (items st') = S (List.length (items st)) /\
      toolbarDragActive st' = false).
Proof.
  split.
  - intros now scrollEl event st Hout st'; subst st'.
    unfold WorkstatusJsonServer.onToolbarDragEnd.
    destruct (toolbarDragActive st) eqn:Hact; cbn [negb];
      [|repeat split; exact Hact].
    destruct scrollEl as [sc|]; [|repeat split].
    destruct (Dom.canvasRect sc) as [rect|]; [|repeat split].
    cbv zeta.
    replace (geb (Dom.clientX event) (Dom.left rect)
             && leb (Dom.clientX event) (Dom.right rect)
             && geb (Dom.clientY event) (Dom.top rect)
             && leb (Dom.clientY event) (Dom.bottom rect)) with false;
      [repeat split|].
    symmetry; apply not_true_is_false; intros Hin.
    rewrite !andb_true_iff, !geb_true, !leb_true in Hin.
    unfold outside in Hout; lra.
  - intros now sc event st type Hact Htype st'; subst st'.
    unfold Workstatus.onToolbarMouseUp; rewrite Hact, Htype.
    cbn [items toolbarDragActive setToolbar].
    unfold Workstatus.createNewItemFromToolbar.
    rewrite saveCanvasState_items.
    unfold Workstatus.refreshArrows; cbn [items setGraph setCounters].
    rewrite length_app; cbn; split; [lia | reflexivity].
Qed.

End DropOutside.

(** ** The buttons attached to a drag, by reference *)

Section AttachedButtons.
Import Js JsFacts Workflow WorkstatusState DragFacts GroupDragFacts.
Import CanvasFacts.
Variable numberToString : R -> string.

(** With distinct ids, the test on ids [hasArrow] makes finds the arrows
    between the two items themselves. *)
Lemma hasArrow_refs items arrows d item b c :
  NoDup (map id items) ->
  nth_error items d = Some item -> nth_error items b = Some c ->
  hasArrow items arrows item c = true <->
  exists a, In a arrows /\ from a = d /\ to a = b.
Proof.
  intros Hnd Hd Hb; unfold hasArrow; rewrite existsb_exists.
  assert (Hsame : forall i j x y,
             nth_error items i = Some x -> nth_error items j = Some y ->
             id x = id y -> i = j).
  { intros i j x y Hi Hj Hid.
    apply (proj1 (NoDup_nth_error (map id items)) Hnd).
    - rewrite length_map; apply nth_error_Some; congruence.
    - rewrite !nth_error_map, Hi, Hj; cbn; congruence. }
  split.
  - intros (a & Ha & Htest); exists a; split; [exact Ha|].
    unfold idAt in Htest.
    destruct (nth_error items (from a)) as [f|] eqn:Ef; [|discriminate].
    destruct (nth_error items (to a)) as [t|] eqn:Et; [|discriminate].
    cbn in Htest; apply andb_true_iff in Htest as [H1 H2].
    apply Z.eqb_eq in H1, H2.
    split; [apply (Hsame _ _ _ _ Ef Hd H1) | apply (Hsame _ _ _ _ Et Hb H2)].
  - intros (a & Ha & <- & <-); exists a; split; [exact Ha|].
    unfold idAt; rewrite Hd, Hb; cbn; rewrite !Z.eqb_refl; reflexivity.
Qed.

(** One child of each kind that [hasArrow] accepts is attached by the
    timer, the first of its kind. *)
Lemma timer_finds_children scrollContainer st event d item :
  clickTimeout st = Some (event, d) ->
  nth_error (items st) d = Some item ->
  type item = action2 ->
  let st0 := Workstatus.clickTimeoutFired scrollContainer st in
  forall j c,
    nth_error (items st) j = Some c ->
    type c = continue \/ type c = reject ->
    hasArrow (items st) (arrows st) item c = true ->
    exists b c',
      In b (linkedButtons st0) /\ (b <= j)%nat /\
      nth_error (items st) b = Some c' /\ type c' = type c.
Proof.
  intros Hclick Hitem Htype st0 j c Hj Hty Harrow.
  assert (Hl : linkedButtons st0
               = optList (Workstatus.findLinked (items st) (arrows st)
                            item isContinue (items st) 0)
                 ++ optList (Workstatus.findLinked (items st) (arrows st)
                               item isReject (items st) 0)).
  { unfold st0, Workstatus.clickTimeoutFired.
    rewrite Hclick, Hitem, Htype; reflexivity. }
  assert (Hkind : forall wanted,
             wanted (type c) = true ->
             (forall t, wanted t = true -> t = type c) ->
             In (Workstatus.findLinked (items st) (arrows st) item wanted
                   (items st) 0)
                [Workstatus.findLinked (items st) (arrows st) item
                   isContinue (items st) 0;
                 Workstatus.findLinked (items st) (arrows st) item
                   isReject (items st) 0] ->
             exists b c',
               In b (linkedButtons st0) /\ (b <= j)%nat /\
               nth_error (items st) b = Some c' /\ type c' = type c).
  { intros wanted Hw Honly Hmem.
    destruct (findLinked_finds (items st) (arrows st) item wanted
                (items st) 0 j c Hj Hw Harrow) as (b & Hb & Hle).
    pose proof (findLinked_some _ _ _ _ _ _ _ Hb)
      as (_ & c' & Hc' & Hw' & _).
    rewrite Nat.sub_0_r in Hc'.
    exists b, c'; split; [|split; [lia|split; [exact Hc'|]]].
    - rewrite Hl; rewrite Hb in Hmem.
      destruct Hmem as [E|[E|[]]]; rewrite E; apply in_or_app;
        [left | right]; left; reflexivity.
    - apply Honly, Hw'. }
  destruct Hty as [Hty|Hty].
  - apply (Hkind isContinue); [rewrite Hty; reflexivity | | left; reflexivity].
    intros t Ht; rewrite Hty; destruct t; try discriminate; reflexivity.
  - apply (Hkind isReject);
      [rewrite Hty; reflexivity | | right; left; reflexivity].
    intros t Ht; rewrite Hty; destruct t; try discriminate; reflexivity.
Qed.

(** The continue or reject node at [b] is the target of an arrow from
    the item at [d]. *)
Definition childByReference (st : State) (d b : nat) : Prop :=
  exists c a,
    nth_error (items st) b = Some c /\
    (type c = continue \/ type c = reject) /\
    In a (arrows st) /\ from a = d /\ to a = b.

Lemma childOf_by_reference st d item b :
  coherent numberToString st ->
  nth_error (items st) d = Some item ->
  childOf (items st) (arrows st) item b <-> childByReference st d b.
Proof.
  intros (Hnd & _) Hd; unfold childOf, childByReference.
  split.
  - intros (c & Hc & Ht & Ha).
    apply (hasArrow_refs _ _ d item b c Hnd Hd Hc) in Ha
      as (a & Hin & Hf & Hto).
    exists c, a; auto.
  - intros (c & a & Hc & Ht & Hin & Hf & Hto).
    exists c; split; [exact Hc|]; split; [exact Ht|].
    apply (hasArrow_refs _ _ d item b c Hnd Hd Hc); exists a; auto.
Qed.

(** In a coherent state, and so in every state the gestures reach, the
    buttons a press on an action2 node attaches are found by reference:
    in the revision on the JSON server they are the continue and reject
    nodes that are targets of an arrow from the node; in the revision
    that snaps they are among those, and one of each kind that exists
    is attached.  A press on any other node attaches nothing. *)
Theorem attached_buttons_by_reference :
  (forall st scrollEl event d item,
      coherent numberToString st ->
      nth_error (items st) d = Some item ->
      let st0 := WorkstatusJsonServer.startDragging scrollEl d event st in
      (type item = action2 ->
       forall b, In b (linkedButtons st0) <-> childByReference st d b) /\
      (type item <> action2 -> linkedButtons st0 = [])) /\
  (forall st scrollContainer event d item,
      coherent numberToString st ->
      clickTimeout st = Some (event, d) ->
      nth_error (items st) d = Some item ->
      let st0 := Workstatus.clickTimeoutFired scrollContainer st in
      (type item = action2 ->
       (forall b, In b (linkedButtons st0) -> childByReference st d b) /\
       (forall j, childByReference st d j ->
                  exists b c c',
                    In b (linkedButtons st0) /\ (b <= j)%nat /\
                    nth_error (items st) j = Some c /\
                    nth_error (items st) b = Some c' /\
                    type c' = type c)) /\
      (type item <> action2 -> linkedButtons st0 = [])).
Proof.
  pose proof childOf_by_reference as Hchild.
  split.
  - intros st scrollEl event d item Hc Hd st0; split.
    + intros Htype b.
      destruct (startDragging_dragging scrollEl st event d item Hd Htype)
        as (_ & _ & Hl).
      fold st0 in Hl; rewrite Hl; apply Hchild; assumption.
    + intros Htype; subst st0; unfold WorkstatusJsonServer.startDragging.
      rewrite Hd.
      destruct (type item); try contradiction; cbn [isAction2];
        (destruct scrollEl as [sc|]; [destruct (Dom.canvasRect sc)|]);
        reflexivity.
  - intros st sc event d item Hc Hclick Hd st0; split.
    + intros Htype.
      destruct (clickTimeoutFired_dragging sc st event d item Hclick Hd
                  Htype) as (_ & _ & Hsub).
      pose proof (timer_finds_children sc st event d item Hclick Hd Htype)
        as Hfind.
      fold st0 in Hsub, Hfind.
      split.
      * intros b Hb; apply (Hchild st d item b Hc Hd), Hsub, Hb.
      * intros j Hj; apply (Hchild st d item j Hc Hd) in Hj
          as (c & Hcj & Ht & Ha).
        destruct (Hfind j c Hcj Ht Ha) as (b & c' & Hb & Hle & Hc' & Hty).
        exists b, c, c'; auto.
    + intros Htype; subst st0; unfold Workstatus.clickTimeoutFired.
      rewrite Hclick, Hd.
      destruct (type item); try contradiction; reflexivity.
Qed.

End AttachedButtons.

(** ** Dropping "Action 2" in the revision on the JSON server *)

Section Action2Drop.
Import Js JsFacts Workflow WorkstatusState DragFacts GroupDragFacts.
Import CanvasFacts.
Variable numberToString : R -> string.

(** The two references and the dash pattern of an arrow. *)
Definition refs (a : Arrow) : nat * nat * option string :=
  (from a, to a, strokeDasharray a).

Lemma updateAllArrows_refs items arrows :
  map refs (updateAllArrows numberToString items arrows) = map refs arrows.
Proof.
  unfold updateAllArrows; rewrite map_map; apply map_ext; intros a.
  unfold updateArrow.
  destruct (nth_error items (from a)); [|reflexivity].
  destruct (nth_error items (to a)); reflexivity.
Qed.

Lemma createArrow_refs items f t arrows :
  map refs (createArrow items f t arrows)
  = map refs arrows
    ++ [(f, t,
         if match nth_error items f, nth_error items t with
            | Some a, Some b => isDottedLine a b
            | _, _ => false
            end
         then Some "4,8"%string else None)].
Proof. unfold createArrow; rewrite map_app; reflexivity. Qed.

Lemma refs_In a arrows :
  In a arrows -> In (refs a) (map refs arrows).
Proof. apply in_map. Qed.

(** The arrow [createItemAtPosition] draws from the item created last,
    when there is one. *)
Definition arrowFromLast (st : State) : list (nat * nat * option string) :=
  match lastCreatedItem st with
  | Some l => [(l, List.length (items st), None)]
  | None => []
  end.

Lemma append_nth {A} (l : list A) more k :
  nth_error (l ++ more) (List.length l + k) = nth_error more k.
Proof.
  rewrite nth_error_app2 by lia.
  f_equal; lia.
Qed.

Lemma append_nth0 {A} (l : list A) more :
  nth_error (l ++ more) (List.length l) = nth_error more 0.
Proof. rewrite <- (append_nth l more 0); f_equal; lia. Qed.

Lemma append_nth1 {A} (l : list A) more :
  nth_error (l ++ more) (S (List.length l)) = nth_error more 1.
Proof. rewrite <- (append_nth l more 1); f_equal; lia. Qed.

Lemma append_nth2 {A} (l : list A) more :
  nth_error (l ++ more) (S (S (List.length l))) = nth_error more 2.
Proof. rewrite <- (append_nth l more 2); f_equal; lia. Qed.

(** In the revision on the JSON server, dropping "Action 2" on a
    coherent canvas appends three items with the next three ids: the
    action2 node with its centre at the drop point, a continue node 240
    to the right and 70 above it, a reject node 240 to the right and 70
    below it.  The arrows are those there were, then a solid arrow from
    the item created last, if any, then two dashed arrows from the new
    node to its two children.  The continue node becomes the item
    created last, and a later press on the new node attaches exactly
    its two children. *)
Theorem action2_drop_brings_two_children :
  forall now px py st,
    coherent numberToString st ->
    toolbarDragType st = Some action2 ->
    toolbarDragLabel st = "Action 2"%string ->
    let st' :=
      WorkstatusJsonServer.createItemAtPosition numberToString now px py st in
    let n := List.length (items st) in
    (exists pa pc,
        items st'
        = items st ++
          [ {| id := nextId st; label := "Action 2"%string;
               position := {| x := px - 70; y := py - 32 |};
               type := action2; properties := Some pa;
               workflowId := None |};
            {| id := (nextId st + 1)%Z; label := "Continue"%string;
               position := {| x := px - 70 + 240; y := py - 32 - 70 |};
               type := continue; properties := Some pc;
               workflowId := None |};
            {| id := (nextId st + 1 + 1)%Z; label := "Reject"%string;
               position := {| x := px - 70 + 240; y := py - 32 + 70 |};
               type := reject;
               properties :=
                 Some {| sequence := None; name := None;
                         propPosition :=
                           {| x := px - 70 + 240; y := py - 32 + 70 |};
                         extra := [] |};
               workflowId := None |} ]) /\
    nextId st' = (nextId st + 1 + 2)%Z /\
    lastCreatedItem st' = Some (S n) /\
    linkedButtons st' = [S n; S (S n)] /\
    map refs (arrows st')
    = map refs (arrows st) ++ arrowFromLast st
      ++ [(n, S n, Some "4,8"%string); (n, S (S n), Some "4,8"%string)] /\
    forall scrollEl event b,
      In b (linkedButtons
              (WorkstatusJsonServer.startDragging scrollEl n event st'))
      <-> b = S n \/ b = S (S n).
Proof.
  intros now px py st Hc Htype Hlabel st' n.
  pose proof (createItemAtPosition_coherent numberToString now px py st Hc)
    as Hc'.
  fold st' in Hc'.
  assert (Hshape :
      (exists pa pc,
          items st'
          = items st ++
            [ {| id := nextId st; label := "Action 2"%string;
                 position := {| x := px - 70; y := py - 32 |};
                 type := action2; properties := Some pa;
                 workflowId := None |};
              {| id := (nextId st + 1)%Z; label := "Continue"%string;
                 position := {| x := px - 70 + 240; y := py - 32 - 70 |};
                 type := continue; properties := Some pc;
                 workflowId := None |};
              {| id := (nextId st + 1 + 1)%Z; label := "Reject"%string;
                 position := {| x := px - 70 + 240; y := py - 32 + 70 |};
                 type := reject;
                 properties :=
                   Some {| sequence := None; name := None;
                           propPosition :=
                             {| x := px - 70 + 240; y := py - 32 + 70 |};
                           extra := [] |};
                 workflowId := None |} ]) /\
      nextId st' = (nextId st + 1 + 2)%Z /\
      lastCreatedItem st' = Some (S n) /\
      linkedButtons st' = [S n; S (S n)] /\
      map refs (arrows st')
      = map refs (arrows st) ++ arrowFromLast st
        ++ [(n, S n, Some "4,8"%string); (n, S (S n), Some "4,8"%string)]).
  { subst st'; unfold WorkstatusJsonServer.createItemAtPosition.
    rewrite Htype, Hlabel.
    replace (String.eqb "Action 2" EmptyString) with false by reflexivity.
    replace (String.eqb "Action 2" "Action 2") with true by reflexivity.
    pose proof (getDefaultProperties_mirrors now "Action 2"%string
                  {| x := px - 70; y := py - 32 |} st) as (_ & H1).
    destruct (WorkstatusJsonServer.getDefaultProperties now "Action 2"%string
                {| x := px - 70; y := py - 32 |} st) as [props st1].
    cbn [fst snd] in H1; destruct H1 as (Hi1 & Ha1 & Hn1 & Hl1).
    cbv zeta.
    match goal with
    | |- context [WorkstatusJsonServer.getDefaultProperties now "Continue"%string
                    ?p ?s] =>
        pose proof (getDefaultProperties_mirrors now
                      "Continue"%string p s) as (_ & H2);
        destruct (WorkstatusJsonServer.getDefaultProperties now "Continue"%string
                    p s) as [continueProps st2a]
    end.
    cbn [fst snd] in H2; destruct H2 as (Hi2 & Ha2 & Hn2 & Hl2).
    cbn [items arrows nextId lastCreatedItem setGraph setCounters] in
      Hi2, Ha2, Hn2, Hl2.
    unfold WorkstatusJsonServer.refreshArrows.
    rewrite saveCanvasState_items.
    assert (Hsaved : forall s,
               nextId (saveCanvasState s) = nextId s /\
               lastCreatedItem (saveCanvasState s) = lastCreatedItem s /\
               linkedButtons (saveCanvasState s) = linkedButtons s /\
               arrows (saveCanvasState s) = arrows s)
      by (intros s; unfold saveCanvasState; destruct (isBrowser s);
          repeat split).
    match goal with
    | |- context [saveCanvasState ?s] =>
        destruct (Hsaved s) as (-> & -> & -> & ->)
    end.
    cbn [items arrows nextId lastCreatedItem linkedButtons
         setGraph setCounters setDrag x y].
    rewrite Hi2, Ha2, Hn2, Hi1, Ha1, Hn1, Hl1, <- app_assoc.
    cbn [app].
    split; [eexists _, _; reflexivity|].
    split; [reflexivity|].
    split; [reflexivity|]; split; [reflexivity|].
    rewrite updateAllArrows_refs, !createArrow_refs.
    rewrite !append_nth0, !append_nth1, !append_nth2.
    cbn [nth_error isDottedLine type].
    rewrite <- app_assoc; cbn [app].
    match goal with
    | |- map refs ?a1 ++ _ = _ =>
        assert (H1 : map refs a1 = map refs (arrows st) ++ arrowFromLast st)
    end.
    { unfold arrowFromLast.
      destruct (lastCreatedItem st) as [l|];
        [|rewrite app_nil_r; reflexivity].
      rewrite createArrow_refs, append_nth0; cbn [nth_error].
      f_equal.
      destruct (nth_error _ l) as [f|]; [|reflexivity].
      unfold isDottedLine; cbn [type]; destruct (type f); reflexivity. }
    rewrite H1, <- app_assoc; reflexivity. }
  destruct Hshape as ((pa & pc & Hitems) & Hnext & Hlast' & Hlinked & Hrefs).
  split; [exists pa, pc; exact Hitems|].
  split; [exact Hnext|]; split; [exact Hlast'|]; split; [exact Hlinked|].
  split; [exact Hrefs|].
  intros scrollEl event b.
  assert (Hn : nth_error (items st') n
               = Some {| id := nextId st; label := "Action 2"%string;
                         position := {| x := px - 70; y := py - 32 |};
                         type := action2; properties := Some pa;
                         workflowId := None |}).
  { rewrite Hitems; replace n with (n + 0)%nat by lia.
    unfold n; rewrite append_nth; reflexivity. }
  destruct (startDragging_dragging scrollEl st' event n _ Hn eq_refl)
    as (_ & _ & Hl).
  rewrite Hl, (childOf_by_reference numberToString st' n _ b Hc' Hn).
  unfold childByReference.
  pose proof Hc as (_ & _ & _ & _ & Hsync & Hlast).
  split.
  - intros (c & a & Hb & Hty & Hin & Hf & Ht).
    apply refs_In in Hin; rewrite Hrefs in Hin; unfold refs in Hin.
    rewrite Hf, Ht in Hin.
    apply in_app_or in Hin as [Hin|Hin];
      [|apply in_app_or in Hin as [Hin|Hin]].
    + apply in_map_iff in Hin as (old & Heq & Hold).
      apply (proj1 (Forall_forall _ _) Hsync), inSync_anchored in Hold.
      destruct Hold as [Hold _]; injection Heq as Heq _ _.
      fold n in Hold; lia.
    + unfold arrowFromLast in Hin.
      destruct (lastCreatedItem st) as [l|]; [|destruct Hin].
      destruct Hin as [Heq|[]]; injection Heq as Heq _.
      specialize (Hlast l eq_refl); fold n in Hlast; lia.
    + destruct Hin as [Heq|[Heq|[]]]; injection Heq as Heq; auto.
  - intros Hb.
    assert (Harrow : forall t,
               In (n, t, Some "4,8"%string) (map refs (arrows st')) ->
               exists a, In a (arrows st') /\ from a = n /\ to a = t).
    { intros t Hin; apply in_map_iff in Hin as (a & Heq & Ha).
      injection Heq as Hf Ht _; exists a; auto. }
    destruct Hb as [-> | ->].
    + destruct (Harrow (S n)) as (a & Ha & Hf & Ht).
      { rewrite Hrefs; apply in_or_app; right; apply in_or_app; right.
        left; reflexivity. }
      eexists _, a; split; [|split; [|auto]].
      * rewrite Hitems; replace (S n) with (n + 1)%nat by lia.
        unfold n; rewrite append_nth; reflexivity.
      * left; reflexivity.
    + destruct (Harrow (S (S n))) as (a & Ha & Hf & Ht).
      { rewrite Hrefs; apply in_or_app; right; apply in_or_app; right.
        right; left; reflexivity. }
      eexists _, a; split; [|split; [|auto]].
      * rewrite Hitems; replace (S (S n)) with (n + 2)%nat by lia.
        unfold n; rewrite append_nth; reflexivity.
      * right; reflexivity.
Qed.

End Action2Drop.

Section CanvasWitnesses.
Import Js JsFacts Workflow WorkstatusState DragFacts GroupDragFacts.
Import CanvasFacts.

Definition blankPath : R -> string := fun _ => EmptyString.

Lemma initial_coherent browser : coherent blankPath (initial browser).
Proof.
  unfold coherent; cbn.
  split; [constructor|]; split; [lia|]; split; [intros item []|].
  split; [constructor|]; split; [constructor | discriminate].
Qed.

(** "Action 2" picked from the toolbar of the fresh component. *)
Definition action2Picked : State :=
  WorkstatusJsonServer.onToolbarButtonMouseDown "Action 2"%string (initial true).

Lemma action2Picked_coherent : coherent blankPath action2Picked.
Proof.
  apply (coherent_transfer blankPath (initial true)); try reflexivity.
  apply initial_coherent.
Qed.

(** It is dropped at (500, 300). *)
Definition action2Dropped : State :=
  WorkstatusJsonServer.createItemAtPosition blankPath "2026-01-01 00:00:00"%string
    500 300 action2Picked.

Lemma action2Dropped_coherent : coherent blankPath action2Dropped.
Proof.
  apply createItemAtPosition_coherent, action2Picked_coherent.
Qed.

Definition farAway : Dom.MouseEvent :=
  {| Dom.clientX := 5000; Dom.clientY := 120 |}.

Lemma drop_outside_witness :
  outside farAway {| Dom.left := 0; Dom.top := 0;
                     Dom.right := 3200; Dom.bottom := 3200 |} /\
  items (WorkstatusJsonServer.onToolbarDragEnd blankPath
           "2026-01-01 00:00:00"%string (Some plainScroll) farAway action2Picked)
  = items action2Picked.
Proof.
  assert (H : outside farAway {| Dom.left := 0; Dom.top := 0;
                                 Dom.right := 3200; Dom.bottom := 3200 |})
    by (unfold outside; simpl; lra).
  split; [exact H|].
  apply (proj1 (drop_outside_the_canvas blankPath) "2026-01-01 00:00:00"%string
           (Some plainScroll) farAway action2Picked H).
Defined.

Lemma attached_buttons_witness :
  coherent blankPath action2Dropped /\
  linkedButtons
    (WorkstatusJsonServer.startDragging None 1 pressAt action2Dropped) = [].
Proof.
  split; [exact action2Dropped_coherent|].
  eapply (proj1 (attached_buttons_by_reference blankPath) action2Dropped
            None pressAt 1%nat _ action2Dropped_coherent).
  - reflexivity.
  - discriminate.
Defined.

Lemma action2_drop_witness :
  coherent blankPath action2Picked /\
  toolbarDragType action2Picked = Some action2 /\
  toolbarDragLabel action2Picked = "Action 2"%string /\
  linkedButtons action2Dropped = [1%nat; 2%nat].
Proof.
  split; [exact action2Picked_coherent|].
  split; [reflexivity|]; split; [reflexivity|].
  apply (action2_drop_brings_two_children blankPath "2026-01-01 00:00:00"%string
           500 300 action2Picked action2Picked_coherent eq_refl eq_refl).
Defined.

End CanvasWitnesses.

(** ** WorkstatusComponent: creating the canvas from the workflow records

  [autoCreateAction1FromJSON] is the same in both revisions of the
  component but for the call of [calculateAutoPosition] and the offsets
  of the two children of an action2 node. *)

Module AutoCreate.
Import Workflow WorkstatusState.

(** [workflowItem[key]] on the keys the record keeps in its bag. *)
Fixpoint lookupExtra (key : string) (extra : list (string * Json))
  : option Json :=
  match extra with
  | [] => None
  | (k, v) :: rest => if String.eqb key k then Some v else lookupExtra key rest
  end.

(** [workflowItem['return_input_property_value'] != null &&
     workflowItem['return_input_property_value'] !== ''] *)
Definition hasReturnValue (workflowItem : WorkflowProcessItem) : bool :=
  match lookupExtra "return_input_property_value" (wfExtra workflowItem) with
  | None | Some JNull => false
  | Some (JString s) => negb (String.eqb s EmptyString)
  | Some (JNumber _) => true
  end.

Definition isAction1 (t : ItemType) : bool :=
  match t with action1 => true | _ => false end.

(** [i.properties?.sequence || 0] *)
Definition sequenceOrZero (item : DraggableItem) : Z :=
  match properties item with
  | Some p => match sequence p with Some s => s | None => 0%Z end
  | None => 0%Z
  end.

(** [Math.max(...sequences, 0)] over the action1 and action2 items. *)
Definition maxSequence (items : list DraggableItem) : Z :=
  fold_right Z.max 0%Z
    (map sequenceOrZero
         (filter (fun i => isAction1 (type i) || isAction2 (type i)) items)).

(** What the loop has built: [items], [arrows], [lastCreatedItem] and
    [nextId]. *)
Record Built := {
  bItems : list DraggableItem;
  bArrows : list Arrow;
  bLast : option nat;
  bNextId : Z
}.

Definition nothingBuilt : Built :=
  {| bItems := []; bArrows := []; bLast := None; bNextId := 1 |}.

(** [if (this.lastCreatedItem) this.createArrow(this.lastCreatedItem, to)] *)
Definition linkFromLast (items : list DraggableItem) (last : option nat)
  (to : nat) (arrows : list Arrow) : list Arrow :=
  match last with
  | Some l => createArrow items l to arrows
  | None => arrows
  end.

Section Loop.
Context {Store : Type}.
(** The call of [calculateAutoPosition] as the revision makes it. *)
Variable place : WorkflowProcessItem -> nat -> Store -> Position * Store.
Variable childOffsetX : R.
Variable childOffsetY : R.
(** The conversion of the sequence number in the template literal. *)
Variable sequenceToString : Z -> string.

(** [workflowItem.name || `Action ${workflowItem.sequence}`] *)
Definition mainLabel (workflowItem : WorkflowProcessItem) : string :=
  if String.eqb (wfName workflowItem) EmptyString
  then String.append "Action " (sequenceToString (wfSequence workflowItem))
  else wfName workflowItem.

(** One turn of [sortedData.forEach]. *)
Definition createOne (index : nat) (workflowItem : WorkflowProcessItem)
  (b : Built) (store : Store) : Built * Store :=
  let '(position, store') := place workflowItem index store in
  let ref := List.length (bItems b) in
  if hasReturnValue workflowItem then
    let action2Item :=
      {| id := bNextId b; label := mainLabel workflowItem;
         position := {| x := x position; y := y position |};
         type := action2;
         properties :=
           Some (createPropertiesFromWorkflow workflowItem position);
         workflowId := Some (wfId workflowItem) |} in
    let continuePos :=
      {| x := x position + childOffsetX; y := y position - childOffsetY |} in
    let rejectPos :=
      {| x := x position + childOffsetX; y := y position + childOffsetY |} in
    let continueItem :=
      {| id := (bNextId b + 1)%Z; label := "Continue";
         position := {| x := x continuePos; y := y continuePos |};
         type := continue;
         properties := Some {| sequence := None; name := None;
                               propPosition := continuePos; extra := [] |};
         workflowId := None |} in
    let rejectItem :=
      {| id := (bNextId b + 2)%Z; label := "Reject";
         position := {| x := x rejectPos; y := y rejectPos |};
         type := reject;
         properties := Some {| sequence := None; name := None;
                               propPosition := rejectPos; extra := [] |};
         workflowId := None |} in
    let items' := bItems b ++ [action2Item; continueItem; rejectItem] in
    let arrows' :=
      createArrow items' ref (S (S ref))
        (createArrow items' ref (S ref)
           (linkFromLast items' (bLast b) ref (bArrows b))) in
    ({| bItems := items'; bArrows := arrows'; bLast := Some (S ref);
        bNextId := (bNextId b + 3)%Z |}, store')
  else
    let newItem :=
      {| id := bNextId b; label := mainLabel workflowItem;
         position := {| x := x position; y := y position |};
         type := action1;
         properties :=
           Some (createPropertiesFromWorkflow workflowItem position);
         workflowId := Some (wfId workflowItem) |} in
    let items' := bItems b ++ [newItem] in
    ({| bItems := items';
        bArrows := linkFromLast items' (bLast b) ref (bArrows b);
        bLast := Some ref; bNextId := (bNextId b + 1)%Z |}, store').

Fixpoint createAll (index : nat) (sortedData : list WorkflowProcessItem)
  (b : Built) (store : Store) : Built * Store :=
  match sortedData with
  | [] => (b, store)
  | workflowItem :: rest =>
      let '(b1, store1) := createOne index workflowItem b store in
      createAll (S index) rest b1 store1
  end.

Variable numberToString : R -> string.

(** [autoCreateAction1FromJSON].  The references a drag or the panel
    holds ([draggedItem], [linkedButtons], [selectedItem]) are not
    assigned: they keep pointing to the items there were before, which
    are no longer on the canvas. *)
Definition autoCreateAction1FromJSON (st : State) (store : Store)
  : State * Store :=
  match workflowData st with
  | [] => (st, store)
  | _ =>
      let sortedData := ServiceStorage.sortBySequence (workflowData st) in
      let '(b, store') := createAll 0 sortedData nothingBuilt store in
      (saveCanvasState
         (setCounters (bNextId b) (bLast b) (maxSequence (bItems b) + 1)%Z
            (setGraph (bItems b)
                      (updateAllArrows numberToString (bItems b) (bArrows b))
                      st)),
       store')
  end.

End Loop.

(** The revision that keeps positions in [localStorage]. *)
Definition placeStored (workflowItem : WorkflowProcessItem) (index : nat)
  (ls : Service.LocalStorage) : Position * Service.LocalStorage :=
  let '(p, ls') :=
    ServiceStorage.calculateAutoPositionDefault workflowItem index ls in
  (ServiceStorage.toCanvas p, ls').

Definition ACTION2_CHILD_HORIZONTAL_OFFSET : R := 280.
Definition ACTION2_CHILD_VERTICAL_SPACING : R := 90.

Definition autoCreateStored (sequenceToString : Z -> string)
  (numberToString : R -> string) (st : State) (ls : Service.LocalStorage)
  : State * Service.LocalStorage :=
  autoCreateAction1FromJSON placeStored
    ACTION2_CHILD_HORIZONTAL_OFFSET (ACTION2_CHILD_VERTICAL_SPACING / 2)
    sequenceToString numberToString st ls.

(** The revision on the JSON server: the placement reads the record
    only. *)
Definition AUTO_CREATE_START_X : R := 120.
Definition AUTO_CREATE_START_Y : R := 120.
Definition AUTO_CREATE_VERTICAL_SPACING : R := 150.

Definition placeFree (workflowItem : WorkflowProcessItem) (index : nat)
  (u : unit) : Position * unit :=
  (ServiceJsonServerPlacement.calculateAutoPosition workflowItem index
     AUTO_CREATE_START_X AUTO_CREATE_START_Y AUTO_CREATE_VERTICAL_SPACING,
   u).

Definition autoCreateFree (sequenceToString : Z -> string)
  (numberToString : R -> string) (st : State) : State :=
  fst (autoCreateAction1FromJSON placeFree 240 70
         sequenceToString numberToString st tt).

End AutoCreate.


Module AutoCreateFacts.
Import Js JsFacts Workflow WorkstatusState CanvasFacts AutoCreate.

(** Ids are 1, 2, ... in the order of the list, [nextId] is the next
    one, items carry a copy of their position, arrows stay inside the
    list, and so does the item created last. *)
Definition wellBuilt (b : Built) : Prop :=
  (forall i item, nth_error (bItems b) i = Some item ->
                  id item = (1 + Z.of_nat i)%Z) /\
  bNextId b = (1 + Z.of_nat (List.length (bItems b)))%Z /\
  Forall mirrored (bItems b) /\
  Forall (anchored (bItems b)) (bArrows b) /\
  (forall l, bLast b = Some l -> (l < List.length (bItems b))%nat).

Lemma nothingBuilt_wellBuilt : wellBuilt nothingBuilt.
Proof.
  unfold wellBuilt; cbn; repeat split; try constructor; try discriminate.
  intros [|i] item H; discriminate.
Qed.

Lemma ids_extend (l more : list DraggableItem) (next : Z) :
  (forall i item, nth_error l i = Some item -> id item = (1 + Z.of_nat i)%Z) ->
  next = (1 + Z.of_nat (List.length l))%Z ->
  (forall k item, nth_error more k = Some item ->
                  id item = (next + Z.of_nat k)%Z) ->
  forall i item, nth_error (l ++ more) i = Some item ->
                 id item = (1 + Z.of_nat i)%Z.
Proof.
  intros Hl -> Hm i item Hi.
  destruct (Nat.lt_ge_cases i (List.length l)) as [Hlt|Hge].
  - rewrite nth_error_app1 in Hi by exact Hlt; apply Hl, Hi.
  - rewrite nth_error_app2 in Hi by exact Hge.
    rewrite (Hm _ _ Hi); lia.
Qed.

Lemma ids_NoDup (l : list DraggableItem) :
  (forall i item, nth_error l i = Some item -> id item = (1 + Z.of_nat i)%Z) ->
  NoDup (map id l).
Proof.
  intros Hl; apply NoDup_nth_error; intros i j Hi Heq.
  rewrite length_map in Hi.
  rewrite !nth_error_map in Heq.
  destruct (nth_error l i) as [a|] eqn:Ea;
    [|apply nth_error_None in Ea; lia].
  destruct (nth_error l j) as [c|] eqn:Ec; [|discriminate].
  cbn in Heq; injection Heq as Heq.
  rewrite (Hl _ _ Ea), (Hl _ _ Ec) in Heq; lia.
Qed.

Lemma anchored_grow items more arrows :
  Forall (anchored items) arrows -> Forall (anchored (items ++ more)) arrows.
Proof.
  intros H; eapply Forall_impl; [|exact H].
  intros a Ha; apply (anchored_longer items); [|exact Ha].
  rewrite length_app; lia.
Qed.

Lemma linkFromLast_anchored items known last to arrows :
  (forall l, last = Some l -> (l < List.length items)%nat) ->
  (to < List.length items)%nat ->
  Forall (anchored items) arrows ->
  Forall (anchored items) (linkFromLast known last to arrows).
Proof.
  intros Hl Ht H; unfold linkFromLast; destruct last as [l|]; [|exact H].
  apply createArrow_anchored; auto.
Qed.

Section Loop.
Context {Store : Type}.
Variable place : WorkflowProcessItem -> nat -> Store -> Position * Store.
Variable childOffsetX : R.
Variable childOffsetY : R.
Variable sequenceToString : Z -> string.

Lemma createOne_wellBuilt index w b store :
  wellBuilt b ->
  wellBuilt (fst (createOne place childOffsetX childOffsetY sequenceToString
                    index w b store)).
Proof.
  intros (Hids & Hnext & Hmir & Harr & Hlast).
  unfold createOne.
  destruct (place w index store) as [position store'].
  destruct (hasReturnValue w); cbn [fst bItems bArrows bLast bNextId].
  - unfold wellBuilt; cbn [bItems bArrows bLast bNextId].
    split; [|split; [|split; [|split]]].
    + apply (ids_extend _ _ (bNextId b) Hids Hnext).
      intros [|[|[|k]]] item Hk; cbn in Hk;
        try (injection Hk as <-; cbn; lia).
      destruct k; discriminate.
    + rewrite length_app, Hnext; cbn [List.length]; lia.
    + apply Forall_app; split; [exact Hmir|].
      repeat constructor; eexists; split; reflexivity.
    + apply createArrow_anchored, createArrow_anchored;
        try (rewrite length_app; cbn; lia).
      apply linkFromLast_anchored;
        [intros l Hl; specialize (Hlast l Hl)| |apply anchored_grow, Harr];
        rewrite length_app; cbn; lia.
    + intros l [= <-]; rewrite length_app; cbn; lia.
  - unfold wellBuilt; cbn [bItems bArrows bLast bNextId].
    split; [|split; [|split; [|split]]].
    + apply (ids_extend _ _ (bNextId b) Hids Hnext).
      intros [|k] item Hk; cbn in Hk;
        try (injection Hk as <-; cbn; lia).
      destruct k; discriminate.
    + rewrite length_app, Hnext; cbn [List.length]; lia.
    + apply Forall_app; split; [exact Hmir|].
      repeat constructor; eexists; split; reflexivity.
    + apply linkFromLast_anchored;
        [intros l Hl; specialize (Hlast l Hl)| |apply anchored_grow, Harr];
        rewrite length_app; cbn; lia.
    + intros l [= <-]; rewrite length_app; cbn; lia.
Qed.

Lemma createAll_wellBuilt data :
  forall index b store,
    wellBuilt b ->
    wellBuilt (fst (createAll place childOffsetX childOffsetY
                      sequenceToString index data b store)).
Proof.
  induction data as [|w rest IH]; intros index b store Hb; [exact Hb|].
  cbn [createAll].
  pose proof (createOne_wellBuilt index w b store Hb) as H1.
  destruct (createOne place childOffsetX childOffsetY sequenceToString
              index w b store) as [b1 store1].
  apply IH, H1.
Qed.

End Loop.

Lemma wellBuilt_coherent numberToString b st :
  wellBuilt b ->
  items st = bItems b ->
  arrows st = updateAllArrows numberToString (bItems b) (bArrows b) ->
  nextId st = bNextId b -> lastCreatedItem st = bLast b ->
  coherent numberToString st.
Proof.
  intros (Hids & Hnext & Hmir & Harr & Hlast) Hi Ha Hn Hl.
  unfold coherent; rewrite Hi, Ha, Hn, Hl.
  split; [apply ids_NoDup, Hids|].
  split; [lia|]; split; [|split; [exact Hmir|split]].
  - intros item Hin; apply In_nth_error in Hin as [i Hi'].
    rewrite (Hids _ _ Hi').
    assert (i < List.length (bItems b))%nat
      by (apply nth_error_Some; congruence).
    lia.
  - apply updateAllArrows_inSync, Harr.
  - exact Hlast.
Qed.

End AutoCreateFacts.

Module AutoCreateShape.
Import Js JsFacts Workflow WorkstatusState CanvasFacts AutoCreate.
Import AutoCreateFacts.

(** The nodes one workflow record gives. *)
Definition nodeKinds (w : WorkflowProcessItem) : list ItemType :=
  if hasReturnValue w then [action2; continue; reject] else [action1].

Definition nodeWorkflowIds (w : WorkflowProcessItem) : list (option string) :=
  if hasReturnValue w then [Some (wfId w); None; None] else [Some (wfId w)].

Definition isMain (item : DraggableItem) : bool :=
  isAction1 (type item) || isAction2 (type item).

(** The two sorts of arrow: dashed from an action2 node to the continue
    or reject node one or two places after it, solid from an action1 or
    continue node to a later action1 or action2 node. *)
Definition described (items : list DraggableItem) (a : Arrow) : Prop :=
  exists f t,
    nth_error items (from a) = Some f /\ nth_error items (to a) = Some t /\
    (from a < to a)%nat /\
    ((strokeDasharray a = Some "4,8"%string /\ type f = action2 /\
      ((type t = continue /\ to a = S (from a)) \/
       (type t = reject /\ to a = S (S (from a))))) \/
     (strokeDasharray a = None /\
      (type f = action1 \/ type f = continue) /\
      (type t = action1 \/ type t = action2))).

(** What the loop has built out of the records [done]. *)
Definition shaped (done : list WorkflowProcessItem) (b : Built) : Prop :=
  map type (bItems b) = flat_map nodeKinds done /\
  map workflowId (bItems b) = flat_map nodeWorkflowIds done /\
  map sequenceOrZero (filter isMain (bItems b)) = map wfSequence done /\
  (done = [] -> bLast b = None) /\
  (done <> [] ->
   exists l exit,
     bLast b = Some l /\ nth_error (bItems b) l = Some exit /\
     (type exit = action1 \/ type exit = continue)) /\
  List.length (bArrows b)
  = (List.length done - 1
     + 2 * List.length (filter hasReturnValue done))%nat /\
  Forall (described (bItems b)) (bArrows b).

Lemma nothingBuilt_shaped : shaped [] nothingBuilt.
Proof.
  unfold shaped; cbn; repeat split; try reflexivity; try constructor.
  intros H; contradiction.
Qed.

Lemma described_grow items more a :
  described items a -> described (items ++ more) a.
Proof.
  intros (f & t & Hf & Ht & H); exists f, t.
  split; [|split; [|exact H]];
    rewrite nth_error_app1; try assumption;
    apply nth_error_Some; congruence.
Qed.

Lemma flat_map_snoc {A B} (f : A -> list B) l a :
  flat_map f (l ++ [a]) = flat_map f l ++ f a.
Proof. rewrite flat_map_app; cbn; rewrite app_nil_r; reflexivity. Qed.

Lemma filter_snoc {A} (f : A -> bool) l a :
  filter f (l ++ [a]) = filter f l ++ (if f a then [a] else []).
Proof. rewrite filter_app; reflexivity. Qed.

Section Loop.
Context {Store : Type}.
Variable place : WorkflowProcessItem -> nat -> Store -> Position * Store.
Variable childOffsetX : R.
Variable childOffsetY : R.
Variable sequenceToString : Z -> string.

Lemma createOne_shaped index w done b store :
  shaped done b ->
  shaped (done ++ [w])
         (fst (createOne place childOffsetX childOffsetY sequenceToString
                 index w b store)).
Proof.
  intros (Hty & Hwf & Hseq & Hnone & Hsome & Hlen & Hdesc).
  unfold createOne.
  destruct (place w index store) as [position store'].
  unfold shaped.
  rewrite !flat_map_snoc, filter_snoc, map_app, !length_app.
  unfold nodeKinds, nodeWorkflowIds.
  destruct (hasReturnValue w) eqn:Hret;
    cbn [fst bItems bArrows bLast bNextId].
  - match goal with
    | |- context [bItems b ++ ?m] => set (more := m)
    end.
    assert (Hm0 : nth_error (bItems b ++ more) (List.length (bItems b))
                  = nth_error more 0) by apply append_nth0.
    assert (Hm1 : nth_error (bItems b ++ more) (S (List.length (bItems b)))
                  = nth_error more 1) by apply append_nth1.
    assert (Hm2 : nth_error (bItems b ++ more)
                    (S (S (List.length (bItems b))))
                  = nth_error more 2) by apply append_nth2.
    split; [rewrite map_app, Hty; reflexivity|].
    split; [rewrite map_app, Hwf; reflexivity|].
    split; [rewrite filter_app, map_app, Hseq; reflexivity|].
    split; [intros H; destruct done; discriminate|].
    split.
    { intros _; eexists _, _; split; [reflexivity|]; split.
      - rewrite Hm1; reflexivity.
      - right; reflexivity. }
    split.
    { unfold createArrow, linkFromLast; rewrite !length_app.
      destruct done as [|w0 done'].
      - rewrite (Hnone eq_refl); cbn in *; lia.
      - destruct Hsome as (l & exit & -> & _); [discriminate|].
        unfold createArrow; rewrite length_app; cbn in *; lia. }
    unfold createArrow at 1 2; rewrite Hm0, Hm1, Hm2.
    cbn [nth_error more isDottedLine type].
    apply Forall_app; split; [apply Forall_app; split|].
    + unfold linkFromLast.
      destruct (bLast b) as [l|] eqn:El.
      * unfold createArrow; rewrite Hm0; cbn [nth_error more].
        apply Forall_app; split.
        -- eapply Forall_impl; [|exact Hdesc].
           intros a; apply described_grow.
        -- constructor; [|constructor].
           destruct done as [|w0 done'];
             [specialize (Hnone eq_refl); congruence|].
           destruct Hsome as (l' & exit & Hl' & Hexit & Htype);
             [discriminate|].
           injection Hl' as <-.
           assert (Hlt : (l < List.length (bItems b))%nat)
             by (apply nth_error_Some; congruence).
           exists exit; eexists.
           cbn [from to strokeDasharray].
           rewrite nth_error_app1, Hm0 by exact Hlt.
           split; [exact Hexit|]; split; [reflexivity|]; split; [exact Hlt|].
           right; rewrite Hexit.
           split; [|split; [exact Htype | right; reflexivity]].
           unfold isDottedLine; cbn [type]; destruct (type exit); reflexivity.
      * eapply Forall_impl; [|exact Hdesc].
        intros a; apply described_grow.
    + constructor; [|constructor].
      eexists _, _; cbn [from to strokeDasharray].
      rewrite Hm0, Hm1.
      split; [reflexivity|]; split; [reflexivity|]; split; [lia|].
      left; split; [reflexivity|]; split; [reflexivity|].
      left; split; reflexivity.
    + constructor; [|constructor].
      eexists _, _; cbn [from to strokeDasharray].
      rewrite Hm0, Hm2.
      split; [reflexivity|]; split; [reflexivity|]; split; [lia|].
      left; split; [reflexivity|]; split; [reflexivity|].
      right; split; reflexivity.
  - match goal with
    | |- context [bItems b ++ ?m] => set (more := m)
    end.
    assert (Hm0 : nth_error (bItems b ++ more) (List.length (bItems b))
                  = nth_error more 0) by apply append_nth0.
    split; [rewrite map_app, Hty; reflexivity|].
    split; [rewrite map_app, Hwf; reflexivity|].
    split; [rewrite filter_app, map_app, Hseq; reflexivity|].
    split; [intros H; destruct done; discriminate|].
    split.
    { intros _; eexists _, _; split; [reflexivity|]; split.
      - rewrite Hm0; reflexivity.
      - left; reflexivity. }
    split.
    { unfold linkFromLast.
      destruct done as [|w0 done'].
      - rewrite (Hnone eq_refl); cbn in *; lia.
      - destruct Hsome as (l & exit & -> & _); [discriminate|].
        unfold createArrow; rewrite length_app; cbn in *; lia. }
    unfold linkFromLast.
    destruct (bLast b) as [l|] eqn:El.
    + unfold createArrow; rewrite Hm0; cbn [nth_error more].
      apply Forall_app; split.
      * eapply Forall_impl; [|exact Hdesc].
        intros a; apply described_grow.
      * constructor; [|constructor].
        destruct done as [|w0 done'];
          [specialize (Hnone eq_refl); congruence|].
        destruct Hsome as (l' & exit & Hl' & Hexit & Htype);
          [discriminate|].
        injection Hl' as <-.
        assert (Hlt : (l < List.length (bItems b))%nat)
          by (apply nth_error_Some; congruence).
        exists exit; eexists.
        cbn [from to strokeDasharray].
        rewrite nth_error_app1, Hm0 by exact Hlt.
        split; [exact Hexit|]; split; [reflexivity|]; split; [exact Hlt|].
        right; rewrite Hexit.
        split; [|split; [exact Htype | left; reflexivity]].
        unfold isDottedLine; cbn [type]; destruct (type exit); reflexivity.
    + eapply Forall_impl; [|exact Hdesc].
      intros a; apply described_grow.
Qed.

End Loop.

End AutoCreateShape.

Module SortFacts.
Import Workflow ServiceStorage.

Definition sequenceLe (a b : WorkflowProcessItem) : Prop :=
  (wfSequence a <= wfSequence b)%Z.

Lemma insertWorkflow_perm a l : Permutation (a :: l) (insertWorkflow a l).
Proof.
  induction l as [|b l IH]; simpl; [reflexivity|].
  destruct (Z.leb (wfSequence a) (wfSequence b)); [reflexivity|].
  rewrite perm_swap; apply perm_skip, IH.
Qed.

Lemma sortBySequence_perm l : Permutation l (sortBySequence l).
Proof.
  induction l as [|a l IH]; simpl; [reflexivity|].
  rewrite <- insertWorkflow_perm; apply perm_skip, IH.
Qed.

Lemma insertWorkflow_sorted a l :
  StronglySorted sequenceLe l -> StronglySorted sequenceLe (insertWorkflow a l).
Proof.
  induction 1 as [|b l Hl IH Hb]; simpl.
  - constructor; constructor.
  - destruct (Z.leb (wfSequence a) (wfSequence b)) eqn:E.
    + apply Z.leb_le in E.
      constructor; [constructor; assumption|].
      constructor; [exact E|].
      eapply Forall_impl; [|exact Hb].
      unfold sequenceLe; intros c Hc; lia.
    + apply Z.leb_gt in E.
      constructor; [exact IH|].
      apply (Permutation_Forall (insertWorkflow_perm a l)).
      constructor; [unfold sequenceLe; lia | exact Hb].
Qed.

Lemma sortBySequence_sorted l : StronglySorted sequenceLe (sortBySequence l).
Proof.
  induction l as [|a l IH]; simpl.
  - constructor.
  - apply insertWorkflow_sorted, IH.
Qed.

Lemma insertWorkflow_stable k a l :
  filter (fun c => Z.eqb (wfSequence c) k) (insertWorkflow a l)
  = filter (fun c => Z.eqb (wfSequence c) k) (a :: l).
Proof.
  induction l as [|b l IH]; [reflexivity|].
  cbn [insertWorkflow].
  destruct (Z.leb (wfSequence a) (wfSequence b)) eqn:E; [reflexivity|].
  apply Z.leb_gt in E.
  cbn [filter] in *; rewrite IH.
  destruct (Z.eqb (wfSequence a) k) eqn:Ea,
           (Z.eqb (wfSequence b) k) eqn:Eb; try reflexivity.
  apply Z.eqb_eq in Ea, Eb; lia.
Qed.

Lemma sortBySequence_stable k l :
  filter (fun c => Z.eqb (wfSequence c) k) (sortBySequence l)
  = filter (fun c => Z.eqb (wfSequence c) k) l.
Proof.
  induction l as [|a l IH]; [reflexivity|].
  cbn [sortBySequence]; rewrite insertWorkflow_stable.
  cbn [filter]; rewrite IH; reflexivity.
Qed.

Lemma sortBySequence_nonempty l : l <> [] -> sortBySequence l <> [].
Proof.
  intros Hne Hs; apply Hne.
  apply Permutation_nil, Permutation_sym.
  rewrite <- Hs; apply sortBySequence_perm.
Qed.

(** [Math.max(...l, 0)] bounds every element and is one of them or 0. *)
Lemma max_bounds l :
  (0 <= fold_right Z.max 0 l)%Z /\
  Forall (fun v => (v <= fold_right Z.max 0 l)%Z) l.
Proof.
  induction l as [|v l [H0 IH]]; cbn [fold_right]; [split; [lia|constructor]|].
  split; [lia|].
  constructor; [lia|].
  eapply Forall_impl; [|exact IH]; cbn; intros; lia.
Qed.

(** A permutation keeps the number of elements that pass a test. *)
Lemma filter_length_perm {A} (f : A -> bool) l l' :
  Permutation l l' ->
  List.length (filter f l) = List.length (filter f l').
Proof.
  induction 1 as [|a l l' H IH|a c l|l l' l'' H1 IH1 H2 IH2]; simpl.
  - reflexivity.
  - destruct (f a); simpl; rewrite IH; reflexivity.
  - destruct (f a), (f c); reflexivity.
  - rewrite IH1; exact IH2.
Qed.

End SortFacts.

Module AutoCreateRun.
Import Js JsFacts Workflow WorkstatusState CanvasFacts AutoCreate.
Import AutoCreateFacts AutoCreateShape SortFacts.

Lemma described_update numberToString items a :
  described items a -> described items (updateArrow numberToString items a).
Proof.
  intros (f & t & Hf & Ht & H); unfold updateArrow; rewrite Hf, Ht.
  exists f, t; cbn [from to strokeDasharray]; auto.
Qed.

Lemma saveCanvasState_fields st :
  items (saveCanvasState st) = items st /\
  arrows (saveCanvasState st) = arrows st /\
  nextId (saveCanvasState st) = nextId st /\
  lastCreatedItem (saveCanvasState st) = lastCreatedItem st /\
  sequenceCounter (saveCanvasState st) = sequenceCounter st /\
  workflowData (saveCanvasState st) = workflowData st.
Proof.
  unfold saveCanvasState; destruct (isBrowser st); repeat split.
Qed.

Section Loop.
Context {Store : Type}.
Variable place : WorkflowProcessItem -> nat -> Store -> Position * Store.
Variable childOffsetX : R.
Variable childOffsetY : R.
Variable sequenceToString : Z -> string.
Variable numberToString : R -> string.

Lemma createAll_shaped data :
  forall index done b store,
    shaped done b ->
    shaped (done ++ data)
           (fst (createAll place childOffsetX childOffsetY sequenceToString
                   index data b store)).
Proof.
  induction data as [|w rest IH]; intros index done b store Hb.
  - rewrite app_nil_r; exact Hb.
  - cbn [createAll].
    pose proof (createOne_shaped place childOffsetX childOffsetY
                  sequenceToString index w done b store Hb) as H1.
    destruct (createOne place childOffsetX childOffsetY sequenceToString
                index w b store) as [b1 store1].
    replace (done ++ w :: rest) with ((done ++ [w]) ++ rest)
      by (rewrite <- app_assoc; reflexivity).
    apply IH, H1.
Qed.

(** What [autoCreateAction1FromJSON] leaves in the component when there
    are workflow records. *)
Lemma autoCreate_built st store :
  workflowData st <> [] ->
  let sorted := ServiceStorage.sortBySequence (workflowData st) in
  let b := fst (createAll place childOffsetX childOffsetY sequenceToString
                  0 sorted nothingBuilt store) in
  let st' := fst (autoCreateAction1FromJSON place childOffsetX childOffsetY
                    sequenceToString numberToString st store) in
  wellBuilt b /\ shaped sorted b /\
  items st' = bItems b /\
  arrows st' = updateAllArrows numberToString (bItems b) (bArrows b) /\
  nextId st' = bNextId b /\ lastCreatedItem st' = bLast b /\
  sequenceCounter st' = (maxSequence (bItems b) + 1)%Z /\
  workflowData st' = workflowData st.
Proof.
  intros Hne sorted b st'.
  split; [apply createAll_wellBuilt, nothingBuilt_wellBuilt|].
  split; [apply (createAll_shaped sorted 0%nat [] nothingBuilt store),
            nothingBuilt_shaped|].
  subst st'; unfold autoCreateAction1FromJSON.
  destruct (workflowData st) as [|w0 rest] eqn:Hdata; [contradiction|].
  fold sorted; subst b.
  destruct (createAll place childOffsetX childOffsetY sequenceToString
              0 sorted nothingBuilt store) as [b store'].
  cbn [fst].
  match goal with
  | |- context [saveCanvasState ?s] =>
      destruct (saveCanvasState_fields s) as (-> & -> & -> & -> & -> & ->)
  end.
  cbn; repeat split; exact Hdata.
Qed.

End Loop.

End AutoCreateRun.

(** ** The canvas after [ngOnInit] has loaded the workflow records *)

Section LoadedCanvas.
Import Js JsFacts Workflow WorkstatusState CanvasFacts AutoCreate.
Import AutoCreateFacts AutoCreateShape AutoCreateRun SortFacts.
Variable sequenceToString : Z -> string.
Variable numberToString : R -> string.

(** [this.workflowData = data] *)
Definition withWorkflowData (data : list WorkflowProcessItem) (st : State)
  : State :=
  {| items := items st; arrows := arrows st; workflowData := data;
     draggedItem := draggedItem st; offset := offset st;
     isDragging := isDragging st; nextId := nextId st;
     lastCreatedItem := lastCreatedItem st;
     linkedButtons := linkedButtons st; clickTimeout := clickTimeout st;
     sequenceCounter := sequenceCounter st; isBrowser := isBrowser st;
     selectedItem := selectedItem st;
     propertyPanelOpen := propertyPanelOpen st;
     toolbarDragActive := toolbarDragActive st;
     toolbarDragLabel := toolbarDragLabel st;
     toolbarDragType := toolbarDragType st;
     canvasOffset := canvasOffset st;
     scrollAtDragStart := scrollAtDragStart st; saved := saved st |}.

(** [loadWorkflowDataAndAutoCreate], called by [ngOnInit] on the
    component as constructed, once the service has answered [data]. *)
Definition loadStored (browser : bool) (data : list WorkflowProcessItem)
  (ls : Service.LocalStorage) : State * Service.LocalStorage :=
  autoCreateStored sequenceToString numberToString
    (withWorkflowData data (initial browser)) ls.

Definition loadFree (browser : bool) (data : list WorkflowProcessItem)
  : State :=
  autoCreateFree sequenceToString numberToString
    (withWorkflowData data (initial browser)).

(** What both revisions leave on the canvas, whatever the placement. *)
Definition laidOut (data : list WorkflowProcessItem) (st : State) : Prop :=
  let sorted := ServiceStorage.sortBySequence data in
  coherent numberToString st /\
  (forall i item, nth_error (items st) i = Some item ->
                  id item = (1 + Z.of_nat i)%Z) /\
  nextId st = (1 + Z.of_nat (List.length (items st)))%Z /\
  map type (items st) = flat_map nodeKinds sorted /\
  map workflowId (items st) = flat_map nodeWorkflowIds sorted /\
  map sequenceOrZero (filter isMain (items st)) = map wfSequence sorted /\
  (data = [] -> lastCreatedItem st = None) /\
  (data <> [] ->
   exists l exit,
     lastCreatedItem st = Some l /\ nth_error (items st) l = Some exit /\
     (type exit = action1 \/ type exit = continue)) /\
  List.length (arrows st)
  = (List.length data - 1
     + 2 * List.length (filter hasReturnValue data))%nat /\
  Forall (described (items st)) (arrows st) /\
  (1 <= sequenceCounter st)%Z /\
  (forall w, In w data -> (wfSequence w < sequenceCounter st)%Z) /\
  workflowData st = data.

Lemma initial_laidOut browser :
  laidOut [] (withWorkflowData [] (initial browser)).
Proof.
  unfold laidOut; cbv zeta.
  cbn [items arrows nextId lastCreatedItem sequenceCounter workflowData
       withWorkflowData initial ServiceStorage.sortBySequence flat_map
       filter map List.length].
  split.
  { unfold coherent; cbn.
    split; [constructor|]; split; [lia|]; split; [intros item []|].
    split; [constructor|]; split; [constructor | discriminate]. }
  split; [intros [|i] item H; discriminate|].
  split; [reflexivity|].
  split; [reflexivity|]; split; [reflexivity|]; split; [reflexivity|].
  split; [reflexivity|].
  split; [intros H; contradiction|].
  split; [reflexivity|].
  split; [constructor|].
  split; [lia|].
  split; [intros w []|reflexivity].
Qed.

Lemma autoCreate_laidOut {Store} place childOffsetX childOffsetY browser
  data (store : Store) :
  laidOut data
    (fst (autoCreateAction1FromJSON place childOffsetX childOffsetY
            sequenceToString numberToString
            (withWorkflowData data (initial browser)) store)).
Proof.
  destruct data as [|w0 rest] eqn:Hdata; [apply initial_laidOut|].
  rewrite <- Hdata.
  assert (Hne : workflowData (withWorkflowData data (initial browser)) <> [])
    by (cbn; rewrite Hdata; discriminate).
  destruct (autoCreate_built place childOffsetX childOffsetY
              sequenceToString numberToString
              (withWorkflowData data (initial browser)) store Hne)
    as (Hwb & Hsh & Hi & Ha & Hn & Hl & Hs & Hw).
  cbn [workflowData withWorkflowData] in Hwb, Hsh, Hi, Ha, Hn, Hl, Hs, Hw.
  set (b := fst (createAll place childOffsetX childOffsetY sequenceToString
                   0 (ServiceStorage.sortBySequence data) nothingBuilt
                   store)) in *.
  set (st' := fst (autoCreateAction1FromJSON place childOffsetX childOffsetY
                     sequenceToString numberToString
                     (withWorkflowData data (initial browser)) store)) in *.
  pose proof (wellBuilt_coherent numberToString b st' Hwb Hi Ha Hn Hl) as Hc.
  destruct Hwb as (Hids & Hnext & _).
  destruct Hsh as (Hty & Hwf & Hseq & Hnone & Hsome & Hlen & Hdesc).
  pose proof (sortBySequence_perm data) as Hperm.
  assert (Hsorted_ne : ServiceStorage.sortBySequence data <> [])
    by (apply sortBySequence_nonempty; rewrite Hdata; discriminate).
  unfold laidOut; cbv zeta; rewrite Hi, Ha, Hn, Hl, Hs.
  split; [exact Hc|]; split; [exact Hids|]; split; [exact Hnext|].
  split; [exact Hty|]; split; [exact Hwf|]; split; [exact Hseq|].
  split; [intros H; rewrite Hdata in H; discriminate|].
  split; [intros _; apply Hsome, Hsorted_ne|].
  split.
  { unfold updateAllArrows; rewrite length_map, Hlen.
    rewrite <- (Permutation_length Hperm).
    rewrite <- (filter_length_perm hasReturnValue _ _ Hperm).
    reflexivity. }
  split.
  { unfold updateAllArrows; apply Forall_map.
    eapply Forall_impl; [|exact Hdesc].
    intros a; apply described_update. }
  assert (Hmax : maxSequence (bItems b)
                 = fold_right Z.max 0%Z
                     (map wfSequence (ServiceStorage.sortBySequence data))).
  { unfold maxSequence; fold isMain.
    change (fun i : DraggableItem => isAction1 (type i) || isAction2 (type i))
      with isMain.
    rewrite Hseq; reflexivity. }
  destruct (max_bounds (map wfSequence (ServiceStorage.sortBySequence data)))
    as [H0 Hall].
  rewrite Hmax.
  split; [lia|]; split; [|exact Hw].
  intros w Hin.
  apply (Permutation_in _ Hperm), (in_map wfSequence) in Hin.
  apply (proj1 (Forall_forall _ _) Hall) in Hin; lia.
Qed.

End LoadedCanvas.

Section LoadedCanvasProperties.
Import Js JsFacts Workflow WorkstatusState CanvasFacts AutoCreate.
Import AutoCreateFacts AutoCreateShape AutoCreateRun SortFacts.
Variable sequenceToString : Z -> string.
Variable numberToString : R -> string.

Lemma loadStored_laidOut browser data ls :
  laidOut numberToString data
    (fst (loadStored sequenceToString numberToString browser data ls)).
Proof. apply autoCreate_laidOut. Qed.

Lemma loadFree_laidOut browser data :
  laidOut numberToString data
    (loadFree sequenceToString numberToString browser data).
Proof. apply autoCreate_laidOut. Qed.

(** In both revisions the canvas [ngOnInit] creates from the workflow
    records is coherent, with the ids 1, 2, ... in the order of the
    item list and [nextId] the next one, and it stays coherent whatever
    gestures follow. *)
Theorem loaded_canvas_is_coherent :
  (forall browser data ls gestures,
      let st0 :=
        fst (loadStored sequenceToString numberToString browser data ls) in
      (forall i item, nth_error (items st0) i = Some item ->
                      id item = (1 + Z.of_nat i)%Z) /\
      nextId st0 = (1 + Z.of_nat (List.length (items st0)))%Z /\
      coherent numberToString
        (fold_left (react numberToString) gestures st0)) /\
  (forall browser data gestures,
      let st0 := loadFree sequenceToString numberToString browser data in
      (forall i item, nth_error (items st0) i = Some item ->
                      id item = (1 + Z.of_nat i)%Z) /\
      nextId st0 = (1 + Z.of_nat (List.length (items st0)))%Z /\
      coherent numberToString
        (fold_left (freeReact numberToString) gestures st0)).
Proof.
  split.
  - intros browser data ls gestures st0.
    destruct (loadStored_laidOut browser data ls) as (Hc & Hids & Hn & _).
    fold st0 in Hc, Hids, Hn.
    split; [exact Hids|]; split; [exact Hn|].
    clearbody st0; clear Hids Hn.
    revert st0 Hc; induction gestures as [|g rest IH]; intros st Hc;
      [exact Hc|].
    cbn [fold_left]; apply IH, react_coherent, Hc.
  - intros browser data gestures st0.
    destruct (loadFree_laidOut browser data) as (Hc & Hids & Hn & _).
    fold st0 in Hc, Hids, Hn.
    split; [exact Hids|]; split; [exact Hn|].
    clearbody st0; clear Hids Hn.
    revert st0 Hc; induction gestures as [|g rest IH]; intros st Hc;
      [exact Hc|].
    cbn [fold_left]; apply IH, freeReact_coherent, Hc.
Qed.

(** What is said of the nodes on a canvas created from [data]. *)
Definition nodesFollow (data : list WorkflowProcessItem) (st : State)
  : Prop :=
  let sorted := ServiceStorage.sortBySequence data in
  Permutation data sorted /\
  StronglySorted sequenceLe sorted /\
  (forall k, filter (fun w => Z.eqb (wfSequence w) k) sorted
             = filter (fun w => Z.eqb (wfSequence w) k) data) /\
  map type (items st) = flat_map nodeKinds sorted /\
  map workflowId (items st) = flat_map nodeWorkflowIds sorted /\
  map sequenceOrZero (filter isMain (items st)) = map wfSequence sorted /\
  (1 <= sequenceCounter st)%Z /\
  (forall w, In w data -> (wfSequence w < sequenceCounter st)%Z).

Lemma laidOut_nodesFollow data st :
  laidOut numberToString data st -> nodesFollow data st.
Proof.
  intros (_ & _ & _ & Hty & Hwf & Hseq & _ & _ & _ & _ & H1 & Hlt & _).
  unfold nodesFollow; cbv zeta.
  split; [apply sortBySequence_perm|].
  split; [apply sortBySequence_sorted|].
  split; [intros k; apply sortBySequence_stable|].
  repeat (split; [assumption|]); assumption.
Qed.

(** In both revisions [sortBySequence] orders the records by sequence
    number, records with the same number staying in their order, and
    the canvas created from them shows them in that order: a record
    with a return value gives an action2 node followed by a continue
    and a reject node, any other record an action1 node; the action
    node carries the id and the sequence number of its record, the
    children no workflow id; and [sequenceCounter] ends above every
    sequence number of the records. *)
Theorem loaded_nodes_follow_the_sequence :
  (forall browser data ls,
      nodesFollow data
        (fst (loadStored sequenceToString numberToString browser data ls))) /\
  (forall browser data,
      nodesFollow data
        (loadFree sequenceToString numberToString browser data)).
Proof.
  split; intros; apply laidOut_nodesFollow;
    [apply loadStored_laidOut | apply loadFree_laidOut].
Qed.

(** What is said of the arrows on a canvas created from [data]. *)
Definition arrowsChain (data : list WorkflowProcessItem) (st : State)
  : Prop :=
  Forall (described (items st)) (arrows st) /\
  List.length (arrows st)
  = (List.length data - 1
     + 2 * List.length (filter hasReturnValue data))%nat /\
  (data = [] -> lastCreatedItem st = None) /\
  (data <> [] ->
   exists l exit,
     lastCreatedItem st = Some l /\ nth_error (items st) l = Some exit /\
     (type exit = action1 \/ type exit = continue)).

(** In both revisions every arrow of the canvas created from the
    records is of one of two sorts: dashed, from an action2 node to the
    continue node right after it or to the reject node two places after
    it; or solid, from an action1 or continue node to an action1 or
    action2 node later in the list.  There is one arrow less than there
    are records, plus two for every record with a return value; and the
    item the next arrow would start from is an action1 or a continue
    node, never an action2 or a reject node. *)
Theorem loaded_arrows_form_a_chain :
  (forall browser data ls,
      arrowsChain data
        (fst (loadStored sequenceToString numberToString browser data ls))) /\
  (forall browser data,
      arrowsChain data
        (loadFree sequenceToString numberToString browser data)).
Proof.
  assert (H : forall data st,
             laidOut numberToString data st -> arrowsChain data st).
  { intros data st
           (_ & _ & _ & _ & _ & _ & Hnone & Hsome & Hlen & Hdesc & _).
    unfold arrowsChain; auto. }
  split; intros; apply H;
    [apply loadStored_laidOut | apply loadFree_laidOut].
Qed.

End LoadedCanvasProperties.
